(** * graspnetAPI: the grasp containers of [graspnetAPI/grasp.py]

    A shallow embedding of the four classes [Grasp], [GraspGroup],
    [RectGrasp] and [RectGraspGroup], together with the part of NumPy they
    call.  Arrays live in a store of flat buffers and are handled through
    views, so that aliasing between a table and the values handed out by a
    method is visible; each method is a computation over that store which
    either returns a value or raises a Python exception. *)

From Stdlib Require Import ZArith List Bool Lia.
From Stdlib Require Import Floats.SpecFloat.
From stdpp Require Import base option list strings gmap.

Open Scope Z_scope.

(** ** Floating-point values

    An array element is an IEEE 754 value.  [spec_float] carries the
    value of a binary32 as well as of a binary64 number, so the exact
    widening conversions (float32 to float64, [float(x)]) are the
    identity and only the narrowing casts round. *)

Definition elt := spec_float.

Definition fzero : elt := S754_zero false.

Module Float64.
Definition prec : Z := 53.
Definition emax : Z := 1024.
(** A Python [int] converted to [float64]. *)
Definition of_Z (z : Z) : elt := binary_normalize prec emax z 0 false.
(** The decimal literal [n/d], correctly rounded. *)
Definition of_ratio (n d : Z) : elt := SFdiv prec emax (of_Z n) (of_Z d).
End Float64.

Module Float32.
Definition prec : Z := 24.
Definition emax : Z := 128.
Definition of_Z (z : Z) : elt := binary_normalize prec emax z 0 false.
(** [x.astype(np.float32)] on one element. *)
Definition cast (x : elt) : elt :=
  match x with
  | S754_finite s m e => binary_round prec emax s m e
  | _ => x
  end.
Definition add : elt -> elt -> elt := SFadd prec emax.
Definition sub : elt -> elt -> elt := SFsub prec emax.
Definition mul : elt -> elt -> elt := SFmul prec emax.
Definition div : elt -> elt -> elt := SFdiv prec emax.
Definition sqrt : elt -> elt := SFsqrt prec emax.
Definition opp : elt -> elt := SFopp.
End Float32.

(** Comparisons do not depend on the format. *)
Definition fltb (x y : elt) : bool := SFltb x y.
Definition fleb (x y : elt) : bool := SFleb x y.
Definition fgtb (x y : elt) : bool := SFltb y x.
Definition fgeb (x y : elt) : bool := SFleb y x.

Definition is_nan (x : elt) : bool :=
  match x with S754_nan => true | _ => false end.

(** The order NumPy sorts floating-point keys with: the usual [<], with
    every NaN after every number. *)
Definition np_lt (x y : elt) : bool :=
  fltb x y || (is_nan y && negb (is_nan x)).

(** Truncation toward zero of a finite value; [None] on NaN and the
    infinities. *)
Definition ftrunc (x : elt) : option Z :=
  match x with
  | S754_zero _ => Some 0
  | S754_finite s m e =>
      let a := match e with
               | Zneg p => Z.shiftr (Zpos m) (Zpos p)
               | _ => Z.shiftl (Zpos m) e
               end in
      Some (if s then - a else a)
  | _ => None
  end.

(** ** Python values and exceptions

    [NotModelled] is not a Python exception: a computation ends with it
    when it leaves the part of NumPy embedded here (a table that does not
    have two dimensions handed to a sort, a row vector that is not a
    vector).  [Cv2Error] is the [cv2.error] of OpenCV. *)

Inductive exn :=
  | ValueError
  | TypeError
  | AttributeError
  | IndexError
  | OverflowError
  | FileNotFoundError
  | NotImplementedError
  | Cv2Error
  | NotModelled.

Inductive outcome (A : Type) :=
  | Ok (a : A)
  | Raise (e : exn).
Arguments Ok {A} a.
Arguments Raise {A} e.

(** A Python number given as an argument. *)
Inductive pynum :=
  | PInt (z : Z)
  | PFloat (f : elt).

Definition pynum_to_float64 (x : pynum) : elt :=
  match x with
  | PInt z => Float64.of_Z z
  | PFloat f => f
  end.

(** [slice(start, stop, step)]. *)
Record slice := Slice {
  sl_start : option Z;
  sl_stop : option Z;
  sl_step : option Z
}.

(** ** The store

    [nd_base] names the buffer an array reads and writes, [nd_index]
    lists, in row-major order of the array, the positions of its elements
    in that buffer.  An array that owns its data has [nd_index = 0, 1, ..];
    a view obtained by indexing shares the buffer of the array it was taken
    from. *)

Definition loc := nat.

Record ndarray := NdArray {
  nd_base : loc;
  nd_shape : list nat;
  nd_index : list nat
}.

(** The content of a [.npy] file: the shape and the elements. *)
Record npy := Npy {
  npy_shape : list nat;
  npy_data : list elt
}.

Record world := World {
  heap : list (list elt);
  rng_stream : nat -> nat;
  rng_pos : nat;
  files : gmap string npy
}.

Definition M (A : Type) : Type := world -> outcome A * world.

Definition ret {A} (a : A) : M A := fun w => (Ok a, w).
Definition raise {A} (e : exn) : M A := fun w => (Raise e, w).
Definition bind {A B} (m : M A) (k : A -> M B) : M B :=
  fun w => match m w with
           | (Ok a, w') => k a w'
           | (Raise e, w') => (Raise e, w')
           end.

Notation "'let*' x ':=' m 'in' k" := (bind m (fun x => k))
  (at level 10, x name, m at level 100, k at level 200).
Notation "'let*' ' pat ':=' m 'in' k" :=
  (bind m (fun x => match x with pat => k end))
  (at level 10, pat pattern, m at level 100, k at level 200).
Notation "'run' m 'in' k" := (bind m (fun _ => k))
  (at level 10, m at level 100, k at level 200).

Definition set_heap (h : list (list elt)) (w : world) : world :=
  World h (rng_stream w) (rng_pos w) (files w).

(** ** Reading and writing through a view *)

Definition prod_shape (s : list nat) : nat := foldr Nat.mul 1%nat s.

Definition buffer_of (h : list (list elt)) (l : loc) : list elt :=
  default [] (h !! l).

Definition nd_data (h : list (list elt)) (a : ndarray) : list elt :=
  (fun i => default fzero (buffer_of h (nd_base a) !! i)) <$> nd_index a.

Definition nd_size (a : ndarray) : nat := prod_shape (nd_shape a).

(** [block sz k l]: the [k]-th run of [sz] consecutive entries of [l]. *)
Definition block {A} (sz k : nat) (l : list A) : list A :=
  take sz (drop (k * sz) l).

Definition blocks {A} (n sz : nat) (l : list A) : list (list A) :=
  (fun k => block sz k l) <$> seq 0 n.

(** The sub-arrays along the first axis (the rows of a table). *)
Definition nd_rows (h : list (list elt)) (a : ndarray) : list (list elt) :=
  match nd_shape a with
  | [] => []
  | n :: tl => blocks n (prod_shape tl) (nd_data h a)
  end.

Definition nd_len (a : ndarray) : option nat :=
  match nd_shape a with
  | [] => None
  | n :: _ => Some n
  end.

(** Element-wise store through the view: position [nd_index !! k] of the
    buffer receives the [k]-th value. *)
Fixpoint write_at (ix : list nat) (vs : list elt) (buf : list elt) : list elt :=
  match ix, vs with
  | i :: ix', v :: vs' => write_at ix' vs' (<[i := v]> buf)
  | _, _ => buf
  end.

Definition nd_store (a : ndarray) (vs : list elt) (h : list (list elt))
  : list (list elt) :=
  alter (write_at (nd_index a) vs) (nd_base a) h.

(** [a[...] = vs]: an in-place assignment of the elements of [a]. *)
Definition nd_assign (a : ndarray) (vs : list elt) : M unit :=
  fun w => (Ok tt, set_heap (nd_store a vs (heap w)) w).

(** A fresh array owning [data]. *)
Definition np_alloc (shape : list nat) (data : list elt) : M ndarray :=
  fun w =>
    (Ok (NdArray (length (heap w)) shape (seq 0 (length data))),
     set_heap (heap w ++ [data]) w).

(** [np.zeros(shape, dtype=np.float32)]. *)
Definition np_zeros (shape : list nat) : M ndarray :=
  np_alloc shape (replicate (prod_shape shape) fzero).

(** [copy.deepcopy(a)] on an array: a fresh buffer with the elements of
    the view. *)
Definition deepcopy (a : ndarray) : M ndarray :=
  fun w => np_alloc (nd_shape a) (nd_data (heap w) a) w.

(** ** The NumPy operations used by the module *)

(** [a.reshape(dims)], where one entry of [dims] may be [-1].  The arrays
    reshaped in this module are contiguous, for which NumPy returns a view
    on the same buffer. *)
Definition infer_shape (size : nat) (dims : list Z) : option (list nat) :=
  if existsb (fun d => d <? -1) dims then None
  else
    let known := prod_shape (Z.to_nat <$> filter (fun d => 0 <= d) dims) in
    match length (filter (fun d => d = -1) dims) with
    | O => if (known =? size)%nat then Some (Z.to_nat <$> dims) else None
    | S O =>
        if (known =? 0)%nat then None
        else if (size mod known =? 0)%nat
        then Some ((fun d => if d =? -1 then (size / known)%nat else Z.to_nat d) <$> dims)
        else None
    | _ => None
    end.

Definition np_reshape (a : ndarray) (dims : list Z) : M ndarray :=
  match infer_shape (nd_size a) dims with
  | Some s => ret (NdArray (nd_base a) s (nd_index a))
  | None => raise ValueError
  end.

(** [np.concatenate(arrs)] along axis 0.  NumPy refuses an empty
    sequence, an array of dimension zero, and arrays whose numbers of
    dimensions or trailing extents differ, each with a [ValueError]. *)
Definition same_tail (tl : list nat) (a : ndarray) : bool :=
  match nd_shape a with
  | [] => false
  | _ :: tl' => bool_decide (tl' = tl)
  end.

Definition np_concatenate (arrs : list ndarray) : M ndarray :=
  fun w =>
    match arrs with
    | [] => (Raise ValueError, w)
    | a0 :: _ =>
        match nd_shape a0 with
        | [] => (Raise ValueError, w)
        | _ :: tl =>
            if forallb (same_tail tl) arrs
            then np_alloc (sum_list ((fun a => hd O (nd_shape a)) <$> arrs) :: tl)
                          (concat (nd_data (heap w) <$> arrs)) w
            else (Raise ValueError, w)
        end
    end.

(** [np.array(x)] of a Python scalar: an array of dimension zero. *)
Definition np_array_scalar (x : pynum) : M ndarray :=
  np_alloc [] [pynum_to_float64 x].

(** [np.array((x1, .., xn))] of a tuple of Python scalars. *)
Definition np_array_tuple (xs : list pynum) : M ndarray :=
  np_alloc [length xs] (pynum_to_float64 <$> xs).

(** [a.astype(np.float32)]: a new array. *)
Definition np_astype_float32 (a : ndarray) : M ndarray :=
  fun w => np_alloc (nd_shape a) (Float32.cast <$> nd_data (heap w) a) w.

(** *** Basic indexing *)

Inductive index1 :=
  | IInt (i : Z)
  | ISlice (s : slice).

Definition norm_index (i : Z) (n : nat) : option nat :=
  let i' := if i <? 0 then i + Z.of_nat n else i in
  if (0 <=? i') && (i' <? Z.of_nat n) then Some (Z.to_nat i') else None.

(** The positions [range(start, stop, step)] that [s.indices(len)] gives;
    [None] when the step is zero. *)
Definition slice_range (s : slice) (len : nat) : option (list nat) :=
  let n := Z.of_nat len in
  let step := default 1 (sl_step s) in
  if step =? 0 then None
  else
    let lower := if step <? 0 then -1 else 0 in
    let upper := if step <? 0 then n - 1 else n in
    let clamp v := if v <? 0 then Z.max (v + n) lower else Z.min v upper in
    let start := match sl_start s with
                 | None => if step <? 0 then upper else lower
                 | Some v => clamp v
                 end in
    let stop := match sl_stop s with
                | None => if step <? 0 then lower else upper
                | Some v => clamp v
                end in
    let count :=
      if step >? 0
      then (if start <? stop then (stop - start - 1) / step + 1 else 0)
      else (if stop <? start then (start - stop - 1) / (- step) + 1 else 0) in
    Some ((fun k => Z.to_nat (start + Z.of_nat k * step)) <$> seq 0 (Z.to_nat count)).

Fixpoint index_shape (shape : list nat) (ix : list index1) {struct ix}
  : outcome (list nat) :=
  match ix with
  | [] => Ok shape
  | i :: ix' =>
      match shape with
      | [] => Raise IndexError
      | n :: tl =>
          match i with
          | IInt z =>
              match norm_index z n with
              | Some _ => index_shape tl ix'
              | None => Raise IndexError
              end
          | ISlice s =>
              match slice_range s n with
              | None => Raise ValueError
              | Some rows =>
                  match index_shape tl ix' with
                  | Ok tl' => Ok (length rows :: tl')
                  | Raise e => Raise e
                  end
              end
          end
      end
  end.

Fixpoint index_select {A} (shape : list nat) (ix : list index1) (idx : list A)
  {struct ix} : list A :=
  match ix with
  | [] => idx
  | i :: ix' =>
      match shape with
      | [] => []
      | n :: tl =>
          let sz := prod_shape tl in
          match i with
          | IInt z =>
              match norm_index z n with
              | Some k => index_select tl ix' (block sz k idx)
              | None => []
              end
          | ISlice s =>
              match slice_range s n with
              | Some rows =>
                  concat ((fun k => index_select tl ix' (block sz k idx)) <$> rows)
              | None => []
              end
          end
      end
  end.

(** [a[ix]] for a tuple [ix] of integers and slices: a view. *)
Definition nd_getitem (a : ndarray) (ix : list index1) : M ndarray :=
  match index_shape (nd_shape a) ix with
  | Ok s => ret (NdArray (nd_base a) s (index_select (nd_shape a) ix (nd_index a)))
  | Raise e => raise e
  end.

Definition full : index1 := ISlice (Slice None None None).
Definition upto (stop : Z) : index1 := ISlice (Slice None (Some stop) None).
Definition range (start stop : Z) : index1 :=
  ISlice (Slice (Some start) (Some stop) None).

(** *** Indexing by an array of integers or of booleans: a new array *)

Definition np_take (a : ndarray) (rows : list nat) : M ndarray :=
  fun w =>
    match nd_shape a with
    | [] => (Raise IndexError, w)
    | n :: tl =>
        if forallb (fun k => (k <? n)%nat) rows
        then np_alloc (length rows :: tl)
               (concat ((fun k => block (prod_shape tl) k (nd_data (heap w) a)) <$> rows)) w
        else (Raise IndexError, w)
    end.

(** The positions at which a mask is true, in increasing order. *)
Definition mask_positions (mask : list bool) : list nat :=
  filter (fun k => mask !! k = Some true) (seq 0 (length mask)).

Definition np_compress (a : ndarray) (mask : list bool) : M ndarray :=
  match nd_shape a with
  | [] => raise IndexError
  | n :: _ =>
      if (length mask =? n)%nat then np_take a (mask_positions mask)
      else raise IndexError
  end.

(** [np.delete(a, obj, axis=0)] for a list [obj] of integers: a new
    array without the sub-arrays at these positions, which may be counted
    from the end and may repeat.  A position out of range raises
    [IndexError].  On an array of dimension zero NumPy raises an
    [AxisError], which is a [ValueError] and an [IndexError] at once. *)
Definition np_delete (a : ndarray) (obj : list Z) : M ndarray :=
  fun w =>
    match nd_shape a with
    | [] => (Raise NotModelled, w)
    | n :: tl =>
        match mapM (fun i => norm_index i n) obj with
        | Some ks =>
            let keep := filter (fun k => k ∉ ks) (seq 0 n) in
            np_alloc (length keep :: tl)
              (concat ((fun k => block (prod_shape tl) k (nd_data (heap w) a)) <$> keep)) w
        | None => (Raise IndexError, w)
        end
    end.

(** *** Sorting

    [np.argsort(v)] on a vector: the positions of [v] in ascending order
    of their keys.  NumPy leaves the relative order of equal keys open;
    here it is the order of the positions. *)
Fixpoint insert_by (key : nat -> elt) (i : nat) (l : list nat) : list nat :=
  match l with
  | [] => [i]
  | j :: l' => if np_lt (key j) (key i) then j :: insert_by key i l' else i :: l
  end.

Definition argsort (v : list elt) : list nat :=
  foldr (insert_by (fun i => default fzero (v !! i))) [] (seq 0 (length v)).

(** [np.argsort] of a vector, by value. *)
Definition np_argsort (v : ndarray) : M (list nat) :=
  fun w =>
    match nd_shape v with
    | [_] => (Ok (argsort (nd_data (heap w) v)), w)
    | _ => (Raise NotModelled, w)
    end.

(** *** Shuffling

    [np.random.shuffle(a)]: for [i] from [n-1] down to [1], draw [j] in
    [0..i] and exchange the sub-arrays [i] and [j] of [a], in place. *)
Definition swap {A} (i j : nat) (l : list A) : list A :=
  match l !! i, l !! j with
  | Some x, Some y => <[i := y]> (<[j := x]> l)
  | _, _ => l
  end.

Fixpoint fisher_yates {A} (i : nat) (draw : nat -> nat) (pos : nat) (l : list A)
  : list A :=
  match i with
  | O => l
  | S i' => fisher_yates i' draw (S pos) (swap i (draw pos mod S i) l)
  end.

Definition np_random_shuffle (a : ndarray) : M unit :=
  fun w =>
    match nd_shape a with
    | [] => (Raise TypeError, w)
    | n :: tl =>
        let rows := blocks n (prod_shape tl) (nd_data (heap w) a) in
        let rows' := fisher_yates (n - 1) (rng_stream w) (rng_pos w) rows in
        (Ok tt,
         World (nd_store a (concat rows') (heap w))
               (rng_stream w) (rng_pos w + (n - 1))%nat (files w))
    end.

(** *** Files

    [np.save] appends [.npy] to a name that does not end with it;
    [np.load] opens the name it is given. *)
Definition ends_with (suffix s : string) : bool :=
  String.prefix (String.rev suffix) (String.rev s).

Definition npy_name (path : string) : string :=
  if ends_with ".npy" path then path else (path +:+ ".npy")%string.

Definition np_save (path : string) (a : ndarray) : M unit :=
  fun w =>
    (Ok tt,
     World (heap w) (rng_stream w) (rng_pos w)
           (<[npy_name path := Npy (nd_shape a) (nd_data (heap w) a)]> (files w))).

Definition np_load (path : string) : M ndarray :=
  fun w =>
    match files w !! path with
    | Some f => np_alloc (npy_shape f) (npy_data f) w
    | None => (Raise FileNotFoundError, w)
    end.

(** [a[ix]] as Python sees it: NumPy hands out a scalar, not an array,
    when no dimension is left. *)
Inductive indexed :=
  | IxScalar (x : elt)
  | IxArray (a : ndarray).

Definition np_index (a : ndarray) (ix : list index1) : M indexed :=
  let* v := nd_getitem a ix in
  fun w =>
    match nd_shape v with
    | [] => (Ok (IxScalar (default fzero (head (nd_data (heap w) v)))), w)
    | _ => (Ok (IxArray v), w)
    end.

(** [float(x)]: only an array of one element converts. *)
Definition py_float (x : indexed) : M elt :=
  match x with
  | IxScalar v => ret v
  | IxArray a =>
      fun w =>
        match nd_data (heap w) a with
        | [v] => (Ok v, w)
        | _ => (Raise TypeError, w)
        end
  end.

(** [int(x)] of a floating-point scalar: truncation; NaN and the
    infinities are refused. *)
Definition int_of_float (v : elt) : M Z :=
  match ftrunc v with
  | Some z => ret z
  | None => raise (if is_nan v then ValueError else OverflowError)
  end.

Definition py_int (x : indexed) : M Z :=
  let* v := py_float x in int_of_float v.

(** [len(a)]. *)
Definition py_len (a : ndarray) : M nat :=
  match nd_len a with
  | Some n => ret n
  | None => raise TypeError
  end.

(** [a.astype(np.int32)], by value.  C leaves the conversion of a NaN or
    of a value outside the range of the target undefined; the result here
    is the one of the x86 conversion instruction. *)
Definition float_to_int32 (x : elt) : Z :=
  match ftrunc x with
  | Some z => if (- 2 ^ 31 <=? z) && (z <? 2 ^ 31) then z else - 2 ^ 31
  | None => - 2 ^ 31
  end.

Definition np_astype_int32 (a : ndarray) : M (list Z) :=
  fun w => (Ok (float_to_int32 <$> nd_data (heap w) a), w).

(** The format of an element.  A float32 array holds binary32 values
    and a float64 array binary64 values; a finite value is of one of the
    two formats only, so the dtype of an array is read off its
    elements. *)
Definition is_binary32 (x : elt) : bool := valid_binary Float32.prec Float32.emax x.
Definition is_binary64 (x : elt) : bool := valid_binary Float64.prec Float64.emax x.

(** [a > c] for a Python float [c], by value.  NumPy compares a float32
    array with a Python float in float32, the float rounded to float32,
    and a float64 array in float64.  An array without a finite element
    may be of either dtype: when the two comparisons then differ, and when
    the elements are of neither format, the computation leaves the
    embedding. *)
Definition np_greater (a : ndarray) (c : elt) : M (list bool) :=
  fun w =>
    let d := nd_data (heap w) a in
    let in32 := (fun x => fgtb x (Float32.cast c)) <$> d in
    let in64 := (fun x => fgtb x c) <$> d in
    match forallb is_binary32 d, forallb is_binary64 d with
    | true, false => (Ok in32, w)
    | false, true => (Ok in64, w)
    | true, true =>
        if bool_decide (in32 = in64) then (Ok in32, w) else (Raise NotModelled, w)
    | false, false => (Raise NotModelled, w)
    end.

(** A [for] loop threading the variable it assigns. *)
Fixpoint for_each {A S} (l : list A) (body : S -> A -> M S) (s : S) : M S :=
  match l with
  | [] => ret s
  | x :: l' => let* s' := body s x in for_each l' body s'
  end.

(** ** The classes *)

Definition GRASP_ARRAY_LEN : nat := 17.
Definition RECT_GRASP_ARRAY_LEN : nat := 7.

Record Grasp := MkGrasp { grasp_array : ndarray }.
Record GraspGroup := MkGraspGroup { grasp_group_array : ndarray }.
Record RectGrasp := MkRectGrasp { rect_grasp_array : ndarray }.
Record RectGraspGroup := MkRectGraspGroup { rect_grasp_group_array : ndarray }.

#[warnings="-register-all"] Inductive pyval :=
  | VNone
  | VInt (z : Z)
  | VFloat (f : elt)
  | VScalar (x : elt)
  | VArray (a : ndarray)
  | VSlice (s : slice)
  | VList (l : list pyval)
  | VGrasp (g : Grasp)
  | VGraspGroup (g : GraspGroup)
  | VRectGrasp (g : RectGrasp)
  | VRectGraspGroup (g : RectGraspGroup).

Definition of_indexed (x : indexed) : pyval :=
  match x with
  | IxScalar v => VScalar v
  | IxArray a => VArray a
  end.

(** *** Grasp *)

Module Grasp.

(** The positional arguments of the constructor: one value, the seven
    fields at their documented types, or any other number of
    arguments. *)
Inductive args :=
  | Args1 (a : pyval)
  | Args7 (score width height depth : pynum)
          (rotation_matrix translation : ndarray) (object_id : pynum)
  | ArgsOther.

Definition __init__ (a : args) : M Grasp :=
  match a with
  | Args1 (VArray arr) =>
      let* c := deepcopy arr in ret (MkGrasp c)
  | Args1 _ => raise TypeError
  | Args7 score width height depth rotation_matrix translation object_id =>
      let* a1 := np_array_tuple [score; width; height; depth] in
      let* a2 := np_reshape rotation_matrix [-1] in
      let* a4 := np_array_scalar object_id in
      let* c := np_concatenate [a1; a2; translation; a4] in
      let* r := np_astype_float32 c in
      ret (MkGrasp r)
  | ArgsOther => raise ValueError
  end.

Definition score (self : Grasp) : M elt :=
  let* x := np_index (grasp_array self) [IInt 0] in py_float x.

Definition width (self : Grasp) : M elt :=
  let* x := np_index (grasp_array self) [IInt 1] in py_float x.

Definition height (self : Grasp) : M elt :=
  let* x := np_index (grasp_array self) [IInt 2] in py_float x.

Definition depth (self : Grasp) : M elt :=
  let* x := np_index (grasp_array self) [IInt 3] in py_float x.

Definition rotation_matrix (self : Grasp) : M ndarray :=
  let* v := nd_getitem (grasp_array self) [range 4 13] in
  np_reshape v [3; 3].

Definition translation (self : Grasp) : M ndarray :=
  nd_getitem (grasp_array self) [range 13 16].

Definition object_id (self : Grasp) : M Z :=
  let* x := np_index (grasp_array self) [IInt 16] in py_int x.

End Grasp.

(** *** RectGrasp *)

(** A stroke of [cv2.line(img, pt1, pt2, color, thickness, lineType)];
    the picture is kept as the strokes drawn on it. *)
Record stroke := Stroke {
  pt1 : Z * Z;
  pt2 : Z * Z;
  color : Z * Z * Z;
  thickness : Z;
  lineType : Z
}.

Definition image := list stroke.

(** [cv2.line] takes the coordinates of its points as 32-bit integers
    and a thickness from 1 to 32767; it raises [cv2.error] otherwise. *)
Definition fits_int32 (z : Z) : bool := (- 2 ^ 31 <=? z) && (z <? 2 ^ 31).

Definition cv2_line (img : image) (p q : Z * Z) (c : Z * Z * Z) (t l : Z) : M image :=
  if fits_int32 p.1 && fits_int32 p.2 && fits_int32 q.1 && fits_int32 q.2
     && (0 <? t) && (t <=? 32767)
  then ret (img ++ [Stroke p q c t l])
  else raise Cv2Error.

Module RectGrasp.

Inductive args :=
  | Args1 (a : pyval)
  | Args7 (center_x center_y open_x open_y height score object_id : pynum)
  | ArgsOther.

Definition __init__ (a : args) : M RectGrasp :=
  match a with
  | Args1 (VArray arr) =>
      let* c := deepcopy arr in ret (MkRectGrasp c)
  | Args1 _ => raise TypeError
  | Args7 center_x center_y open_x open_y height score object_id =>
      let* t :=
        np_array_tuple [center_x; center_y; open_x; open_y; height; score; object_id] in
      let* r := np_astype_float32 t in
      ret (MkRectGrasp r)
  | ArgsOther => raise ValueError
  end.

Definition score (self : RectGrasp) : M indexed :=
  np_index (rect_grasp_array self) [IInt 5].

Definition height (self : RectGrasp) : M indexed :=
  np_index (rect_grasp_array self) [IInt 4].

Definition open_point (self : RectGrasp) : M (indexed * indexed) :=
  let* x := np_index (rect_grasp_array self) [IInt 2] in
  let* y := np_index (rect_grasp_array self) [IInt 3] in
  ret (x, y).

Definition center_point (self : RectGrasp) : M (indexed * indexed) :=
  let* x := np_index (rect_grasp_array self) [IInt 0] in
  let* y := np_index (rect_grasp_array self) [IInt 1] in
  ret (x, y).

Definition object_id (self : RectGrasp) : M Z :=
  let* x := np_index (rect_grasp_array self) [IInt 6] in py_int x.

(** Vectors of two float32 components. *)
Definition vec : Type := elt * elt.
Definition vadd (u v : vec) : vec := (Float32.add u.1 v.1, Float32.add u.2 v.2).
Definition vsub (u v : vec) : vec := (Float32.sub u.1 v.1, Float32.sub u.2 v.2).
Definition vmul (u : vec) (c : elt) : vec := (Float32.mul u.1 c, Float32.mul u.2 c).
Definition vdiv (u : vec) (c : elt) : vec := (Float32.div u.1 c, Float32.div u.2 c).

(** [np.linalg.norm] of a vector: the square root of its dot product with
    itself. *)
Definition linalg_norm (u : vec) : elt :=
  Float32.sqrt (Float32.add (Float32.mul u.1 u.1) (Float32.mul u.2 u.2)).

(** The corners [p1, p2, p3, p4] that [to_opencv_image] computes from the
    first five entries of the row. *)
Definition corners (center_x center_y open_x open_y height : elt)
  : vec * vec * vec * vec :=
  let center := (center_x, center_y) in
  let left := (open_x, open_y) in
  let axis := vsub left center in
  let normal := (Float32.opp axis.2, axis.1) in
  let normal := vdiv (vmul (vdiv normal (linalg_norm normal)) height) (Float32.of_Z 2) in
  let p1 := vadd (vadd center normal) axis in
  let p2 := vsub (vadd center normal) axis in
  let p3 := vsub (vsub center normal) axis in
  let p4 := vadd (vsub center normal) axis in
  (p1, p2, p3, p4).

Definition int_point (p : vec) : M (Z * Z) :=
  let* x := int_of_float p.1 in
  let* y := int_of_float p.2 in
  ret (x, y).

(** Unpacking the row into seven names: a vector of another length
    cannot be unpacked, an array of dimension zero cannot be iterated. *)
Definition unpack7 (a : ndarray) : M (elt * elt * elt * elt * elt * elt * elt) :=
  fun w =>
    match nd_shape a with
    | [] => (Raise TypeError, w)
    | [_] =>
        match nd_data (heap w) a with
        | [x0; x1; x2; x3; x4; x5; x6] => (Ok (x0, x1, x2, x3, x4, x5, x6), w)
        | _ => (Raise ValueError, w)
        end
    | n :: _ =>
        if (n =? 7)%nat then (Raise NotModelled, w) else (Raise ValueError, w)
    end.

Definition to_opencv_image (self : RectGrasp) (opencv_rgb : image) : M image :=
  let* '(center_x, center_y, open_x, open_y, height, score, object_id) :=
    unpack7 (rect_grasp_array self) in
  let '(p1, p2, p3, p4) := corners center_x center_y open_x open_y height in
  let* a := int_point p1 in
  let* b := int_point p2 in
  let* opencv_rgb := cv2_line opencv_rgb a b (0, 0, 255) 1 8 in
  let* a := int_point p2 in
  let* b := int_point p3 in
  let* opencv_rgb := cv2_line opencv_rgb a b (255, 0, 0) 3 8 in
  let* a := int_point p3 in
  let* b := int_point p4 in
  let* opencv_rgb := cv2_line opencv_rgb a b (0, 0, 255) 1 8 in
  let* a := int_point p4 in
  let* b := int_point p1 in
  let* opencv_rgb := cv2_line opencv_rgb a b (255, 0, 0) 3 8 in
  ret opencv_rgb.

(** The body is [pass]. *)
Definition to_grasp (self : RectGrasp) (camera_intrinsics depths depth_method : pyval)
  : M pyval :=
  ret VNone.

End RectGrasp.

(** *** RectGraspGroup *)

Module RectGraspGroup.

Definition getattr_reshape (v : pyval) (dims : list Z) : M ndarray :=
  match v with
  | VArray a => np_reshape a dims
  | _ => raise AttributeError
  end.

Definition __init__ (args : list pyval) : M RectGraspGroup :=
  match args with
  | [] =>
      let* t := np_zeros [O; RECT_GRASP_ARRAY_LEN] in ret (MkRectGraspGroup t)
  | [_] =>
      let rect_grasp_list := args in
      let* t0 := np_zeros [O; RECT_GRASP_ARRAY_LEN] in
      let* t :=
        for_each rect_grasp_list
          (fun t rect_grasp =>
             let* r := getattr_reshape rect_grasp [-1; Z.of_nat RECT_GRASP_ARRAY_LEN] in
             np_concatenate [t; r])
          t0 in
      ret (MkRectGraspGroup t)
  | _ => raise ValueError
  end.

Definition __len__ (self : RectGraspGroup) : M nat :=
  py_len (rect_grasp_group_array self).

Definition __getitem__ (self : RectGraspGroup) (index : pyval) : M pyval :=
  match index with
  | VInt i =>
      let* x := np_index (rect_grasp_group_array self) [IInt i] in
      let* g := RectGrasp.__init__ (RectGrasp.Args1 (of_indexed x)) in
      ret (VRectGrasp g)
  | VSlice s =>
      let* rectgraspgroup := __init__ [] in
      let* v := nd_getitem (rect_grasp_group_array self) [ISlice s] in
      let* c := deepcopy v in
      ret (VRectGraspGroup (MkRectGraspGroup c))
  | _ => raise TypeError
  end.

Definition add (self : RectGraspGroup) (rect_grasp : RectGrasp) : M RectGraspGroup :=
  let* r := np_reshape (rect_grasp_array rect_grasp)
              [-1; Z.of_nat RECT_GRASP_ARRAY_LEN] in
  let* t := np_concatenate [rect_grasp_group_array self; r] in
  ret (MkRectGraspGroup t).

Definition remove (self : RectGraspGroup) (index : list Z) : M RectGraspGroup :=
  let* t := np_delete (rect_grasp_group_array self) index in
  ret (MkRectGraspGroup t).

Definition from_npy (self : RectGraspGroup) (npy_file_path : string)
  : M RectGraspGroup :=
  let* t := np_load npy_file_path in ret (MkRectGraspGroup t).

Definition save_npy (self : RectGraspGroup) (npy_file_path : string) : M unit :=
  np_save npy_file_path (rect_grasp_group_array self).

(** The body of the loop of [to_opencv_image]: one row is unpacked into
    seven names and its rectangle is drawn on [img]. *)
Definition draw_row (img : image) (rect_grasp_array : list elt) : M image :=
  match rect_grasp_array with
  | [center_x; center_y; open_x; open_y; height; score; object_id] =>
      let '(p1, p2, p3, p4) :=
        RectGrasp.corners center_x center_y open_x open_y height in
      let* a := RectGrasp.int_point p1 in
      let* b := RectGrasp.int_point p2 in
      let* img := cv2_line img a b (0, 0, 255) 1 8 in
      let* a := RectGrasp.int_point p2 in
      let* b := RectGrasp.int_point p3 in
      let* img := cv2_line img a b (255, 0, 0) 3 8 in
      let* a := RectGrasp.int_point p3 in
      let* b := RectGrasp.int_point p4 in
      let* img := cv2_line img a b (0, 0, 255) 1 8 in
      let* a := RectGrasp.int_point p4 in
      let* b := RectGrasp.int_point p1 in
      let* img := cv2_line img a b (255, 0, 0) 3 8 in
      ret img
  | _ => raise ValueError
  end.

(** The picture is a value here, so [copy.deepcopy(opencv_rgb)] is
    [opencv_rgb] itself.  The loop runs over the rows of the slice; a table
    that does not have two dimensions is outside the embedding. *)
Definition to_opencv_image (self : RectGraspGroup) (opencv_rgb : image)
  (numGrasp : Z) : M image :=
  let img := opencv_rgb in
  let* numGrasp :=
    if numGrasp =? 0
    then (let* n := __len__ self in ret (Z.of_nat n))
    else ret numGrasp in
  let* shuffled_rect_grasp_group_array := deepcopy (rect_grasp_group_array self) in
  run np_random_shuffle shuffled_rect_grasp_group_array in
  let* v := nd_getitem shuffled_rect_grasp_group_array [upto numGrasp] in
  fun w =>
    match nd_shape v with
    | [_; _] => for_each (nd_rows (heap w) v) draw_row img w
    | _ => (Raise NotModelled, w)
    end.

(** The body is [pass]. *)
Definition to_grasp_group (self : RectGraspGroup)
  (camera_intrinsics depths depth_method : pyval) : M pyval :=
  ret VNone.

Definition sort_by_score (self : RectGraspGroup) (reverse : bool) : M RectGraspGroup :=
  let* score := nd_getitem (rect_grasp_group_array self) [full; IInt 5] in
  let* index := np_argsort score in
  let index := if negb reverse then rev index else index in
  let* t := np_take (rect_grasp_group_array self) index in
  ret (MkRectGraspGroup t).

Definition random_sample (self : RectGraspGroup) (numGrasp : Z) : M RectGraspGroup :=
  let* n := __len__ self in
  if numGrasp >? Z.of_nat n then raise ValueError
  else
    let* shuffled_rect_grasp_group_array := deepcopy (rect_grasp_group_array self) in
    run np_random_shuffle shuffled_rect_grasp_group_array in
    let* shuffled_rect_grasp_group := __init__ [] in
    let* v := nd_getitem shuffled_rect_grasp_group_array [upto numGrasp] in
    let* c := deepcopy v in
    ret (MkRectGraspGroup c).

End RectGraspGroup.

(** *** GraspGroup *)

Module GraspGroup.

Definition getattr_grasp_array (v : pyval) : M ndarray :=
  match v with
  | VGrasp g => ret (grasp_array g)
  | _ => raise AttributeError
  end.

(** [args] is the tuple of positional arguments; with one argument the
    loop runs over that tuple. *)
Definition __init__ (args : list pyval) : M GraspGroup :=
  match args with
  | [] =>
      let* t := np_zeros [O; GRASP_ARRAY_LEN] in ret (MkGraspGroup t)
  | [_] =>
      let grasp_list := args in
      let* t0 := np_zeros [O; GRASP_ARRAY_LEN] in
      let* t :=
        for_each grasp_list
          (fun t grasp =>
             let* ga := getattr_grasp_array grasp in
             let* r := np_reshape ga [-1; Z.of_nat GRASP_ARRAY_LEN] in
             np_concatenate [t; r])
          t0 in
      ret (MkGraspGroup t)
  | _ => raise ValueError
  end.

Definition __len__ (self : GraspGroup) : M nat :=
  py_len (grasp_group_array self).

Definition __getitem__ (self : GraspGroup) (index : pyval) : M pyval :=
  match index with
  | VInt i =>
      let* x := np_index (grasp_group_array self) [IInt i] in
      let* g := Grasp.__init__ (Grasp.Args1 (of_indexed x)) in
      ret (VGrasp g)
  | VSlice s =>
      let* graspgroup := __init__ [] in
      let* v := nd_getitem (grasp_group_array self) [ISlice s] in
      let* c := deepcopy v in
      ret (VGraspGroup (MkGraspGroup c))
  | _ => raise TypeError
  end.

Definition scores (self : GraspGroup) : M ndarray :=
  nd_getitem (grasp_group_array self) [full; IInt 0].

Definition widths (self : GraspGroup) : M ndarray :=
  nd_getitem (grasp_group_array self) [full; IInt 1].

Definition heights (self : GraspGroup) : M ndarray :=
  nd_getitem (grasp_group_array self) [full; IInt 2].

Definition depths (self : GraspGroup) : M ndarray :=
  nd_getitem (grasp_group_array self) [full; IInt 3].

Definition rotation_matrices (self : GraspGroup) : M ndarray :=
  let* v := nd_getitem (grasp_group_array self) [full; range 4 13] in
  np_reshape v [-1; 3; 3].

Definition translations (self : GraspGroup) : M ndarray :=
  nd_getitem (grasp_group_array self) [full; range 13 16].

Definition object_ids (self : GraspGroup) : M (list Z) :=
  let* v := nd_getitem (grasp_group_array self) [full; IInt 16] in
  np_astype_int32 v.

Definition add (self : GraspGroup) (grasp : Grasp) : M GraspGroup :=
  let* r := np_reshape (grasp_array grasp) [-1; Z.of_nat GRASP_ARRAY_LEN] in
  let* t := np_concatenate [grasp_group_array self; r] in
  ret (MkGraspGroup t).

Definition remove (self : GraspGroup) (index : list Z) : M GraspGroup :=
  let* t := np_delete (grasp_group_array self) index in
  ret (MkGraspGroup t).

Definition from_npy (self : GraspGroup) (npy_file_path : string) : M GraspGroup :=
  let* t := np_load npy_file_path in ret (MkGraspGroup t).

Definition save_npy (self : GraspGroup) (npy_file_path : string) : M unit :=
  np_save npy_file_path (grasp_group_array self).

Definition sort_by_score (self : GraspGroup) (reverse : bool) : M GraspGroup :=
  let* score := nd_getitem (grasp_group_array self) [full; IInt 0] in
  let* index := np_argsort score in
  let index := if negb reverse then rev index else index in
  let* t := np_take (grasp_group_array self) index in
  ret (MkGraspGroup t).

Definition random_sample (self : GraspGroup) (numGrasp : Z) : M GraspGroup :=
  let* n := __len__ self in
  if numGrasp >? Z.of_nat n then raise ValueError
  else
    let* shuffled_grasp_group_array := deepcopy (grasp_group_array self) in
    run np_random_shuffle shuffled_grasp_group_array in
    let* shuffled_grasp_group := __init__ [] in
    let* v := nd_getitem shuffled_grasp_group_array [upto numGrasp] in
    let* c := deepcopy v in
    ret (MkGraspGroup c).

(** The conversion to rectangles.  [get_batch_key_points] and
    [batch_key_points_2_tuple] belong to [utils/utils.py]; what they
    compute for one grasp is left open here: [key_points] gives the four
    key points of a grasp from its translation, rotation and width, and
    [key_points_2_tuple] the rectangle row of four key points, a score, an
    object id and a camera. *)
Section Conversion.

Variable key_points : list elt -> list elt -> elt -> list elt.
Variable key_points_2_tuple : list elt -> elt -> Z -> string -> list elt.

(** Modelled from the spec: [get_batch_key_points] of [utils/utils.py] is
    missing.  For every row it computes the 3D key points of the gripper
    from translation, rotation and width; the result has one block of
    four points per row, in row order. *)
Definition get_batch_key_points (translations rotations widths : ndarray)
  : M ndarray :=
  fun w =>
    let ks := zip_with (fun tr wd => key_points tr.1 tr.2 wd)
                (zip (nd_rows (heap w) translations) (nd_rows (heap w) rotations))
                (nd_data (heap w) widths) in
    np_alloc [length ks; 4%nat; 3%nat] (concat ks) w.

(** Modelled from the spec: [batch_key_points_2_tuple] of [utils/utils.py]
    is missing.  It re-encodes the key points of every row, with the
    score and the object id of that row, into the rectangle row of seven
    fields, in row order. *)
Definition batch_key_points_2_tuple (k_points scores : ndarray)
  (object_ids : list Z) (camera : string) : M ndarray :=
  fun w =>
    let rs := zip_with (fun ks o => key_points_2_tuple ks.1 ks.2 o camera)
                (zip (nd_rows (heap w) k_points) (nd_data (heap w) scores))
                object_ids in
    np_alloc [length rs; RECT_GRASP_ARRAY_LEN] (concat rs) w.

(** [ids[mask]] on the object ids, by value. *)
Definition compress_ids (ids : list Z) (mask : list bool) : M (list Z) :=
  if (length mask =? length ids)%nat
  then ret ((fun k => default 0 (ids !! k)) <$> mask_positions mask)
  else raise IndexError.

Definition to_rect_grasp_group (self : GraspGroup) (camera : string)
  : M RectGraspGroup :=
  let* tranlations := translations self in
  let* rotations := rotation_matrices self in
  let* depths := depths self in
  let* scores := scores self in
  let* widths := widths self in
  let* object_ids := object_ids self in
  let* column := nd_getitem rotations [full; IInt 2; IInt 0] in
  let* mask := np_greater column (Float64.of_ratio 99 100) in
  let* tranlations := np_compress tranlations mask in
  let* depths := np_compress depths mask in
  let* widths := np_compress widths mask in
  let* scores := np_compress scores mask in
  let* rotations := np_compress rotations mask in
  let* object_ids := compress_ids object_ids mask in
  let* k_points := get_batch_key_points tranlations rotations widths in
  let* k_points := np_reshape k_points [-1; 3] in
  let* k_points := np_reshape k_points [-1; 4; 3] in
  let* rect_grasp_group_array :=
    batch_key_points_2_tuple k_points scores object_ids camera in
  let* rect_grasp_group := RectGraspGroup.__init__ [] in
  ret (MkRectGraspGroup rect_grasp_group_array).

End Conversion.

End GraspGroup.

(** ** Vocabulary of the statements *)

(** [m] run in [w] returns a value and a world that satisfy [Q]. *)
Definition returns {A} (m : M A) (w : world) (Q : A -> world -> Prop) : Prop :=
  exists a w', m w = (Ok a, w') /\ Q a w'.

(** [t] is, in the store [h], a table of [C] columns whose rows are
    [rows], in this order. *)
Definition is_table (h : list (list elt)) (t : ndarray) (C : nat)
  (rows : list (list elt)) : Prop :=
  (nd_base t < length h)%nat /\
  nd_shape t = [length rows; C] /\
  nd_data h t = concat rows /\
  Forall (fun r => length r = C) rows.

(** The column [j] of a list of rows. *)
Definition column (j : nat) (rows : list (list elt)) : list elt :=
  (fun r => default fzero (r !! j)) <$> rows.

(** Adjacent entries are related by [R]. *)
Fixpoint adjacent {A} (R : A -> A -> Prop) (l : list A) : Prop :=
  match l with
  | x :: (y :: _) as l' => R x y /\ adjacent R l'
  | _ => True
  end.

Definition descending (l : list elt) : Prop := adjacent (fun x y => fgeb x y = true) l.
Definition ascending (l : list elt) : Prop := adjacent (fun x y => fleb x y = true) l.

(** The stop of [a[:n]] on an axis of length [N]. *)
Definition stop_of (n : Z) (N : nat) : nat :=
  Z.to_nat (if n <? 0 then Z.max (n + Z.of_nat N) 0 else Z.min n (Z.of_nat N)).

(** Whatever is assigned in place through [fresh], the elements of
    [orig] stay as they are in [w]. *)
Definition independent (w : world) (fresh orig : ndarray) : Prop :=
  forall vs w', nd_assign fresh vs w = (Ok tt, w') ->
    nd_data (heap w') orig = nd_data (heap w) orig.

(** ** Sample data *)

Definition world_of (buffers : list (list elt)) : world :=
  World buffers (fun n => n) O ∅.

(** A grasp row with the given score and entry [2,0] of the rotation. *)
Definition sample_row (score r20 : elt) : list elt :=
  [score] ++ replicate 9 fzero ++ [r20] ++ replicate 6 fzero.

(** A rectangle row with the given score. *)
Definition sample_rect_row (score : elt) : list elt :=
  replicate 5 fzero ++ [score; fzero].

Definition sample_rows : list (list elt) :=
  (fun s => sample_row (Float32.of_Z s) fzero) <$> [3; 1; 2; 5; 4].

Definition sample_rect_rows : list (list elt) :=
  (fun s => sample_rect_row (Float32.of_Z s)) <$> [3; 1; 2; 5; 4].

(** A table owning the buffer [0] of the store. *)
Definition table_of (C : nat) (rows : list (list elt)) : ndarray :=
  NdArray O [length rows; C] (seq 0 (length (concat rows))).

Definition sample_world : world := world_of [concat sample_rows].
Definition sample_group : GraspGroup :=
  MkGraspGroup (table_of GRASP_ARRAY_LEN sample_rows).

Definition sample_rect_world : world := world_of [concat sample_rect_rows].
Definition sample_rect_group : RectGraspGroup :=
  MkRectGraspGroup (table_of RECT_GRASP_ARRAY_LEN sample_rect_rows).

(** The rectangle of the example: center (0,0), open point (10,0),
    height 4, with any score and object id. *)
Definition example_rect_args (score object_id : pynum) : RectGrasp.args :=
  RectGrasp.Args7 (PInt 0) (PInt 0) (PInt 10) (PInt 0) (PInt 4) score object_id.

(** The point [(x, y)] of integer coordinates, in float32. *)
Definition pt (x y : Z) : RectGrasp.vec := (Float32.of_Z x, Float32.of_Z y).

(** The parts of a grasp row that the conversion reads. *)
Definition row_field (j : nat) (r : list elt) : elt := default fzero (r !! j).
Definition row_translation (r : list elt) : list elt := take 3 (drop 13 r).
Definition row_rotation (r : list elt) : list elt := take 9 (drop 4 r).

(** The rows of a float32 table: every entry is a binary32 value; and
    the rows of a float64 table. *)
Definition float32_rows (rows : list (list elt)) : Prop :=
  Forall (Forall (fun x => is_binary32 x = true)) rows.
Definition float64_rows (rows : list (list elt)) : Prop :=
  Forall (Forall (fun x => is_binary64 x = true)) rows.

(** The float32 nearest to 0.99: 16609444 / 2^24, which is
    0.9900000095367431640625; and the float64 nearest to 0.99, which is
    below 0.99. *)
Definition threshold32 : elt := S754_finite false 16609444 (-24).
Definition threshold64 : elt := S754_finite false 8917127262193582 (-53).

(** The entry [2,0] of the rotation of the row exceeds 0.99, compared in
    float32 as NumPy does on a float32 table: it exceeds the float32
    nearest to 0.99. *)
Definition survives (r : list elt) : bool :=
  fgtb (row_field 10 r) (Float32.cast (Float64.of_ratio 99 100)).

(** The same on a float64 table, where NumPy compares in float64. *)
Definition survives64 (r : list elt) : bool :=
  fgtb (row_field 10 r) (Float64.of_ratio 99 100).

(** The rectangle row of one grasp row, through the two per-grasp
    functions of [utils/utils.py]. *)
Definition rect_row_of (key_points : list elt -> list elt -> elt -> list elt)
  (key_points_2_tuple : list elt -> elt -> Z -> string -> list elt)
  (camera : string) (r : list elt) : list elt :=
  key_points_2_tuple
    (key_points (row_translation r) (row_rotation r) (row_field 1 r))
    (row_field 0 r) (float_to_int32 (row_field 16 r)) camera.

(** Three grasps whose rotation entries [2,0] are 0.999, 0.5 and 0.995,
    and stand-ins for the two per-grasp functions. *)
Definition float32_of_ratio (n d : Z) : elt := Float32.cast (Float64.of_ratio n d).

Definition conversion_rows : list (list elt) :=
  [sample_row (Float32.of_Z 1) (float32_of_ratio 999 1000);
   sample_row (Float32.of_Z 2) (float32_of_ratio 5 10);
   sample_row (Float32.of_Z 3) (float32_of_ratio 995 1000)].

Definition conversion_world : world := world_of [concat conversion_rows].
Definition conversion_group : GraspGroup :=
  MkGraspGroup (table_of GRASP_ARRAY_LEN conversion_rows).

(** One grasp whose rotation entry [2,0] is the float32 nearest to
    0.99. *)
Definition threshold_rows : list (list elt) :=
  [sample_row (Float32.of_Z 1) threshold32].
Definition threshold_world : world := world_of [concat threshold_rows].
Definition threshold_group : GraspGroup :=
  MkGraspGroup (table_of GRASP_ARRAY_LEN threshold_rows).

Definition sample_key_points (t r : list elt) (w : elt) : list elt :=
  replicate 12 w.

Definition sample_key_points_2_tuple (k : list elt) (s : elt) (o : Z) (c : string)
  : list elt :=
  replicate 5 (default fzero (head k)) ++ [s; Float32.of_Z o].

(** The rows of [rows] at the positions [ix], in the order of [ix]. *)
Definition pick (rows : list (list elt)) (ix : list nat) : list (list elt) :=
  (fun k => default [] (rows !! k)) <$> ix.

(** The order in which [sort_by_score] leaves two adjacent scores:
    with [reverse] the second is not before the first in the order of the
    sort, without it the first is not before the second. *)
Definition in_sort_order (reverse : bool) (x y : elt) : Prop :=
  if reverse then np_lt y x = false else np_lt x y = false.

(** ** Vocabulary of the further properties *)

(** [g] holds, in the store [h], one grasp row [r]. *)
Definition is_grasp (h : list (list elt)) (g : Grasp) (r : list elt) : Prop :=
  (nd_base (grasp_array g) < length h)%nat /\
  nd_shape (grasp_array g) = [GRASP_ARRAY_LEN] /\
  nd_data h (grasp_array g) = r /\
  length r = GRASP_ARRAY_LEN.

(** [g] holds, in the store [h], one rectangle row [r]. *)
Definition is_rect_grasp (h : list (list elt)) (g : RectGrasp) (r : list elt) : Prop :=
  (nd_base (rect_grasp_array g) < length h)%nat /\
  nd_shape (rect_grasp_array g) = [RECT_GRASP_ARRAY_LEN] /\
  nd_data h (rect_grasp_array g) = r /\
  length r = RECT_GRASP_ARRAY_LEN.

(** From [w] to [w'] buffers were only added: every buffer of [w] is in
    [w'], at its place and with its content. *)
Definition only_allocates (w w' : world) : Prop :=
  exists h', heap w' = heap w ++ h'.

(** A single grasp holding a row of score 9 in the buffer [1] of a
    store whose buffer [0] is the sample table, and a rectangle likewise. *)
Definition sample_grasp_row : list elt := sample_row (Float32.of_Z 9) fzero.
Definition sample_grasp : Grasp :=
  MkGrasp (NdArray 1%nat [GRASP_ARRAY_LEN] (seq 0 GRASP_ARRAY_LEN)).
Definition sample_world_with_grasp : world :=
  world_of [concat sample_rows; sample_grasp_row].

Definition sample_rect_grasp_row : list elt := sample_rect_row (Float32.of_Z 9).
Definition sample_rect_grasp : RectGrasp :=
  MkRectGrasp (NdArray 1%nat [RECT_GRASP_ARRAY_LEN] (seq 0 RECT_GRASP_ARRAY_LEN)).
Definition sample_rect_world_with_grasp : world :=
  world_of [concat sample_rect_rows; sample_rect_grasp_row].

(** A grasp whose array has three elements. *)
Definition short_grasp : Grasp := MkGrasp (NdArray 1%nat [3%nat] (seq 0 3)).
Definition short_rect_grasp : RectGrasp := MkRectGrasp (NdArray 1%nat [3%nat] (seq 0 3)).

(** [i] is an index of an axis of length [N], counted from the start or,
    when negative, from the end. *)
Definition in_range (N : nat) (i : Z) : Prop :=
  - Z.of_nat N <= i < Z.of_nat N.

(** The position that the index [i] names on an axis of length [N]. *)
Definition position (N : nat) (i : Z) : nat := Z.to_nat (i mod Z.of_nat N).

(** The rows of [rows] whose position is not in [ks], in their order. *)
Definition without (rows : list (list elt)) (ks : list nat) : list (list elt) :=
  pick rows (filter (fun k => k ∉ ks) (seq 0 (length rows))).

(** [m] changes nothing and returns an array of shape [sh] whose
    elements, read in the store of [w], are [d]. *)
Definition reads (m : M ndarray) (w : world) (sh : list nat) (d : list elt) : Prop :=
  returns m w (fun v w' => w' = w /\ nd_shape v = sh /\ nd_data (heap w) v = d).

(** A Python number that [np.array] stores without rounding: any float,
    and an integer of magnitude at most 2^53. *)
Definition stored_exactly (x : pynum) : Prop :=
  match x with
  | PInt z => Z.abs z <= 2 ^ 53
  | PFloat _ => True
  end.

(** The element that a Python number becomes in a float32 array. *)
Definition to_float32 (x : pynum) : elt := Float32.cast (pynum_to_float64 x).






(** * Properties *)

(** ** Lists cut into blocks *)

Lemma fmap_lookup_seq {A} (x : A) (d : list A) :
  (fun i => default x (d !! i)) <$> seq 0 (length d) = d.
Proof.
  apply list_eq; intros i. rewrite list_lookup_fmap.
  destruct (decide (i < length d)%nat) as [Hi|Hi].
  - rewrite lookup_seq_lt by done. simpl.
    destruct (lookup_lt_is_Some_2 d i Hi) as [y ->]. done.
  - rewrite lookup_seq_ge by lia. simpl. symmetry. apply lookup_ge_None. lia.
Qed.

Lemma fmap_concat {A B} (f : A -> B) (ls : list (list A)) :
  f <$> concat ls = concat ((fun l : list A => f <$> l) <$> ls).
Proof.
  induction ls as [|l ls IH]; [done|].
  cbn [concat]. rewrite fmap_app, IH. done.
Qed.

Lemma block_fmap {A B} (f : A -> B) sz k l :
  block sz k (f <$> l) = f <$> block sz k l.
Proof. unfold block. by rewrite fmap_take, fmap_drop. Qed.

Lemma block_concat {A} C (rows : list (list A)) k r :
  Forall (fun r => length r = C) rows ->
  rows !! k = Some r ->
  block C k (concat rows) = r.
Proof.
  intros Hall. revert k. induction Hall as [|r0 rows Hr0 Hall IH]; intros k Hk.
  - done.
  - destruct k as [|k]; simpl in *.
    + injection Hk as <-. unfold block. cbn [concat].
      rewrite Nat.mul_0_l, drop_0. by rewrite take_app_length'.
    + unfold block. cbn [concat]. replace (S k * C)%nat with (length r0 + k * C)%nat by lia.
      rewrite drop_app_add. by apply IH.
Qed.

Lemma length_concat_rows {A} C (rows : list (list A)) :
  Forall (fun r => length r = C) rows ->
  length (concat rows) = (length rows * C)%nat.
Proof.
  intros Hall. induction Hall as [|r rows Hr _ IH]; [done|].
  cbn [concat length]. rewrite length_app. lia.
Qed.

Lemma block_concat_ge {A} C (rows : list (list A)) k :
  Forall (fun r => length r = C) rows ->
  (length rows <= k)%nat ->
  block C k (concat rows) = [].
Proof.
  intros Hall Hk. unfold block. rewrite drop_ge; [by rewrite take_nil|].
  rewrite (length_concat_rows C) by done. nia.
Qed.

Lemma blocks_concat {A} C (rows : list (list A)) :
  Forall (fun r => length r = C) rows ->
  blocks (length rows) C (concat rows) = rows.
Proof.
  intros Hall. apply list_eq; intros k. unfold blocks.
  rewrite list_lookup_fmap.
  destruct (rows !! k) as [r|] eqn:Hk.
  - rewrite lookup_seq_lt by (by eapply lookup_lt_Some). simpl.
    f_equal. by eapply block_concat.
  - rewrite lookup_seq_ge; [done|]. apply lookup_ge_None in Hk. lia.
Qed.

Lemma pick_blocks {A} C (rows : list (list A)) (ks : list nat) :
  Forall (fun r => length r = C) rows ->
  (fun k => block C k (concat rows)) <$> ks = (fun k => default [] (rows !! k)) <$> ks.
Proof.
  intros Hall. apply list_fmap_ext; intros _ k _.
  destruct (rows !! k) as [r|] eqn:Hk; simpl.
  - by eapply block_concat.
  - apply block_concat_ge; [done|]. by apply lookup_ge_None.
Qed.

(** ** Reading the store *)

Lemma buffer_of_app (h h' : list (list elt)) l :
  (l < length h)%nat -> buffer_of (h ++ h') l = buffer_of h l.
Proof. intros Hl. unfold buffer_of. by rewrite lookup_app_l. Qed.

Lemma nd_data_app h h' a :
  (nd_base a < length h)%nat -> nd_data (h ++ h') a = nd_data h a.
Proof. intros Hl. unfold nd_data. by rewrite buffer_of_app. Qed.

Lemma nd_data_fresh h h' s d :
  nd_data (h ++ d :: h') (NdArray (length h) s (seq 0 (length d))) = d.
Proof.
  unfold nd_data, buffer_of. simpl.
  rewrite list_lookup_middle by done. simpl. apply fmap_lookup_seq.
Qed.

Lemma nd_data_store_ne a b vs h :
  nd_base a <> nd_base b -> nd_data (nd_store b vs h) a = nd_data h a.
Proof.
  intros Hne. unfold nd_data, nd_store, buffer_of.
  rewrite list_lookup_alter_ne by done. done.
Qed.


Lemma is_table_app h h' t C rows :
  is_table h t C rows -> is_table (h ++ h') t C rows.
Proof.
  intros (Hb & Hs & Hd & Hall). repeat split; try done.
  - rewrite length_app. lia.
  - by rewrite nd_data_app.
Qed.

Lemma is_table_fresh h h' C rows n d :
  Forall (fun r => length r = C) rows ->
  n = length rows ->
  d = concat rows ->
  is_table (h ++ d :: h') (NdArray (length h) [n; C] (seq 0 (length d))) C rows.
Proof.
  intros Hall -> ->. repeat split; try done.
  - simpl. rewrite length_app. simpl. lia.
  - apply nd_data_fresh.
Qed.

(** ** Running computations *)

Lemma bind_Ok {A B} (m : M A) (k : A -> M B) w a w' :
  m w = (Ok a, w') -> bind m k w = k a w'.
Proof. intros H. unfold bind. by rewrite H. Qed.

Lemma bind_Raise {A B} (m : M A) (k : A -> M B) w e w' :
  m w = (Raise e, w') -> bind m k w = (Raise e, w').
Proof. intros H. unfold bind. by rewrite H. Qed.

Lemma np_zeros_empty C w :
  np_zeros [O; C] w
  = (Ok (NdArray (length (heap w)) [O; C] []), set_heap (heap w ++ [[]]) w).
Proof. done. Qed.

Lemma index_select_fmap {A B} (f : A -> B) shape ix (l : list A) :
  f <$> index_select shape ix l = index_select shape ix (f <$> l).
Proof.
  revert shape l. induction ix as [|i ix IH]; intros shape l; [done|].
  destruct shape as [|n tl]; [done|]. simpl.
  destruct i as [z|s].
  - destruct (norm_index z n); [|done]. by rewrite IH, block_fmap.
  - destruct (slice_range s n) as [ks|]; [|done].
    rewrite fmap_concat. f_equal. rewrite <- list_fmap_compose.
    apply list_fmap_ext; intros _ k _. simpl. by rewrite IH, block_fmap.
Qed.

Lemma nd_getitem_run a ix s w :
  index_shape (nd_shape a) ix = Ok s ->
  nd_getitem a ix w
  = (Ok (NdArray (nd_base a) s (index_select (nd_shape a) ix (nd_index a))), w).
Proof. intros H. unfold nd_getitem. by rewrite H. Qed.

Lemma nd_data_view h b s shape ix idx :
  nd_data h (NdArray b s (index_select shape ix idx))
  = index_select shape ix (nd_data h (NdArray b s idx)).
Proof. unfold nd_data. simpl. apply index_select_fmap. Qed.

(** *** Slices *)

Lemma slice_range_between (a b N : nat) :
  (a <= b <= N)%nat ->
  slice_range (Slice (Some (Z.of_nat a)) (Some (Z.of_nat b)) None) N
  = Some (seq a (b - a)).
Proof.
  intros Hab. unfold slice_range. simpl.
  rewrite !Z.min_l by lia.
  destruct (Z.of_nat a <? 0) eqn:Ha; [lia|].
  destruct (Z.of_nat b <? 0) eqn:Hb; [lia|].
  f_equal.
  assert (Z.to_nat (if Z.of_nat a <? Z.of_nat b
                    then (Z.of_nat b - Z.of_nat a - 1) / 1 + 1 else 0)
          = (b - a)%nat) as ->.
  { destruct (Z.of_nat a <? Z.of_nat b) eqn:Hlt; [rewrite Z.div_1_r|]; lia. }
  replace (seq a (b - a)) with (Nat.add a <$> seq 0 (b - a))
    by (rewrite fmap_add_seq; f_equal; lia).
  apply list_fmap_ext; intros _ k _. lia.
Qed.

Lemma slice_range_upto (n : Z) (N : nat) :
  slice_range (Slice None (Some n) None) N = Some (seq 0 (stop_of n N)).
Proof.
  unfold slice_range, stop_of. simpl. f_equal.
  set (stop := if n <? 0 then Z.max (n + Z.of_nat N) 0 else Z.min n (Z.of_nat N)).
  assert (0 <= stop) by (subst stop; destruct (n <? 0) eqn:Hn; lia).
  assert (Z.to_nat (if 0 <? stop then (stop - 0 - 1) / 1 + 1 else 0)
          = Z.to_nat stop) as ->.
  { destruct (0 <? stop) eqn:Hlt; [rewrite Z.div_1_r|]; lia. }
  etrans; [|exact (fmap_add_seq 0 0 _)].
  apply list_fmap_ext; intros _ k _. lia.
Qed.

Lemma slice_range_2_5 (N : nat) :
  (5 <= N)%nat -> slice_range (Slice (Some 2) (Some 5) None) N = Some [2; 3; 4]%nat.
Proof. intros H. exact (slice_range_between 2 5 N ltac:(lia)). Qed.

Lemma pick_seq {A} (rows : list (list A)) a n :
  (a + n <= length rows)%nat ->
  (fun k => default [] (rows !! k)) <$> seq a n = take n (drop a rows).
Proof.
  intros H. apply list_eq; intros i. rewrite list_lookup_fmap.
  destruct (decide (i < n)%nat) as [Hi|Hi].
  - rewrite lookup_seq_lt by done. rewrite lookup_take_lt by done.
    rewrite lookup_drop. simpl.
    destruct (lookup_lt_is_Some_2 rows (a + i)) as [r ->]; [lia|done].
  - rewrite lookup_seq_ge by lia. rewrite lookup_take_ge by lia. done.
Qed.

Lemma independent_fresh w t' t :
  nd_base t' <> nd_base t -> independent w t' t.
Proof.
  intros Hne vs w' Hrun. unfold nd_assign in Hrun. injection Hrun as <-.
  simpl. by apply nd_data_store_ne.
Qed.

Lemma heap_set_heap h w : heap (set_heap h w) = h.
Proof. done. Qed.

Lemma nd_data_reshape h b s s' idx :
  nd_data h (NdArray b s idx) = nd_data h (NdArray b s' idx).
Proof. done. Qed.

Lemma table_slice_data h t C rows s ks sh :
  is_table h t C rows ->
  slice_range s (length rows) = Some ks ->
  nd_data h (NdArray (nd_base t) sh (index_select (nd_shape t) [ISlice s] (nd_index t)))
  = concat ((fun k => default [] (rows !! k)) <$> ks).
Proof.
  intros (Hb & Hs & Hd & Hall) Hks.
  rewrite nd_data_view.
  replace (nd_data h (NdArray (nd_base t) sh (nd_index t))) with (nd_data h t)
    by (by destruct t).
  rewrite Hd, Hs. cbn [index_select]. rewrite Hks.
  cbn [prod_shape foldr]. rewrite Nat.mul_1_r. f_equal.
  by apply pick_blocks.
Qed.

Lemma Forall_take_drop {A} (P : A -> Prop) n m (l : list A) :
  Forall P l -> Forall P (take n (drop m l)).
Proof. intros H. by apply Forall_take, Forall_drop. Qed.

Ltac solve_getitem_slice C :=
  let Ht := fresh "Ht" in
  let Hn := fresh "Hn" in
  let Hb := fresh "Hb" in
  let Hs := fresh "Hs" in
  let Hd := fresh "Hd" in
  let Hall := fresh "Hall" in
  intros Ht Hn; pose proof Ht as (Hb & Hs & Hd & Hall);
  unfold returns, GraspGroup.__getitem__, GraspGroup.__init__,
    RectGraspGroup.__getitem__, RectGraspGroup.__init__;
  unfold bind, ret; rewrite np_zeros_empty;
  rewrite (nd_getitem_run _ _ [3%nat; C])
    by (rewrite Hs; cbn [index_shape]; by rewrite slice_range_2_5);
  unfold deepcopy, np_alloc; rewrite !heap_set_heap;
  eexists _, _; split; [reflexivity|];
  eexists; split; [reflexivity|];
  cbn [grasp_group_array rect_grasp_group_array nd_shape];
  rewrite !heap_set_heap;
  match type of Ht with
  | is_table _ _ _ ?rows =>
      rewrite (table_slice_data _ _ C rows _ [2;3;4]%nat);
        [|by apply is_table_app|by apply slice_range_2_5]
  end;
  change [2; 3; 4]%nat with (seq 2 3); rewrite pick_seq by lia;
  split; [done|]; split; [|split];
  [ apply (is_table_fresh _ []);
    [by apply Forall_take_drop|rewrite length_take, length_drop; lia|done]
  | by do 2 apply is_table_app
  | apply independent_fresh; cbn [nd_base]; rewrite length_app; simpl; lia ].

Lemma getitem_slice_GraspGroup w g rows :
  is_table (heap w) (grasp_group_array g) GRASP_ARRAY_LEN rows ->
  (5 <= length rows)%nat ->
  returns (GraspGroup.__getitem__ g (VSlice (Slice (Some 2) (Some 5) None))) w
    (fun v w' => exists g', v = VGraspGroup g' /\
       nd_shape (grasp_group_array g') = [3%nat; GRASP_ARRAY_LEN] /\
       is_table (heap w') (grasp_group_array g') GRASP_ARRAY_LEN (take 3 (drop 2 rows)) /\
       is_table (heap w') (grasp_group_array g) GRASP_ARRAY_LEN rows /\
       independent w' (grasp_group_array g') (grasp_group_array g)).
Proof. solve_getitem_slice GRASP_ARRAY_LEN. Qed.

Lemma getitem_slice_RectGraspGroup w g rows :
  is_table (heap w) (rect_grasp_group_array g) RECT_GRASP_ARRAY_LEN rows ->
  (5 <= length rows)%nat ->
  returns (RectGraspGroup.__getitem__ g (VSlice (Slice (Some 2) (Some 5) None))) w
    (fun v w' => exists g', v = VRectGraspGroup g' /\
       nd_shape (rect_grasp_group_array g') = [3%nat; RECT_GRASP_ARRAY_LEN] /\
       is_table (heap w') (rect_grasp_group_array g') RECT_GRASP_ARRAY_LEN
         (take 3 (drop 2 rows)) /\
       is_table (heap w') (rect_grasp_group_array g) RECT_GRASP_ARRAY_LEN rows /\
       independent w' (rect_grasp_group_array g') (rect_grasp_group_array g)).
Proof. solve_getitem_slice RECT_GRASP_ARRAY_LEN. Qed.

(** *** Integer indexing *)

Lemma norm_index_mod (i : Z) (N : nat) :
  - Z.of_nat N <= i < Z.of_nat N ->
  norm_index i N = Some (Z.to_nat (i mod Z.of_nat N)).
Proof.
  intros Hi. unfold norm_index.
  destruct (i <? 0) eqn:Hneg.
  - assert (i mod Z.of_nat N = i + Z.of_nat N) as ->.
    { symmetry. apply (Z.mod_unique _ _ (-1)); lia. }
    replace ((0 <=? i + Z.of_nat N) && (i + Z.of_nat N <? Z.of_nat N)) with true; [done|].
    symmetry. apply andb_true_iff. lia.
  - rewrite Z.mod_small by lia.
    replace ((0 <=? i) && (i <? Z.of_nat N)) with true; [done|].
    symmetry. apply andb_true_iff. lia.
Qed.

Lemma table_row_data h t C rows i k r sh :
  is_table h t C rows ->
  norm_index i (length rows) = Some k ->
  rows !! k = Some r ->
  nd_data h (NdArray (nd_base t) sh (index_select (nd_shape t) [IInt i] (nd_index t)))
  = r.
Proof.
  intros (Hb & Hs & Hd & Hall) Hk Hr.
  rewrite nd_data_view.
  replace (nd_data h (NdArray (nd_base t) sh (nd_index t))) with (nd_data h t)
    by (by destruct t).
  rewrite Hd, Hs. cbn [index_select]. rewrite Hk.
  cbn [prod_shape foldr]. rewrite Nat.mul_1_r. by eapply block_concat.
Qed.

Lemma getitem_int_GraspGroup w g rows i r :
  is_table (heap w) (grasp_group_array g) GRASP_ARRAY_LEN rows ->
  - Z.of_nat (length rows) <= i < Z.of_nat (length rows) ->
  rows !! Z.to_nat (i mod Z.of_nat (length rows)) = Some r ->
  returns (GraspGroup.__getitem__ g (VInt i)) w
    (fun v w' => exists g', v = VGrasp g' /\
       nd_shape (grasp_array g') = [GRASP_ARRAY_LEN] /\
       nd_data (heap w') (grasp_array g') = r /\
       nd_base (grasp_array g') <> nd_base (grasp_group_array g) /\
       is_table (heap w') (grasp_group_array g) GRASP_ARRAY_LEN rows /\
       independent w' (grasp_array g') (grasp_group_array g)).
Proof.
  intros Ht Hi Hr. pose proof Ht as (Hb & Hs & Hd & Hall).
  pose proof (norm_index_mod i _ Hi) as Hk.
  unfold returns, GraspGroup.__getitem__, np_index.
  unfold bind, ret. rewrite (nd_getitem_run _ _ [GRASP_ARRAY_LEN]).
  2:{ rewrite Hs. cbn [index_shape]. by rewrite Hk. }
  cbn [nd_shape GRASP_ARRAY_LEN of_indexed Grasp.__init__].
  unfold bind, ret, deepcopy, np_alloc.
  eexists _, _. split; [reflexivity|].
  eexists. split; [reflexivity|].
  cbn [grasp_array nd_shape]. rewrite !heap_set_heap.
  rewrite (table_row_data _ _ _ _ _ _ _ _ Ht Hk Hr).
  split; [done|]. split; [|split; [|split]].
  - apply (nd_data_fresh _ []).
  - cbn [nd_base]. lia.
  - by apply is_table_app.
  - apply independent_fresh. cbn [nd_base]. lia.
Qed.

(** *** Shuffling *)

Lemma swap_perm {A} i j (l : list A) : swap i j l ≡ₚ l.
Proof.
  unfold swap.
  destruct (l !! i) as [x|] eqn:Hi; [|done].
  destruct (l !! j) as [y|] eqn:Hj; [|done].
  by apply Permutation_insert_swap.
Qed.

Lemma fisher_yates_perm {A} i draw pos (l : list A) :
  fisher_yates i draw pos l ≡ₚ l.
Proof.
  revert pos l. induction i as [|i IH]; intros pos l; [done|].
  cbn [fisher_yates]. rewrite IH. apply swap_perm.
Qed.

Lemma write_at_seq k (vs buf : list elt) :
  (k + length vs <= length buf)%nat ->
  write_at (seq k (length vs)) vs buf
  = take k buf ++ vs ++ drop (k + length vs) buf.
Proof.
  revert k buf. induction vs as [|v vs IH]; intros k buf Hlen.
  - simpl. rewrite Nat.add_0_r. by rewrite take_drop.
  - cbn [length seq write_at]. rewrite IH by (rewrite length_insert; simpl in Hlen; lia).
    simpl in Hlen.
    rewrite take_insert_lt by lia. rewrite drop_insert_lt by lia.
    destruct (lookup_lt_is_Some_2 buf k) as [x Hx]; [lia|].
    rewrite (take_S_r _ _ _ Hx). rewrite insert_app_r_alt by (rewrite length_take; lia).
    rewrite length_take, Nat.min_l, Nat.sub_diag by lia. simpl.
    rewrite <- app_assoc. simpl. by rewrite Nat.add_succ_r.
Qed.

Lemma write_at_all (vs buf : list elt) :
  length vs = length buf ->
  write_at (seq 0 (length buf)) vs buf = vs.
Proof.
  intros Hlen. rewrite <- Hlen. rewrite write_at_seq by lia.
  simpl. rewrite drop_ge by lia. by rewrite app_nil_r.
Qed.

Lemma Forall_length_perm {A} C (l l' : list (list A)) :
  l ≡ₚ l' -> Forall (fun r => length r = C) l' -> Forall (fun r => length r = C) l.
Proof. intros Hp H. by rewrite Hp. Qed.

Lemma nd_store_fresh h d a vs :
  nd_base a = length h ->
  nd_index a = seq 0 (length d) ->
  length vs = length d ->
  nd_store a vs (h ++ [d]) = h ++ [vs].
Proof.
  intros Hb Hi Hlen. unfold nd_store. rewrite Hb, Hi.
  replace (length h) with (length h + 0)%nat at 1 by lia.
  rewrite alter_app_r. simpl. by rewrite write_at_all.
Qed.

Lemma shuffle_fresh h C rows w :
  heap w = h ++ [concat rows] ->
  Forall (fun r => length r = C) rows ->
  exists rows',
    rows' ≡ₚ rows /\
    np_random_shuffle
      (NdArray (length h) [length rows; C] (seq 0 (length (concat rows)))) w
    = (Ok tt,
       World (h ++ [concat rows']) (rng_stream w)
             (rng_pos w + (length rows - 1))%nat (files w)).
Proof.
  intros Hw Hall.
  exists (fisher_yates (length rows - 1) (rng_stream w) (rng_pos w) rows).
  split; [apply fisher_yates_perm|].
  unfold np_random_shuffle. cbn [nd_shape prod_shape foldr].
  rewrite Hw, nd_data_fresh, Nat.mul_1_r, blocks_concat by done.
  rewrite (nd_store_fresh h (concat rows)); [done..|].
  rewrite !(length_concat_rows C); [|done|].
  - by rewrite fisher_yates_perm.
  - eapply Forall_length_perm; [apply fisher_yates_perm|done].
Qed.

Lemma table_slice_data_explicit h b shape idx C rows s ks sh :
  is_table h (NdArray b shape idx) C rows ->
  slice_range s (length rows) = Some ks ->
  nd_data h (NdArray b sh (index_select shape [ISlice s] idx))
  = concat ((fun k => default [] (rows !! k)) <$> ks).
Proof. apply (table_slice_data h (NdArray b shape idx)). Qed.

Lemma stop_of_le n N : (stop_of n N <= N)%nat.
Proof. unfold stop_of. destruct (n <? 0) eqn:Hn; lia. Qed.

Lemma stop_of_nonneg n N : 0 <= n <= Z.of_nat N -> Z.of_nat (stop_of n N) = n.
Proof. intros H. unfold stop_of. destruct (n <? 0) eqn:Hn; lia. Qed.

Ltac solve_random_sample C :=
  let Ht := fresh "Ht" in
  let Hn := fresh "Hn" in
  let Hb := fresh "Hb" in
  let Hs := fresh "Hs" in
  let Hd := fresh "Hd" in
  let Hall := fresh "Hall" in
  let rows' := fresh "rows'" in
  let Hperm := fresh "Hperm" in
  let Hrun := fresh "Hrun" in
  let Hall' := fresh "Hall'" in
  let Hlen' := fresh "Hlen'" in
  let Hs' := fresh "Hs'" in
  intros Ht Hn; pose proof Ht as (Hb & Hs & Hd & Hall);
  unfold returns, GraspGroup.random_sample, GraspGroup.__len__,
    RectGraspGroup.random_sample, RectGraspGroup.__len__, py_len, nd_len;
  rewrite Hs; unfold bind at 1; unfold ret at 1;
  match type of Ht with is_table (heap ?w) _ _ ?rows =>
  match goal with
  | |- context [?n >? Z.of_nat (length rows)] =>
      replace (n >? Z.of_nat (length rows)) with false by (symmetry; lia);
      unfold bind at 1; unfold deepcopy at 1; unfold np_alloc;
      rewrite Hs, Hd;
      destruct (shuffle_fresh (heap w) C rows
                  (set_heap (heap w ++ [concat rows]) w))
        as (rows' & Hperm & Hrun); [done..|];
      unfold bind at 1; rewrite Hrun; clear Hrun;
      unfold GraspGroup.__init__, RectGraspGroup.__init__;
      unfold bind, ret; rewrite np_zeros_empty;
      rewrite (nd_getitem_run _ _ [stop_of n (length rows); C])
        by (cbn [nd_shape index_shape upto]; rewrite slice_range_upto;
            by rewrite length_seq);
      unfold deepcopy, np_alloc;
      eexists _, _; split; [reflexivity|];
      exists (take (stop_of n (length rows)) rows');
      cbn [grasp_group_array rect_grasp_group_array nd_shape];
      rewrite !heap_set_heap; cbn [heap];
      assert (Hall' : Forall (fun r => length r = C) rows')
        by (by eapply Forall_length_perm);
      assert (Hlen' : length rows' = length rows) by (by rewrite Hperm);
      pose proof (stop_of_le n (length rows));
      match goal with
      | |- context [nd_data _ (NdArray (nd_base ?s) _ _)] =>
          assert (Hs' : is_table (heap w ++ [concat rows']) s C rows')
            by (rewrite <- Hlen' at 1;
                replace (length (concat rows)) with (length (concat rows'))
                  by (by rewrite !(length_concat_rows C), Hlen');
                by apply (is_table_fresh _ []))
      end;
      unfold upto;
      rewrite (table_slice_data_explicit _ _ _ _ C rows' _
                 (seq 0 (stop_of n (length rows))));
        [|by apply is_table_app, Hs'|by rewrite Hlen'; apply slice_range_upto];
      rewrite pick_seq by lia; rewrite drop_0;
      split; [|split; [|split; [|split]]];
      [ apply (is_table_fresh _ []);
        [by apply Forall_take|rewrite length_take; lia|done]
      | etrans; [apply submseteq_take|by apply Permutation_submseteq]
      | rewrite length_take; lia
      | repeat split; try done;
        [ rewrite !length_app; lia
        | rewrite <- !app_assoc; by rewrite nd_data_app ]
      | apply independent_fresh; cbn [nd_base]; rewrite !length_app; simpl; lia ]
  end end.

Lemma random_sample_GraspGroup_ok w g rows n :
  is_table (heap w) (grasp_group_array g) GRASP_ARRAY_LEN rows ->
  n <= Z.of_nat (length rows) ->
  returns (GraspGroup.random_sample g n) w
    (fun g' w' => exists rows',
       is_table (heap w') (grasp_group_array g') GRASP_ARRAY_LEN rows' /\
       rows' ⊆+ rows /\
       length rows' = stop_of n (length rows) /\
       is_table (heap w') (grasp_group_array g) GRASP_ARRAY_LEN rows /\
       independent w' (grasp_group_array g') (grasp_group_array g)).
Proof. solve_random_sample GRASP_ARRAY_LEN. Qed.

Lemma random_sample_RectGraspGroup_ok w g rows n :
  is_table (heap w) (rect_grasp_group_array g) RECT_GRASP_ARRAY_LEN rows ->
  n <= Z.of_nat (length rows) ->
  returns (RectGraspGroup.random_sample g n) w
    (fun g' w' => exists rows',
       is_table (heap w') (rect_grasp_group_array g') RECT_GRASP_ARRAY_LEN rows' /\
       rows' ⊆+ rows /\
       length rows' = stop_of n (length rows) /\
       is_table (heap w') (rect_grasp_group_array g) RECT_GRASP_ARRAY_LEN rows /\
       independent w' (rect_grasp_group_array g') (rect_grasp_group_array g)).
Proof. solve_random_sample RECT_GRASP_ARRAY_LEN. Qed.

Lemma is_table_table_of C rows h' :
  Forall (fun r => length r = C) rows ->
  is_table (concat rows :: h') (table_of C rows) C rows.
Proof. intros Hall. by apply (is_table_fresh [] h'). Qed.

Lemma sample_group_table :
  is_table (heap sample_world) (grasp_group_array sample_group)
    GRASP_ARRAY_LEN sample_rows.
Proof. apply is_table_table_of. by repeat constructor. Defined.

Lemma random_sample_GraspGroup_raises w g rows n :
  is_table (heap w) (grasp_group_array g) GRASP_ARRAY_LEN rows ->
  Z.of_nat (length rows) < n ->
  GraspGroup.random_sample g n w = (Raise ValueError, w).
Proof.
  intros (Hb & Hs & Hd & Hall) Hn.
  unfold GraspGroup.random_sample, GraspGroup.__len__, py_len, nd_len.
  rewrite Hs. unfold bind, ret.
  by replace (n >? Z.of_nat (length rows)) with true by (symmetry; lia).
Qed.

Lemma random_sample_RectGraspGroup_raises w g rows n :
  is_table (heap w) (rect_grasp_group_array g) RECT_GRASP_ARRAY_LEN rows ->
  Z.of_nat (length rows) < n ->
  RectGraspGroup.random_sample g n w = (Raise ValueError, w).
Proof.
  intros (Hb & Hs & Hd & Hall) Hn.
  unfold RectGraspGroup.random_sample, RectGraspGroup.__len__, py_len, nd_len.
  rewrite Hs. unfold bind, ret.
  by replace (n >? Z.of_nat (length rows)) with true by (symmetry; lia).
Qed.

Lemma returns_impl {A} (m : M A) w (P Q : A -> world -> Prop) :
  (forall a w', P a w' -> Q a w') -> returns m w P -> returns m w Q.
Proof. intros HPQ (a & w' & Hrun & HP). exists a, w'. auto. Qed.

(** C4 (amended).  [random_sample(n)] with [n] above the number of rows
    raises [ValueError] and leaves the whole store as it was.  With
    [n] at most the number of rows it returns a new group whose rows are
    a sub-multiset of the rows of the group, the group itself keeps its
    rows in their order, and assignments through the new table do not reach
    it; when moreover [0 <= n] the new group has exactly [n] rows.  The
    same holds for [RectGraspGroup]. *)
Theorem random_sample_contract :
  (forall w g rows n,
      is_table (heap w) (grasp_group_array g) GRASP_ARRAY_LEN rows ->
      (Z.of_nat (length rows) < n ->
       GraspGroup.random_sample g n w = (Raise ValueError, w)) /\
      (n <= Z.of_nat (length rows) ->
       returns (GraspGroup.random_sample g n) w
         (fun g' w' => exists rows',
            is_table (heap w') (grasp_group_array g') GRASP_ARRAY_LEN rows' /\
            rows' ⊆+ rows /\
            (0 <= n -> Z.of_nat (length rows') = n) /\
            is_table (heap w') (grasp_group_array g) GRASP_ARRAY_LEN rows /\
            independent w' (grasp_group_array g') (grasp_group_array g)))) /\
  (forall w g rows n,
      is_table (heap w) (rect_grasp_group_array g) RECT_GRASP_ARRAY_LEN rows ->
      (Z.of_nat (length rows) < n ->
       RectGraspGroup.random_sample g n w = (Raise ValueError, w)) /\
      (n <= Z.of_nat (length rows) ->
       returns (RectGraspGroup.random_sample g n) w
         (fun g' w' => exists rows',
            is_table (heap w') (rect_grasp_group_array g') RECT_GRASP_ARRAY_LEN rows' /\
            rows' ⊆+ rows /\
            (0 <= n -> Z.of_nat (length rows') = n) /\
            is_table (heap w') (rect_grasp_group_array g) RECT_GRASP_ARRAY_LEN rows /\
            independent w' (rect_grasp_group_array g') (rect_grasp_group_array g)))).
Proof.
  split; intros w g rows n Ht; (split; [intros Hn|intros Hn]).
  - by eapply random_sample_GraspGroup_raises.
  - eapply returns_impl; [|by apply random_sample_GraspGroup_ok].
    intros g' w' (rows' & H1 & H2 & H3 & H4 & H5). exists rows'.
    split; [done|]. split; [done|]. split; [|done].
    intros H0. rewrite H3. apply stop_of_nonneg. lia.
  - by eapply random_sample_RectGraspGroup_raises.
  - eapply returns_impl; [|by apply random_sample_RectGraspGroup_ok].
    intros g' w' (rows' & H1 & H2 & H3 & H4 & H5). exists rows'.
    split; [done|]. split; [done|]. split; [|done].
    intros H0. rewrite H3. apply stop_of_nonneg. lia.
Qed.

Lemma random_sample_contract_witness :
  is_table (heap sample_world) (grasp_group_array sample_group)
    GRASP_ARRAY_LEN sample_rows /\
  3 <= Z.of_nat (length sample_rows) /\
  returns (GraspGroup.random_sample sample_group 3) sample_world
    (fun g' w' => exists rows',
       is_table (heap w') (grasp_group_array g') GRASP_ARRAY_LEN rows' /\
       rows' ⊆+ sample_rows /\
       (0 <= 3 -> Z.of_nat (length rows') = 3) /\
       is_table (heap w') (grasp_group_array sample_group) GRASP_ARRAY_LEN sample_rows /\
       independent w' (grasp_group_array g') (grasp_group_array sample_group)).
Proof.
  split; [exact sample_group_table|].
  split; [vm_compute; discriminate|].
  apply (proj2 (proj1 random_sample_contract sample_world sample_group
                  sample_rows 3 sample_group_table)).
  vm_compute; discriminate.
Defined.

(** C4, as stated, fails for a negative count: [random_sample(-1)] on a
    group of five rows returns four rows. *)
Lemma random_sample_negative_count :
  -1 <= Z.of_nat (length sample_rows) /\
  exists g' w',
    GraspGroup.random_sample sample_group (-1) sample_world = (Ok g', w') /\
    nd_len (grasp_group_array g') = Some 4%nat /\
    length (nd_rows (heap w') (grasp_group_array g')) = 4%nat.
Proof.
  split; [vm_compute; discriminate|].
  eexists _, _. split; [vm_compute; reflexivity|]. split; reflexivity.
Qed.

(** C6.  On a group of at least five rows, [g[2:5]] returns a group of
    three rows, the rows 2, 3 and 4 of [g] in this order, held in a buffer
    of its own: the rows of [g] are as before, and no assignment through the
    table of the new group changes an element of [g].  The same holds for
    [RectGraspGroup]. *)
Theorem getitem_slice_deep_copy :
  (forall w g rows,
      is_table (heap w) (grasp_group_array g) GRASP_ARRAY_LEN rows ->
      (5 <= length rows)%nat ->
      returns (GraspGroup.__getitem__ g (VSlice (Slice (Some 2) (Some 5) None))) w
        (fun v w' => exists g', v = VGraspGroup g' /\
           nd_shape (grasp_group_array g') = [3%nat; GRASP_ARRAY_LEN] /\
           is_table (heap w') (grasp_group_array g') GRASP_ARRAY_LEN
             (take 3 (drop 2 rows)) /\
           is_table (heap w') (grasp_group_array g) GRASP_ARRAY_LEN rows /\
           independent w' (grasp_group_array g') (grasp_group_array g))) /\
  (forall w g rows,
      is_table (heap w) (rect_grasp_group_array g) RECT_GRASP_ARRAY_LEN rows ->
      (5 <= length rows)%nat ->
      returns (RectGraspGroup.__getitem__ g (VSlice (Slice (Some 2) (Some 5) None))) w
        (fun v w' => exists g', v = VRectGraspGroup g' /\
           nd_shape (rect_grasp_group_array g') = [3%nat; RECT_GRASP_ARRAY_LEN] /\
           is_table (heap w') (rect_grasp_group_array g') RECT_GRASP_ARRAY_LEN
             (take 3 (drop 2 rows)) /\
           is_table (heap w') (rect_grasp_group_array g) RECT_GRASP_ARRAY_LEN rows /\
           independent w' (rect_grasp_group_array g') (rect_grasp_group_array g))).
Proof.
  split; intros w g rows Ht Hn.
  - by apply getitem_slice_GraspGroup.
  - by apply getitem_slice_RectGraspGroup.
Qed.

Lemma getitem_slice_deep_copy_witness :
  is_table (heap sample_world) (grasp_group_array sample_group)
    GRASP_ARRAY_LEN sample_rows /\
  (5 <= length sample_rows)%nat /\
  returns (GraspGroup.__getitem__ sample_group
             (VSlice (Slice (Some 2) (Some 5) None))) sample_world
    (fun v w' => exists g', v = VGraspGroup g' /\
       nd_shape (grasp_group_array g') = [3%nat; GRASP_ARRAY_LEN] /\
       is_table (heap w') (grasp_group_array g') GRASP_ARRAY_LEN
         (take 3 (drop 2 sample_rows)) /\
       is_table (heap w') (grasp_group_array sample_group) GRASP_ARRAY_LEN
         sample_rows /\
       independent w' (grasp_group_array g') (grasp_group_array sample_group)).
Proof.
  split; [exact sample_group_table|].
  split; [vm_compute; lia|].
  apply (proj1 getitem_slice_deep_copy sample_world sample_group sample_rows
           sample_group_table).
  vm_compute; lia.
Defined.

(** C10.  For an index [i] in range, counted from the end when negative,
    [g[i]] returns a [Grasp] whose array has the 17 elements of row [i] of
    the table and lives in a buffer of its own: the table is as before, and
    no assignment through the array of the [Grasp] changes an element of
    the table. *)
Theorem getitem_int_independent_copy :
  forall w g rows i r,
    is_table (heap w) (grasp_group_array g) GRASP_ARRAY_LEN rows ->
    - Z.of_nat (length rows) <= i < Z.of_nat (length rows) ->
    rows !! Z.to_nat (i mod Z.of_nat (length rows)) = Some r ->
    returns (GraspGroup.__getitem__ g (VInt i)) w
      (fun v w' => exists g', v = VGrasp g' /\
         nd_shape (grasp_array g') = [GRASP_ARRAY_LEN] /\
         nd_data (heap w') (grasp_array g') = r /\
         nd_base (grasp_array g') <> nd_base (grasp_group_array g) /\
         is_table (heap w') (grasp_group_array g) GRASP_ARRAY_LEN rows /\
         independent w' (grasp_array g') (grasp_group_array g)).
Proof.
  intros w g rows i r Ht Hi Hr.
  eapply returns_impl; [|by eapply getitem_int_GraspGroup].
  intros v w' (g' & -> & H1 & H2 & H3 & H4 & H5). exists g'. done.
Qed.

Lemma getitem_int_independent_copy_witness :
  is_table (heap sample_world) (grasp_group_array sample_group)
    GRASP_ARRAY_LEN sample_rows /\
  - Z.of_nat (length sample_rows) <= -2 < Z.of_nat (length sample_rows) /\
  sample_rows !! Z.to_nat (-2 mod Z.of_nat (length sample_rows))
  = Some (sample_row (Float32.of_Z 5) fzero) /\
  returns (GraspGroup.__getitem__ sample_group (VInt (-2))) sample_world
    (fun v w' => exists g', v = VGrasp g' /\
       nd_shape (grasp_array g') = [GRASP_ARRAY_LEN] /\
       nd_data (heap w') (grasp_array g') = sample_row (Float32.of_Z 5) fzero /\
       nd_base (grasp_array g') <> nd_base (grasp_group_array sample_group) /\
       is_table (heap w') (grasp_group_array sample_group) GRASP_ARRAY_LEN
         sample_rows /\
       independent w' (grasp_array g') (grasp_group_array sample_group)).
Proof.
  split; [exact sample_group_table|].
  split; [vm_compute; split; [discriminate|reflexivity]|].
  split; [vm_compute; reflexivity|].
  apply (getitem_int_independent_copy sample_world sample_group sample_rows (-2)
           (sample_row (Float32.of_Z 5) fzero) sample_group_table).
  - vm_compute; split; [discriminate|reflexivity].
  - vm_compute; reflexivity.
Defined.

(** *** Files *)

Lemma np_save_load path a w :
  returns (run np_save path a in np_load (npy_name path)) w
    (fun a' w' =>
       nd_shape a' = nd_shape a /\
       nd_data (heap w') a' = nd_data (heap w) a /\
       nd_base a' = length (heap w)).
Proof.
  unfold returns, bind, np_save, np_load. cbn [files].
  rewrite lookup_insert_eq. unfold np_alloc. cbn [npy_shape npy_data heap].
  eexists _, _. split; [reflexivity|].
  cbn [nd_shape nd_base]. rewrite heap_set_heap.
  split; [done|]. split; [|done]. apply (nd_data_fresh _ []).
Qed.

(** C9.  Saving the table of a group and loading the file that was
    written gives a table of the same shape with the same elements, for
    [GraspGroup] and for [RectGraspGroup]; [self], the group that loads,
    is any group.  The file written is [npy_name path]: [np.save] adds
    the suffix [.npy] to a name that lacks it. *)
Theorem save_load_roundtrip :
  (forall w g self path,
      returns (run GraspGroup.save_npy g path in
               GraspGroup.from_npy self (npy_name path)) w
        (fun g' w' =>
           nd_shape (grasp_group_array g') = nd_shape (grasp_group_array g) /\
           nd_data (heap w') (grasp_group_array g')
           = nd_data (heap w) (grasp_group_array g))) /\
  (forall w g self path,
      returns (run RectGraspGroup.save_npy g path in
               RectGraspGroup.from_npy self (npy_name path)) w
        (fun g' w' =>
           nd_shape (rect_grasp_group_array g') = nd_shape (rect_grasp_group_array g) /\
           nd_data (heap w') (rect_grasp_group_array g')
           = nd_data (heap w) (rect_grasp_group_array g))).
Proof.
  split; intros w g self path.
  - destruct (np_save_load path (grasp_group_array g) w)
      as (a' & w' & Hrun & Hs & Hd & _).
    unfold returns, GraspGroup.save_npy, GraspGroup.from_npy.
    unfold bind in *. destruct (np_save path (grasp_group_array g) w) as [[[]|e] w1];
      [|discriminate].
    rewrite Hrun. by eexists _, _.
  - destruct (np_save_load path (rect_grasp_group_array g) w)
      as (a' & w' & Hrun & Hs & Hd & _).
    unfold returns, RectGraspGroup.save_npy, RectGraspGroup.from_npy.
    unfold bind in *.
    destruct (np_save path (rect_grasp_group_array g) w) as [[[]|e] w1];
      [|discriminate].
    rewrite Hrun. by eexists _, _.
Qed.

Lemma string_length_app (s t : string) :
  String.length (s +:+ t) = (String.length s + String.length t)%nat.
Proof. induction s as [|c s IH]; simpl; [done|]. by rewrite IH. Qed.

(** A name that ends in [.npy] is the name of the file written. *)
Lemma npy_name_suffix path : ends_with ".npy" path = true -> npy_name path = path.
Proof. intros H. unfold npy_name. by rewrite H. Qed.

(** Saving under a name without the suffix and loading that very name
    finds no file, unless one was there before. *)
Lemma save_load_without_suffix w g self path :
  ends_with ".npy" path = false ->
  files w !! path = None ->
  fst ((run GraspGroup.save_npy g path in GraspGroup.from_npy self path) w)
  = Raise FileNotFoundError.
Proof.
  intros Hsuf Hfile.
  unfold GraspGroup.save_npy, GraspGroup.from_npy, bind, np_save, np_load.
  cbn [files]. unfold npy_name. rewrite Hsuf.
  rewrite lookup_insert_ne; [by rewrite Hfile|].
  intros Heq. apply (f_equal String.length) in Heq.
  rewrite string_length_app in Heq. simpl in Heq. lia.
Qed.

(** *** Constructors *)

(** C2 (the code fails).  Given a list, of [Grasp] instances or of
    anything else, the constructor of [GraspGroup] raises
    [AttributeError]: its loop runs over the tuple of arguments, whose
    only element is the list.  The constructor of [RectGraspGroup] does the
    same. *)
Theorem init_from_list_raises :
  forall w (l : list pyval),
    fst (GraspGroup.__init__ [VList l] w) = Raise AttributeError /\
    fst (RectGraspGroup.__init__ [VList l] w) = Raise AttributeError.
Proof. intros w l. split; reflexivity. Qed.

(** C7 (the code fails).  Whatever the seven fields are, the constructor
    of [Grasp] raises [ValueError]: [np.array((object_id))] has dimension
    zero and [np.concatenate] refuses it, so no array is built and no
    accessor can be read. *)
Theorem init_from_fields_raises :
  forall w score width height depth rotation_matrix translation object_id,
    fst (Grasp.__init__
           (Grasp.Args7 score width height depth rotation_matrix translation
              object_id) w)
    = Raise ValueError.
Proof.
  intros. unfold Grasp.__init__, bind, np_array_tuple, np_array_scalar, np_alloc.
  unfold np_reshape. destruct (infer_shape _ _); [|done].
  unfold ret, np_concatenate. cbn [nd_shape forallb same_tail].
  rewrite bool_decide_eq_true_2 by done.
  by rewrite !andb_false_r.
Qed.

(** *** The conversions that are not implemented *)

(** C3 (amended).  [to_grasp] and [to_grasp_group] have an empty body:
    on every invocation they return [None], raise nothing and leave the
    store as it is. *)
Theorem back_projection_returns_none :
  forall w camera_intrinsics depths depth_method,
    (forall self, RectGrasp.to_grasp self camera_intrinsics depths depth_method w
                  = (Ok VNone, w)) /\
    (forall self, RectGraspGroup.to_grasp_group self camera_intrinsics depths
                    depth_method w
                  = (Ok VNone, w)).
Proof. intros. split; reflexivity. Qed.

(** C3, as stated, fails: on a sample rectangle group neither conversion
    raises the not-implemented condition; both return [None]. *)
Lemma back_projection_does_not_raise :
  fst (RectGraspGroup.to_grasp_group sample_rect_group VNone VNone VNone
         sample_rect_world) <> Raise NotImplementedError /\
  fst (RectGrasp.to_grasp
         (MkRectGrasp (table_of RECT_GRASP_ARRAY_LEN sample_rect_rows))
         VNone VNone VNone sample_rect_world) <> Raise NotImplementedError /\
  fst (RectGraspGroup.to_grasp_group sample_rect_group VNone VNone VNone
         sample_rect_world) = Ok VNone.
Proof. repeat split; discriminate. Qed.

(** *** The rectangle that is drawn *)

Lemma example_corners :
  RectGrasp.corners (Float32.of_Z 0) (Float32.of_Z 0) (Float32.of_Z 10)
    (Float32.of_Z 0) (Float32.of_Z 4)
  = (pt 10 2, pt (-10) 2, pt (-10) (-2), pt 10 (-2)).
Proof. vm_compute. reflexivity. Qed.

Lemma example_rect_init score object_id w :
  returns (RectGrasp.__init__ (example_rect_args score object_id)) w
    (fun g w' =>
       nd_shape (rect_grasp_array g) = [7%nat] /\
       nd_data (heap w') (rect_grasp_array g)
       = [Float32.of_Z 0; Float32.of_Z 0; Float32.of_Z 10; Float32.of_Z 0;
          Float32.of_Z 4; Float32.cast (pynum_to_float64 score);
          Float32.cast (pynum_to_float64 object_id)]).
Proof.
  unfold returns, example_rect_args, RectGrasp.__init__.
  unfold bind, ret, np_array_tuple, np_astype_float32, np_alloc.
  rewrite !heap_set_heap.
  eexists _, _. split; [reflexivity|].
  cbn [rect_grasp_array nd_shape]. rewrite !heap_set_heap.
  split; [done|].
  rewrite length_fmap. rewrite (nd_data_fresh _ []).
  rewrite (nd_data_fresh _ []). reflexivity.
Qed.

(** C8.  For a [RectGrasp] built with center (0,0), open point (10,0) and
    height 4, and any score and object id, the corners computed by
    [to_opencv_image] are [p1 = (10,2)], [p2 = (-10,2)], [p3 = (-10,-2)]
    and [p4 = (10,-2)]: the four points (10,2), (10,-2), (-10,-2), (-10,2)
    of the claim, each once.  The four strokes drawn join them in the
    order [p1 p2 p3 p4 p1]. *)
Theorem rectangle_corners_example :
  (let '(p1, p2, p3, p4) :=
     RectGrasp.corners (Float32.of_Z 0) (Float32.of_Z 0) (Float32.of_Z 10)
       (Float32.of_Z 0) (Float32.of_Z 4) in
   [p1; p2; p3; p4] ≡ₚ [pt 10 2; pt 10 (-2); pt (-10) (-2); pt (-10) 2] /\
   [p1; p2; p3; p4] = [pt 10 2; pt (-10) 2; pt (-10) (-2); pt 10 (-2)]) /\
  (forall w score object_id img,
      returns (let* g := RectGrasp.__init__ (example_rect_args score object_id) in
               RectGrasp.to_opencv_image g img) w
        (fun img' _ =>
           img' = img ++ [Stroke (10, 2) (-10, 2) (0, 0, 255) 1 8;
                          Stroke (-10, 2) (-10, -2) (255, 0, 0) 3 8;
                          Stroke (-10, -2) (10, -2) (0, 0, 255) 1 8;
                          Stroke (10, -2) (10, 2) (255, 0, 0) 3 8])).
Proof.
  split.
  - rewrite example_corners. split; [|done].
    (* exchange the second and the fourth point *)
    apply perm_skip. etrans; [apply perm_swap|]. etrans; [|apply perm_swap].
    apply perm_skip. apply perm_swap.
  - intros w score object_id img.
    destruct (example_rect_init score object_id w) as (g & w' & Hrun & Hs & Hd).
    unfold returns. rewrite (bind_Ok _ _ _ _ _ Hrun).
    unfold RectGrasp.to_opencv_image, RectGrasp.unpack7.
    unfold bind at 1. rewrite Hs, Hd. rewrite example_corners.
    eexists _, _. split; [reflexivity|].
    by rewrite <- !app_assoc.
Qed.

(** *** Masks and columns *)

Lemma filter_ext_in {A} (P Q : A -> Prop) `{!forall x, Decision (P x)}
  `{!forall x, Decision (Q x)} (l : list A) :
  (forall x, x ∈ l -> (P x <-> Q x)) -> filter P l = filter Q l.
Proof.
  induction l as [|x l IH]; intros Hext; [done|].
  rewrite !filter_cons. rewrite IH by (intros y Hy; apply Hext; by right).
  destruct (decide (P x)) as [HP|HP], (decide (Q x)) as [HQ|HQ]; try done.
  - destruct HQ. apply Hext; [by left|done].
  - destruct HP. apply Hext; [by left|done].
Qed.

Lemma mask_positions_snoc mask b :
  mask_positions (mask ++ [b])
  = mask_positions mask ++ (if b then [length mask] else []).
Proof.
  unfold mask_positions. rewrite length_app. simpl.
  rewrite Nat.add_1_r, seq_S, filter_app. simpl. f_equal.
  - apply filter_ext_in. intros k Hk. apply elem_of_seq in Hk.
    by rewrite lookup_app_l by lia.
  - rewrite filter_cons, filter_nil.
    rewrite list_lookup_middle by done.
    destruct b; by case_decide.
Qed.

Lemma mask_positions_lt mask :
  Forall (fun k => (k < length mask)%nat) (mask_positions mask).
Proof.
  apply Forall_forall. intros k Hk. unfold mask_positions in Hk.
  apply list_elem_of_filter in Hk as [_ Hk]. apply elem_of_seq in Hk. lia.
Qed.

Lemma pick_mask {A B} (d : B) (f : A -> B) (p : A -> bool) (rows : list A) :
  (fun k => default d ((f <$> rows) !! k)) <$> mask_positions (p <$> rows)
  = f <$> filter (fun r => p r = true) rows.
Proof.
  induction rows as [|r rows IH] using rev_ind; [done|].
  rewrite !fmap_app. simpl. rewrite mask_positions_snoc, fmap_app, filter_app, fmap_app.
  f_equal.
  - rewrite <- IH. apply Forall_fmap_ext.
    eapply Forall_impl; [apply mask_positions_lt|].
    intros k Hk. simpl. rewrite lookup_app_l; [done|].
    rewrite length_fmap in Hk. by rewrite length_fmap.
  - rewrite filter_cons, filter_nil. rewrite !length_fmap.
    destruct (p r) eqn:Hp; case_decide; try done. simpl.
    rewrite list_lookup_middle by (by rewrite length_fmap). done.
Qed.

Lemma concat_singletons {A B} (f : A -> B) (l : list A) :
  concat ((fun x => [f x]) <$> l) = f <$> l.
Proof. induction l as [|x l IH]; [done|]. cbn. by f_equal. Qed.

Lemma slice_range_full N : slice_range (Slice None None None) N = Some (seq 0 N).
Proof.
  unfold slice_range. simpl. f_equal.
  assert (Z.to_nat (if 0 <? Z.of_nat N then (Z.of_nat N - 0 - 1) / 1 + 1 else 0)
          = N) as ->.
  { destruct (0 <? Z.of_nat N) eqn:Hlt; [rewrite Z.div_1_r|]; lia. }
  etrans; [|exact (fmap_add_seq 0 0 _)].
  apply list_fmap_ext; intros _ k _. lia.
Qed.

Lemma index_select_full {A} N tl ix (rows : list (list A)) :
  length rows = N ->
  Forall (fun r => length r = prod_shape tl) rows ->
  index_select (N :: tl) (full :: ix) (concat rows)
  = concat (index_select tl ix <$> rows).
Proof.
  intros <- Hall. unfold full. cbn [index_select]. rewrite slice_range_full.
  f_equal.
  rewrite (list_fmap_compose (fun k => block (prod_shape tl) k (concat rows))
             (index_select tl ix)).
  f_equal. by apply blocks_concat.
Qed.

Lemma index_shape_full N tl ix s :
  index_shape tl ix = Ok s ->
  index_shape (N :: tl) (full :: ix) = Ok (N :: s).
Proof.
  intros H. unfold full. cbn [index_shape]. rewrite slice_range_full, H.
  by rewrite length_seq.
Qed.

(** A row of 17 entries, entry by entry. *)
Lemma row17 (r : list elt) :
  length r = 17%nat ->
  exists x0 x1 x2 x3 x4 x5 x6 x7 x8 x9 x10 x11 x12 x13 x14 x15 x16,
    r = [x0; x1; x2; x3; x4; x5; x6; x7; x8; x9; x10; x11; x12; x13; x14; x15; x16].
Proof.
  intros H.
  do 17 (destruct r as [|? r]; [discriminate|]).
  destruct r; [|discriminate]. by repeat eexists.
Qed.

Lemma select_field j (r : list elt) :
  length r = 17%nat -> (j < 17)%nat ->
  index_select [17%nat] [IInt (Z.of_nat j)] r = [row_field j r].
Proof.
  intros Hr Hj. destruct (row17 r Hr) as (x0&x1&x2&x3&x4&x5&x6&x7&x8&x9&x10&x11&x12&x13&x14&x15&x16&->).
  do 17 (destruct j as [|j]; [reflexivity|]). lia.
Qed.

Lemma select_translation (r : list elt) :
  length r = 17%nat ->
  index_select [17%nat] [range 13 16] r = row_translation r.
Proof.
  intros Hr. destruct (row17 r Hr) as (x0&x1&x2&x3&x4&x5&x6&x7&x8&x9&x10&x11&x12&x13&x14&x15&x16&->).
  reflexivity.
Qed.

Lemma select_rotation (r : list elt) :
  length r = 17%nat ->
  index_select [17%nat] [range 4 13] r = row_rotation r.
Proof.
  intros Hr. destruct (row17 r Hr) as (x0&x1&x2&x3&x4&x5&x6&x7&x8&x9&x10&x11&x12&x13&x14&x15&x16&->).
  reflexivity.
Qed.

Lemma select_rotation_2_0 (r : list elt) :
  length r = 17%nat ->
  index_select [3%nat; 3%nat] [IInt 2; IInt 0] (row_rotation r) = [row_field 10 r].
Proof.
  intros Hr. destruct (row17 r Hr) as (x0&x1&x2&x3&x4&x5&x6&x7&x8&x9&x10&x11&x12&x13&x14&x15&x16&->).
  reflexivity.
Qed.

Lemma set_heap_set_heap h h' w : set_heap h (set_heap h' w) = set_heap h w.
Proof. done. Qed.

Lemma view_full_data h h' t rows ix (g : list elt -> list elt) sh :
  is_table h t 17 rows ->
  (forall r, length r = 17%nat -> index_select [17%nat] ix r = g r) ->
  nd_data (h ++ h')
    (NdArray (nd_base t) sh (index_select (nd_shape t) (full :: ix) (nd_index t)))
  = concat (g <$> rows).
Proof.
  intros (Hb & Hs & Hd & Hall) Hg.
  rewrite nd_data_app by done. rewrite nd_data_view.
  replace (nd_data h (NdArray (nd_base t) sh (nd_index t))) with (nd_data h t)
    by (by destruct t).
  rewrite Hd, Hs. rewrite index_select_full; [|done|].
  - f_equal. apply Forall_fmap_ext. eapply Forall_impl; [exact Hall|].
    intros r Hr. by apply Hg.
  - eapply Forall_impl; [exact Hall|]. intros r Hr. simpl. rewrite Hr. done.
Qed.

Lemma length_mask_positions {A} (p : A -> bool) (rows : list A) :
  length (mask_positions (p <$> rows)) = length (filter (fun r => p r = true) rows).
Proof.
  pose proof (pick_mask tt (fun _ => tt) p rows) as H.
  apply (f_equal length) in H. by rewrite !length_fmap in H.
Qed.

Lemma np_compress_run v (rows : list (list elt)) (g : list elt -> list elt)
  (p : list elt -> bool) tl w :
  nd_shape v = length rows :: tl ->
  nd_data (heap w) v = concat (g <$> rows) ->
  Forall (fun r => length (g r) = prod_shape tl) rows ->
  np_compress v (p <$> rows) w
  = (Ok (NdArray (length (heap w))
           (length (filter (fun r => p r = true) rows) :: tl)
           (seq 0 (length (concat (g <$> filter (fun r => p r = true) rows))))),
     set_heap (heap w ++ [concat (g <$> filter (fun r => p r = true) rows)]) w).
Proof.
  intros Hs Hd Hall. unfold np_compress. rewrite Hs.
  rewrite length_fmap, Nat.eqb_refl. unfold np_take. rewrite Hs.
  replace (forallb _ _) with true.
  2:{ symmetry. apply forallb_forall. intros k Hk.
      apply list_elem_of_In in Hk.
      pose proof (mask_positions_lt (p <$> rows)) as Hlt.
      rewrite Forall_forall in Hlt. apply Hlt in Hk.
      rewrite length_fmap in Hk. by apply Nat.ltb_lt. }
  unfold np_alloc. rewrite Hd, length_mask_positions.
  rewrite (pick_blocks (prod_shape tl)) by (by apply Forall_fmap).
  by rewrite pick_mask.
Qed.

Lemma infer_shape_rotations N :
  infer_shape (N * (9 * 1)) [-1; 3; 3] = Some [N; 3; 3]%nat.
Proof.
  unfold infer_shape. cbn -[Nat.modulo Nat.div Nat.mul].
  change (3 * (3 * 1))%nat with 9%nat. change (9 * 1)%nat with 9%nat.
  by rewrite Nat.Div0.mod_mul, Nat.div_mul.
Qed.

Lemma infer_shape_points L :
  infer_shape (L * (4 * (3 * 1))) [-1; 3] = Some [L * 4; 3]%nat.
Proof.
  unfold infer_shape. cbn -[Nat.modulo Nat.div Nat.mul].
  change (3 * 1)%nat with 3%nat.
  replace (L * (4 * 3))%nat with (L * 4 * 3)%nat by lia.
  by rewrite Nat.Div0.mod_mul, Nat.div_mul.
Qed.

Lemma infer_shape_key_points L :
  infer_shape (L * 4 * (3 * 1)) [-1; 4; 3] = Some [L; 4; 3]%nat.
Proof.
  unfold infer_shape. cbn -[Nat.modulo Nat.div Nat.mul].
  change (4 * (3 * 1))%nat with 12%nat.
  replace (L * 4 * (3 * 1))%nat with (L * 12)%nat by lia.
  by rewrite Nat.Div0.mod_mul, Nat.div_mul.
Qed.

Lemma view_full_data_at h2 h t rows ix (g : list elt -> list elt) sh :
  is_table h t 17 rows ->
  (forall r, length r = 17%nat -> index_select [17%nat] ix r = g r) ->
  (exists h', h2 = h ++ h') ->
  nd_data h2
    (NdArray (nd_base t) sh (index_select (nd_shape t) (full :: ix) (nd_index t)))
  = concat (g <$> rows).
Proof. intros Ht Hg [h' ->]. by apply view_full_data. Qed.

Lemma length_row_translation r :
  length r = 17%nat -> length (row_translation r) = 3%nat.
Proof. intros Hr. unfold row_translation. rewrite length_take, length_drop, Hr. done. Qed.

Lemma length_row_rotation r :
  length r = 17%nat -> length (row_rotation r) = 9%nat.
Proof. intros Hr. unfold row_rotation. rewrite length_take, length_drop, Hr. done. Qed.

Lemma nd_data_owner h b s d :
  h !! b = Some d -> nd_data h (NdArray b s (seq 0 (length d))) = d.
Proof.
  intros Hb. unfold nd_data, buffer_of. cbn [nd_base nd_index].
  rewrite Hb. simpl. apply fmap_lookup_seq.
Qed.

Lemma blocks_concat_fmap {A B} (g : A -> list B) c (l : list A) :
  Forall (fun r => length (g r) = c) l ->
  blocks (length l) c (concat (g <$> l)) = g <$> l.
Proof.
  intros Hall. rewrite <- (length_fmap g l). apply blocks_concat.
  by apply Forall_fmap.
Qed.

Lemma zip_with3_fmap {A B C D E} (f : B * C -> D -> E) (g1 : A -> B) (g2 : A -> C)
  (g3 : A -> D) (l : list A) :
  zip_with f (zip (g1 <$> l) (g2 <$> l)) (g3 <$> l)
  = (fun x => f (g1 x, g2 x) (g3 x)) <$> l.
Proof. induction l as [|x l IH]; [done|]. cbn. by f_equal. Qed.

Lemma get_batch_key_points_run kp aT aR aW w (S : list (list elt))
  (gT gR : list elt -> list elt) (gW : list elt -> elt) :
  nd_shape aT = [length S; 3%nat] ->
  nd_data (heap w) aT = concat (gT <$> S) ->
  Forall (fun r => length (gT r) = 3%nat) S ->
  nd_shape aR = [length S; 3%nat; 3%nat] ->
  nd_data (heap w) aR = concat (gR <$> S) ->
  Forall (fun r => length (gR r) = 9%nat) S ->
  nd_data (heap w) aW = concat ((fun r => [gW r]) <$> S) ->
  GraspGroup.get_batch_key_points kp aT aR aW w
  = (Ok (NdArray (length (heap w)) [length S; 4%nat; 3%nat]
           (seq 0 (length (concat ((fun r => kp (gT r) (gR r) (gW r)) <$> S))))),
     set_heap (heap w ++ [concat ((fun r => kp (gT r) (gR r) (gW r)) <$> S)]) w).
Proof.
  intros HsT HdT HallT HsR HdR HallR HdW.
  unfold GraspGroup.get_batch_key_points, nd_rows.
  rewrite HsT, HsR, HdT, HdR, HdW. cbn [prod_shape foldr].
  change (3 * 1)%nat with 3%nat. change (3 * 3)%nat with 9%nat.
  rewrite !blocks_concat_fmap by done.
  rewrite concat_singletons, zip_with3_fmap.
  unfold np_alloc. by rewrite length_fmap.
Qed.

Lemma batch_key_points_2_tuple_run k2t aK aS ids camera w (S : list (list elt))
  (gK : list elt -> list elt) (gS : list elt -> elt) (gI : list elt -> Z) :
  nd_shape aK = [length S; 4%nat; 3%nat] ->
  nd_data (heap w) aK = concat (gK <$> S) ->
  Forall (fun r => length (gK r) = 12%nat) S ->
  nd_data (heap w) aS = concat ((fun r => [gS r]) <$> S) ->
  ids = gI <$> S ->
  GraspGroup.batch_key_points_2_tuple k2t aK aS ids camera w
  = (Ok (NdArray (length (heap w)) [length S; RECT_GRASP_ARRAY_LEN]
           (seq 0 (length (concat ((fun r => k2t (gK r) (gS r) (gI r) camera) <$> S))))),
     set_heap
       (heap w ++ [concat ((fun r => k2t (gK r) (gS r) (gI r) camera) <$> S)]) w).
Proof.
  intros HsK HdK HallK HdS ->.
  unfold GraspGroup.batch_key_points_2_tuple, nd_rows.
  rewrite HsK, HdK, HdS. cbn [prod_shape foldr].
  change (4 * (3 * 1))%nat with 12%nat.
  rewrite !blocks_concat_fmap by done.
  rewrite concat_singletons, zip_with3_fmap.
  unfold np_alloc. by rewrite length_fmap.
Qed.

Ltac solve_owner :=
  apply nd_data_owner;
  repeat (rewrite lookup_app_l by (rewrite ?length_app; simpl; lia));
  by apply list_lookup_middle.

Lemma forallb_Forall {A} (f : A -> bool) (l : list A) :
  forallb f l = true <-> Forall (fun x => f x = true) l.
Proof.
  induction l as [|x l IH]; simpl.
  - split; [constructor|done].
  - rewrite andb_true_iff, IH. split.
    + intros [H1 H2]. by constructor.
    + by inversion 1.
Qed.

Lemma field_binary32 j r :
  Forall (fun x => is_binary32 x = true) r -> is_binary32 (row_field j r) = true.
Proof.
  intros Hr. unfold row_field. destruct (r !! j) as [x|] eqn:Hx; [|done].
  rewrite Forall_forall in Hr. apply Hr. by eapply list_elem_of_lookup_2.
Qed.

(** No finite value is of both formats. *)
Lemma binary32_not_binary64 s m e :
  is_binary32 (S754_finite s m e) = true ->
  is_binary64 (S754_finite s m e) = true ->
  False.
Proof.
  unfold is_binary32, is_binary64, valid_binary, bounded, canonical_mantissa,
    fexp, emin, Float32.prec, Float32.emax, Float64.prec, Float64.emax.
  rewrite !andb_true_iff, !Z.eqb_eq, !Z.leb_le. lia.
Qed.

(** On the elements of a float32 array the comparison is the one in
    float32, provided the two comparisons agree on the values that are
    of both formats: the zeros, the infinities and NaN. *)
Lemma np_greater_float32 a c w :
  Forall (fun x => is_binary32 x = true) (nd_data (heap w) a) ->
  (forall s, fgtb (S754_zero s) (Float32.cast c) = fgtb (S754_zero s) c) ->
  (forall s, fgtb (S754_infinity s) (Float32.cast c) = fgtb (S754_infinity s) c) ->
  np_greater a c w
  = (Ok ((fun x => fgtb x (Float32.cast c)) <$> nd_data (heap w) a), w).
Proof.
  intros H32 Hzero Hinf. unfold np_greater.
  rewrite (proj2 (forallb_Forall _ _) H32).
  destruct (forallb is_binary64 (nd_data (heap w) a)) eqn:H64; [|done].
  rewrite bool_decide_true; [done|].
  apply forallb_Forall in H64.
  apply Forall_fmap_ext, Forall_forall. intros x Hx.
  rewrite Forall_forall in H32, H64.
  specialize (H32 x Hx). specialize (H64 x Hx).
  destruct x as [s|s| |s m e]; [apply Hzero|apply Hinf| |].
  - unfold fgtb, SFltb. by destruct (Float32.cast c), c.
  - by destruct (binary32_not_binary64 s m e).
Qed.

Lemma to_rect_grasp_group_run_mask kp k2t (keep : list elt -> bool) w g rows camera :
  (forall t r wd, length (kp t r wd) = 12%nat) ->
  (forall k s o c, length (k2t k s o c) = RECT_GRASP_ARRAY_LEN) ->
  is_table (heap w) (grasp_group_array g) GRASP_ARRAY_LEN rows ->
  (forall a, nd_data (heap w) a = row_field 10 <$> rows ->
     np_greater a (Float64.of_ratio 99 100) w = (Ok (keep <$> rows), w)) ->
  returns (GraspGroup.to_rect_grasp_group kp k2t g camera) w
    (fun g' w' =>
       is_table (heap w') (rect_grasp_group_array g') RECT_GRASP_ARRAY_LEN
         (rect_row_of kp k2t camera <$> filter (fun r => keep r = true) rows) /\
       is_table (heap w') (grasp_group_array g) GRASP_ARRAY_LEN rows).
Proof.
  intros Hkp Hk2t Ht Hkeep. pose proof Ht as (Hb & Hs & Hd & Hall).
  set (t := grasp_group_array g) in *.
  set (S := filter (fun r => keep r = true) rows).
  unfold returns, GraspGroup.to_rect_grasp_group.
  (* the views *)
  unfold GraspGroup.translations, GraspGroup.rotation_matrices, GraspGroup.depths,
    GraspGroup.scores, GraspGroup.widths, GraspGroup.object_ids.
  fold t.
  rewrite (bind_Ok _ _ _ _ _ (nd_getitem_run t [full; range 13 16] [length rows; 3%nat] w
    ltac:(rewrite Hs; by apply index_shape_full))).
  set (vT := NdArray (nd_base t) [length rows; 3%nat] _).
  assert (Hrot : (let* v := nd_getitem t [full; range 4 13] in np_reshape v [-1; 3; 3]) w
    = (Ok (NdArray (nd_base t) [length rows; 3; 3]%nat
             (index_select (nd_shape t) [full; range 4 13] (nd_index t))), w)).
  { rewrite (bind_Ok _ _ _ _ _ (nd_getitem_run t [full; range 4 13]
       [length rows; 9%nat] w ltac:(rewrite Hs; by apply index_shape_full))).
    unfold np_reshape, nd_size. cbn [nd_shape prod_shape foldr].
    by rewrite infer_shape_rotations. }
  rewrite (bind_Ok _ _ _ _ _ Hrot). clear Hrot.
  set (vR := NdArray (nd_base t) [length rows; 3; 3]%nat _).
  rewrite (bind_Ok _ _ _ _ _ (nd_getitem_run t [full; IInt 3] [length rows] w
    ltac:(rewrite Hs; by apply index_shape_full))).
  set (vD := NdArray (nd_base t) [length rows] _).
  rewrite (bind_Ok _ _ _ _ _ (nd_getitem_run t [full; IInt 0] [length rows] w
    ltac:(rewrite Hs; by apply index_shape_full))).
  set (vS := NdArray (nd_base t) [length rows] _).
  rewrite (bind_Ok _ _ _ _ _ (nd_getitem_run t [full; IInt 1] [length rows] w
    ltac:(rewrite Hs; by apply index_shape_full))).
  set (vW := NdArray (nd_base t) [length rows] _).
  assert (Hids : (let* v := nd_getitem t [full; IInt 16] in np_astype_int32 v) w
    = (Ok ((fun r => float_to_int32 (row_field 16 r)) <$> rows), w)).
  { rewrite (bind_Ok _ _ _ _ _ (nd_getitem_run t [full; IInt 16] [length rows] w
       ltac:(rewrite Hs; by apply index_shape_full))).
    unfold np_astype_int32. do 2 f_equal.
    rewrite <- (app_nil_r (heap w)).
    rewrite (view_full_data _ _ _ rows _ (fun r => [row_field 16 r]) _ Ht)
      by (intros r Hr; apply (select_field 16); [done|lia]).
    by rewrite concat_singletons, <- list_fmap_compose. }
  rewrite (bind_Ok _ _ _ _ _ Hids). clear Hids.
  rewrite (bind_Ok _ _ _ _ _ (nd_getitem_run vR [full; IInt 2; IInt 0] [length rows] w
    ltac:(by apply index_shape_full))).
  set (vC := NdArray (nd_base vR) [length rows] _).
  assert (HvC : nd_data (heap w) vC = row_field 10 <$> rows).
  { subst vC. rewrite nd_data_view.
    cbn [nd_shape vR nd_index nd_base].
    rewrite <- (app_nil_r (heap w)).
    rewrite (view_full_data _ _ _ rows _ row_rotation _ Ht)
      by (intros r Hr; by apply select_rotation).
    rewrite index_select_full;
      [|by rewrite length_fmap
       |apply Forall_fmap; eapply Forall_impl; [exact Hall|];
        intros r Hr; unfold row_rotation; simpl;
        rewrite length_take, length_drop, Hr; reflexivity].
    rewrite <- list_fmap_compose.
    erewrite (proj1 (Forall_fmap_ext _ (fun r => [row_field 10 r]) rows)).
    2:{ eapply Forall_impl; [exact Hall|]. intros r Hr. simpl.
        by apply select_rotation_2_0. }
    by rewrite concat_singletons. }
  assert (Hmask : np_greater vC (Float64.of_ratio 99 100) w
    = (Ok (keep <$> rows), w)) by (by apply Hkeep).
  rewrite (bind_Ok _ _ _ _ _ Hmask). clear Hmask.
  (* the five compressed arrays *)
  erewrite bind_Ok.
  2:{ apply (np_compress_run vT rows row_translation keep [3%nat]); [done| |].
      - apply (view_full_data_at _ _ _ _ _ _ _ Ht);
          [intros r Hr; by apply select_translation|].
        exists []. by rewrite app_nil_r.
      - eapply Forall_impl; [exact Hall|]. intros r Hr. simpl.
        by apply length_row_translation. }
  erewrite bind_Ok.
  2:{ apply (np_compress_run vD rows (fun r => [row_field 3 r]) keep []);
        [done| |by apply Forall_true].
      apply (view_full_data_at _ _ _ _ _ _ _ Ht);
        [intros r Hr; apply (select_field 3); [done|lia]|].
      rewrite !heap_set_heap. by eexists. }
  erewrite bind_Ok.
  2:{ apply (np_compress_run vW rows (fun r => [row_field 1 r]) keep []);
        [done| |by apply Forall_true].
      apply (view_full_data_at _ _ _ _ _ _ _ Ht);
        [intros r Hr; apply (select_field 1); [done|lia]|].
      rewrite !heap_set_heap, <- !app_assoc. by eexists. }
  erewrite bind_Ok.
  2:{ apply (np_compress_run vS rows (fun r => [row_field 0 r]) keep []);
        [done| |by apply Forall_true].
      apply (view_full_data_at _ _ _ _ _ _ _ Ht);
        [intros r Hr; apply (select_field 0); [done|lia]|].
      rewrite !heap_set_heap, <- !app_assoc. by eexists. }
  erewrite bind_Ok.
  2:{ apply (np_compress_run vR rows row_rotation keep [3; 3]%nat); [done| |].
      - apply (view_full_data_at _ _ _ _ _ _ _ Ht);
          [intros r Hr; by apply select_rotation|].
        rewrite !heap_set_heap, <- !app_assoc. by eexists.
      - eapply Forall_impl; [exact Hall|]. intros r Hr. simpl.
        by apply length_row_rotation. }
  rewrite !heap_set_heap, !set_heap_set_heap. fold S.
  assert (HallS : Forall (fun r => length r = 17%nat) S).
  { apply Forall_forall. intros r Hr. apply list_elem_of_filter in Hr as [_ Hr].
    rewrite Forall_forall in Hall. by apply Hall. }
  (* the object ids *)
  erewrite bind_Ok.
  2:{ unfold GraspGroup.compress_ids. rewrite !length_fmap, Nat.eqb_refl.
      unfold ret. by rewrite (pick_mask 0). }
  fold S.
  (* the key points *)
  erewrite bind_Ok.
  2:{ apply (get_batch_key_points_run kp _ _ _ _ S row_translation row_rotation
               (row_field 1)); try done.
      - rewrite heap_set_heap. solve_owner.
      - eapply Forall_impl; [exact HallS|]. intros r Hr. simpl.
        by apply length_row_translation.
      - rewrite heap_set_heap. solve_owner.
      - eapply Forall_impl; [exact HallS|]. intros r Hr. simpl.
        by apply length_row_rotation.
      - rewrite heap_set_heap. solve_owner. }
  rewrite !heap_set_heap, !set_heap_set_heap.
  erewrite bind_Ok.
  2:{ unfold np_reshape, nd_size. cbn [nd_shape prod_shape foldr].
      rewrite infer_shape_points. reflexivity. }
  erewrite bind_Ok.
  2:{ unfold np_reshape, nd_size. cbn [nd_shape prod_shape foldr].
      rewrite infer_shape_key_points. reflexivity. }
  cbn [nd_base nd_index].
  (* the rectangle rows *)
  erewrite bind_Ok.
  2:{ apply (batch_key_points_2_tuple_run k2t _ _ _ camera _ S
               (fun r => kp (row_translation r) (row_rotation r) (row_field 1 r))
               (row_field 0) (fun r => float_to_int32 (row_field 16 r)));
        try done.
      - rewrite heap_set_heap. solve_owner.
      - by apply Forall_true.
      - rewrite heap_set_heap. solve_owner. }
  rewrite !heap_set_heap, !set_heap_set_heap.
  unfold RectGraspGroup.__init__. unfold bind, ret. rewrite np_zeros_empty.
  eexists _, _. split; [reflexivity|].
  cbn [rect_grasp_group_array]. rewrite !heap_set_heap.
  split.
  - apply is_table_app.
    apply (is_table_fresh _ []);
      [apply Forall_fmap, Forall_true; intros r; apply Hk2t
      |by rewrite length_fmap|done].
  - rewrite <- !app_assoc. by apply is_table_app.
Qed.

Lemma field_binary64 j r :
  Forall (fun x => is_binary64 x = true) r -> is_binary64 (row_field j r) = true.
Proof.
  intros Hr. unfold row_field. destruct (r !! j) as [x|] eqn:Hx; [|done].
  rewrite Forall_forall in Hr. apply Hr. by eapply list_elem_of_lookup_2.
Qed.

(** On the elements of a float64 array the comparison is the one in
    float64, with the same proviso. *)
Lemma np_greater_float64 a c w :
  Forall (fun x => is_binary64 x = true) (nd_data (heap w) a) ->
  (forall s, fgtb (S754_zero s) (Float32.cast c) = fgtb (S754_zero s) c) ->
  (forall s, fgtb (S754_infinity s) (Float32.cast c) = fgtb (S754_infinity s) c) ->
  np_greater a c w = (Ok ((fun x => fgtb x c) <$> nd_data (heap w) a), w).
Proof.
  intros H64 Hzero Hinf. unfold np_greater.
  rewrite (proj2 (forallb_Forall _ _) H64).
  destruct (forallb is_binary32 (nd_data (heap w) a)) eqn:H32; [|done].
  assert (Heq : (fun x => fgtb x (Float32.cast c)) <$> nd_data (heap w) a
                = (fun x => fgtb x c) <$> nd_data (heap w) a).
  { apply forallb_Forall in H32.
    apply Forall_fmap_ext, Forall_forall. intros x Hx.
    rewrite Forall_forall in H32, H64.
    specialize (H32 x Hx). specialize (H64 x Hx).
    destruct x as [s|s| |s m e]; [apply Hzero|apply Hinf| |].
    - unfold fgtb, SFltb. by destruct (Float32.cast c), c.
    - by destruct (binary32_not_binary64 s m e). }
  rewrite bool_decide_true by done. by rewrite Heq.
Qed.

Lemma to_rect_grasp_group_run kp k2t w g rows camera :
  (forall t r wd, length (kp t r wd) = 12%nat) ->
  (forall k s o c, length (k2t k s o c) = RECT_GRASP_ARRAY_LEN) ->
  is_table (heap w) (grasp_group_array g) GRASP_ARRAY_LEN rows ->
  float32_rows rows ->
  returns (GraspGroup.to_rect_grasp_group kp k2t g camera) w
    (fun g' w' =>
       is_table (heap w') (rect_grasp_group_array g') RECT_GRASP_ARRAY_LEN
         (rect_row_of kp k2t camera <$> filter (fun r => survives r = true) rows) /\
       is_table (heap w') (grasp_group_array g) GRASP_ARRAY_LEN rows).
Proof.
  intros Hkp Hk2t Ht H32. apply to_rect_grasp_group_run_mask; [done..|].
  intros a Ha.
  rewrite np_greater_float32; [|rewrite Ha|by intros []|by intros []].
  - by rewrite Ha, <- list_fmap_compose.
  - apply Forall_fmap. eapply Forall_impl; [exact H32|].
    intros r Hr. apply (field_binary32 10 r Hr).
Qed.

Lemma to_rect_grasp_group_run64 kp k2t w g rows camera :
  (forall t r wd, length (kp t r wd) = 12%nat) ->
  (forall k s o c, length (k2t k s o c) = RECT_GRASP_ARRAY_LEN) ->
  is_table (heap w) (grasp_group_array g) GRASP_ARRAY_LEN rows ->
  float64_rows rows ->
  returns (GraspGroup.to_rect_grasp_group kp k2t g camera) w
    (fun g' w' =>
       is_table (heap w') (rect_grasp_group_array g') RECT_GRASP_ARRAY_LEN
         (rect_row_of kp k2t camera <$> filter (fun r => survives64 r = true) rows) /\
       is_table (heap w') (grasp_group_array g) GRASP_ARRAY_LEN rows).
Proof.
  intros Hkp Hk2t Ht H64. apply to_rect_grasp_group_run_mask; [done..|].
  intros a Ha.
  rewrite np_greater_float64; [|rewrite Ha|by intros []|by intros []].
  - by rewrite Ha, <- list_fmap_compose.
  - apply Forall_fmap. eapply Forall_impl; [exact H64|].
    intros r Hr. apply (field_binary64 10 r Hr).
Qed.

(** C5 (amended).  [to_rect_grasp_group] keeps the rows whose rotation
    entry [2,0] exceeds 0.99 rounded to the dtype of the table, and drops
    the others.  On a float32 table the comparison is done in float32 and
    the entry must exceed the float32 nearest to 0.99, which is
    0.9900000095367431640625; on a float64 table it is done in float64 and
    the entry must exceed the float64 nearest to 0.99, which is
    8917127262193582 / 2^53.  In both cases the table of the result holds,
    in the order of the group, one rectangle row for each row that
    survives, so it has as many rows as survive; the group is left as it
    was.  The two per-grasp functions are any functions that give 12 and
    7 numbers. *)
Theorem to_rect_grasp_group_filters :
  (forall r, survives r = fgtb (row_field 10 r) threshold32) /\
  (forall r, survives64 r = fgtb (row_field 10 r) threshold64) /\
  forall key_points key_points_2_tuple,
    (forall t r wd, length (key_points t r wd) = 12%nat) ->
    (forall k s o c, length (key_points_2_tuple k s o c) = RECT_GRASP_ARRAY_LEN) ->
    forall w g rows camera,
      is_table (heap w) (grasp_group_array g) GRASP_ARRAY_LEN rows ->
      (float32_rows rows ->
       returns (GraspGroup.to_rect_grasp_group key_points key_points_2_tuple g camera) w
         (fun g' w' =>
            is_table (heap w') (rect_grasp_group_array g') RECT_GRASP_ARRAY_LEN
              (rect_row_of key_points key_points_2_tuple camera
                 <$> filter (fun r => survives r = true) rows) /\
            nd_len (rect_grasp_group_array g')
            = Some (length (filter (fun r => survives r = true) rows)) /\
            is_table (heap w') (grasp_group_array g) GRASP_ARRAY_LEN rows)) /\
      (float64_rows rows ->
       returns (GraspGroup.to_rect_grasp_group key_points key_points_2_tuple g camera) w
         (fun g' w' =>
            is_table (heap w') (rect_grasp_group_array g') RECT_GRASP_ARRAY_LEN
              (rect_row_of key_points key_points_2_tuple camera
                 <$> filter (fun r => survives64 r = true) rows) /\
            nd_len (rect_grasp_group_array g')
            = Some (length (filter (fun r => survives64 r = true) rows)) /\
            is_table (heap w') (grasp_group_array g) GRASP_ARRAY_LEN rows)).
Proof.
  split; [done|]. split; [done|].
  intros kp k2t Hkp Hk2t w g rows camera Ht. split.
  - intros H32.
    eapply returns_impl; [|by apply to_rect_grasp_group_run].
    intros g' w' [H1 H2]. split; [done|]. split; [|done].
    destruct H1 as (_ & Hs & _). unfold nd_len. rewrite Hs.
    by rewrite length_fmap.
  - intros H64.
    eapply returns_impl; [|by apply to_rect_grasp_group_run64].
    intros g' w' [H1 H2]. split; [done|]. split; [|done].
    destruct H1 as (_ & Hs & _). unfold nd_len. rewrite Hs.
    by rewrite length_fmap.
Qed.

Lemma conversion_group_table :
  is_table (heap conversion_world) (grasp_group_array conversion_group)
    GRASP_ARRAY_LEN conversion_rows.
Proof. apply is_table_table_of. by repeat constructor. Defined.

Lemma conversion_rows_float32 : float32_rows conversion_rows.
Proof. by repeat constructor. Defined.

Lemma to_rect_grasp_group_filters_witness :
  (forall t r wd, length (sample_key_points t r wd) = 12%nat) /\
  (forall k s o c, length (sample_key_points_2_tuple k s o c) = RECT_GRASP_ARRAY_LEN) /\
  is_table (heap conversion_world) (grasp_group_array conversion_group)
    GRASP_ARRAY_LEN conversion_rows /\
  float32_rows conversion_rows /\
  (survives <$> conversion_rows) = [true; false; true] /\
  returns (GraspGroup.to_rect_grasp_group sample_key_points sample_key_points_2_tuple
             conversion_group "kinect") conversion_world
    (fun g' w' =>
       is_table (heap w') (rect_grasp_group_array g') RECT_GRASP_ARRAY_LEN
         (rect_row_of sample_key_points sample_key_points_2_tuple "kinect"
            <$> filter (fun r => survives r = true) conversion_rows) /\
       nd_len (rect_grasp_group_array g') = Some 2%nat /\
       is_table (heap w') (grasp_group_array conversion_group) GRASP_ARRAY_LEN
         conversion_rows).
Proof.
  split; [intros; reflexivity|].
  split; [intros; reflexivity|].
  split; [exact conversion_group_table|].
  split; [exact conversion_rows_float32|].
  split; [vm_compute; reflexivity|].
  apply (proj1 (proj2 (proj2 to_rect_grasp_group_filters)
                  sample_key_points sample_key_points_2_tuple
                  (fun _ _ _ => eq_refl) (fun _ _ _ _ => eq_refl)
                  conversion_world conversion_group conversion_rows "kinect"
                  conversion_group_table)
           conversion_rows_float32).
Defined.

(** C5, as stated, fails on a float32 table for the entry that is the
    float32 nearest to 0.99: its value, 16609444 / 2^24, exceeds 0.99,
    and the row is dropped. *)
Lemma to_rect_grasp_group_drops_nearest_float32 :
  is_table (heap threshold_world) (grasp_group_array threshold_group)
    GRASP_ARRAY_LEN threshold_rows /\
  float32_rows threshold_rows /\
  row_field 10 <$> threshold_rows = [S754_finite false 16609444 (-24)] /\
  99 * 2 ^ 24 < 100 * 16609444 /\
  exists g' w',
    GraspGroup.to_rect_grasp_group sample_key_points sample_key_points_2_tuple
      threshold_group "kinect" threshold_world = (Ok g', w') /\
    nd_len (rect_grasp_group_array g') = Some 0%nat /\
    nd_rows (heap w') (rect_grasp_group_array g') = [].
Proof.
  split; [apply is_table_table_of; by repeat constructor|].
  split; [by repeat constructor|].
  split; [reflexivity|]. split; [reflexivity|].
  eexists _, _. split; [vm_compute; reflexivity|]. split; reflexivity.
Qed.

(** *** Sorting *)

Lemma SFcompare_antisym (x y : elt) :
  SFcompare y x = CompOpp <$> SFcompare x y.
Proof.
  destruct x as [sx|sx| |sx mx ex], y as [sy|sy| |sy my ey]; simpl; try done;
    try (by destruct sx); try (by destruct sy); try (by destruct sx, sy).
  destruct sx, sy; simpl; try done; f_equal.
  - rewrite (Z.compare_antisym ex ey).
    destruct (ex ?= ey); simpl; try done.
    change (Pos.compare_cont Eq my mx) with (Pos.compare my mx).
    change (Pos.compare_cont Eq mx my) with (Pos.compare mx my).
    by rewrite (Pos.compare_antisym mx my).
  - rewrite (Z.compare_antisym ex ey).
    destruct (ex ?= ey); simpl; try done.
    change (Pos.compare_cont Eq my mx) with (Pos.compare my mx).
    change (Pos.compare_cont Eq mx my) with (Pos.compare mx my).
    by rewrite (Pos.compare_antisym mx my).
Qed.

Lemma SFcompare_nan_free (x y : elt) :
  is_nan x = false -> is_nan y = false -> exists c, SFcompare x y = Some c.
Proof.
  intros Hx Hy. destruct x, y; try discriminate; simpl; eauto.
Qed.

Lemma np_lt_asym (x y : elt) : np_lt x y = true -> np_lt y x = false.
Proof.
  unfold np_lt, fltb, SFltb. rewrite (SFcompare_antisym x y).
  destruct (is_nan x) eqn:Hx.
  { destruct x; try discriminate. by destruct y. }
  destruct (is_nan y) eqn:Hy.
  { destruct y; try discriminate. by destruct x. }
  destruct (SFcompare_nan_free x y Hx Hy) as [c ->]. by destruct c.
Qed.

Lemma not_np_lt_fgeb (x y : elt) :
  is_nan x = false -> is_nan y = false -> np_lt x y = false -> fgeb x y = true.
Proof.
  intros Hx Hy. unfold np_lt, fgeb, fltb, SFltb, SFleb.
  rewrite (SFcompare_antisym x y).
  destruct (SFcompare_nan_free x y Hx Hy) as [c ->].
  rewrite Hy. simpl. by destruct c.
Qed.

Lemma adjacent_impl {A} (R R' : A -> A -> Prop) (l : list A) :
  (forall x y, x ∈ l -> y ∈ l -> R x y -> R' x y) -> adjacent R l -> adjacent R' l.
Proof.
  induction l as [|x [|y l] IH]; intros HR; [done..|].
  intros [Hxy Hl]. split.
  - apply HR; [by left|by right; left|done].
  - apply IH; [|done]. intros a b Ha Hb. apply HR; by right.
Qed.

Lemma adjacent_fmap {A B} (R : B -> B -> Prop) (f : A -> B) (l : list A) :
  adjacent (fun a b => R (f a) (f b)) l -> adjacent R (f <$> l).
Proof.
  induction l as [|x [|y l] IH]; [done..|].
  intros [Hxy Hl]. split; [done|]. by apply IH.
Qed.

Lemma adjacent_snoc {A} (R : A -> A -> Prop) (l : list A) x :
  adjacent R l ->
  (forall y, last l = Some y -> R y x) ->
  adjacent R (l ++ [x]).
Proof.
  induction l as [|a [|b l] IH]; intros Hl Hlast; [done| |].
  - simpl. split; [by apply Hlast|done].
  - destruct Hl as [Hab Hl]. split; [done|]. apply IH; [done|].
    intros y Hy. by apply Hlast.
Qed.

Lemma adjacent_rev {A} (R : A -> A -> Prop) (l : list A) :
  adjacent R l -> adjacent (fun x y => R y x) (rev l).
Proof.
  induction l as [|a l IH]; [done|]. intros Hl. simpl.
  apply adjacent_snoc.
  - apply IH. destruct l; [done|]. by destruct Hl.
  - intros y Hy. destruct l as [|b l]; [done|].
    destruct Hl as [Hab _]. simpl in Hy. rewrite last_snoc in Hy.
    by injection Hy as <-.
Qed.

Lemma insert_by_perm key i l : insert_by key i l ≡ₚ i :: l.
Proof.
  induction l as [|j l IH]; [done|]. simpl.
  destruct (np_lt (key j) (key i)); [|done].
  rewrite IH. apply perm_swap.
Qed.

Lemma insert_by_sorted key i l :
  adjacent (fun a b => np_lt (key b) (key a) = false) l ->
  adjacent (fun a b => np_lt (key b) (key a) = false) (insert_by key i l).
Proof.
  induction l as [|j l IH]; [done|]. intros Hl. simpl.
  destruct (np_lt (key j) (key i)) eqn:Hji.
  - assert (Htl : adjacent (fun a b => np_lt (key b) (key a) = false) l)
      by (destruct l; [done|by destruct Hl]).
    specialize (IH Htl).
    destruct l as [|k l]; simpl in *.
    + split; [by apply np_lt_asym|done].
    + destruct (np_lt (key k) (key i)) eqn:Hki.
      * split; [by destruct Hl|done].
      * split; [by apply np_lt_asym|done].
  - split; done.
Qed.

Lemma argsort_perm v : argsort v ≡ₚ seq 0 (length v).
Proof.
  unfold argsort. induction (seq 0 (length v)) as [|i l IH]; [done|].
  simpl. by rewrite insert_by_perm, IH.
Qed.

Lemma argsort_sorted v :
  adjacent (fun a b => np_lt (default fzero (v !! b)) (default fzero (v !! a)) = false)
    (argsort v).
Proof.
  unfold argsort. induction (seq 0 (length v)) as [|i l IH]; [done|].
  simpl. by apply (insert_by_sorted (fun i => default fzero (v !! i))).
Qed.

Lemma select_field_gen C j (r : list elt) :
  length r = C -> (j < C)%nat ->
  index_select [C] [IInt (Z.of_nat j)] r = [row_field j r].
Proof.
  intros Hr Hj. cbn [index_select].
  rewrite (norm_index_mod (Z.of_nat j) C) by lia.
  rewrite Z.mod_small by lia. rewrite Nat2Z.id.
  unfold block, row_field. cbn [prod_shape foldr]. rewrite Nat.mul_1_r.
  destruct (lookup_lt_is_Some_2 r j) as [x Hx]; [lia|].
  rewrite Hx. by rewrite (drop_S _ _ _ Hx).
Qed.

Lemma index_shape_field N C j :
  (j < C)%nat ->
  index_shape [N; C] [full; IInt (Z.of_nat j)] = Ok [N].
Proof.
  intros Hj. apply index_shape_full. cbn [index_shape].
  by rewrite (norm_index_mod (Z.of_nat j) C) by lia.
Qed.

Lemma column_view_data h t C rows j sh :
  is_table h t C rows ->
  (j < C)%nat ->
  nd_data h
    (NdArray (nd_base t) sh
       (index_select (nd_shape t) [full; IInt (Z.of_nat j)] (nd_index t)))
  = column j rows.
Proof.
  intros (Hb & Hs & Hd & Hall) Hj.
  rewrite nd_data_view.
  replace (nd_data h (NdArray (nd_base t) sh (nd_index t))) with (nd_data h t)
    by (by destruct t).
  rewrite Hd, Hs. rewrite index_select_full; [|done|].
  - erewrite (proj1 (Forall_fmap_ext _ (fun r => [row_field j r]) rows)).
    + by rewrite concat_singletons.
    + eapply Forall_impl; [exact Hall|]. intros r Hr. simpl.
      by apply select_field_gen.
  - eapply Forall_impl; [exact Hall|]. intros r Hr. simpl in *. lia.
Qed.

Lemma np_take_run t C rows ix w :
  is_table (heap w) t C rows ->
  Forall (fun k => (k < length rows)%nat) ix ->
  np_take t ix w
  = (Ok (NdArray (length (heap w)) [length ix; C]
           (seq 0 (length (concat (pick rows ix))))),
     set_heap (heap w ++ [concat (pick rows ix)]) w).
Proof.
  intros (Hb & Hs & Hd & Hall) Hix. unfold np_take. rewrite Hs.
  replace (forallb _ _) with true.
  2:{ symmetry. apply forallb_forall. intros k Hk. apply list_elem_of_In in Hk.
      rewrite Forall_forall in Hix. apply Nat.ltb_lt. by apply Hix. }
  unfold np_alloc. rewrite Hd. cbn [prod_shape foldr]. rewrite Nat.mul_1_r.
  by rewrite (pick_blocks C).
Qed.

Lemma pick_Forall C rows ix :
  Forall (fun r => length r = C) rows ->
  Forall (fun k => (k < length rows)%nat) ix ->
  Forall (fun r => length r = C) (pick rows ix).
Proof.
  intros Hall Hix. apply Forall_fmap. eapply Forall_impl; [exact Hix|].
  intros k Hk. simpl.
  destruct (lookup_lt_is_Some_2 rows k Hk) as [r Hr]. rewrite Hr. simpl.
  rewrite Forall_lookup in Hall. by eapply Hall.
Qed.

Lemma pick_perm rows ix : ix ≡ₚ seq 0 (length rows) -> pick rows ix ≡ₚ rows.
Proof.
  intros Hp. unfold pick. rewrite Hp. by rewrite fmap_lookup_seq.
Qed.

Lemma column_pick j rows ix :
  column j (pick rows ix) = (fun k => default fzero (column j rows !! k)) <$> ix.
Proof.
  unfold column, pick. rewrite <- list_fmap_compose.
  apply list_fmap_ext; intros _ k _. simpl.
  rewrite list_lookup_fmap. by destruct (rows !! k).
Qed.

Lemma perm_seq_lt ix N :
  ix ≡ₚ seq 0 N -> Forall (fun k => (k < N)%nat) ix.
Proof.
  intros Hp. rewrite Hp. apply Forall_seq. intros; lia.
Qed.

Lemma sorted_index_order reverse v :
  adjacent (in_sort_order reverse)
    ((fun k => default fzero (v !! k))
       <$> (if negb reverse then rev (argsort v) else argsort v)).
Proof.
  apply adjacent_fmap. destruct reverse; simpl.
  - apply argsort_sorted.
  - apply (adjacent_rev _ _ (argsort_sorted v)).
Qed.

Ltac solve_sort_by_score C j :=
  let Ht := fresh "Ht" in
  let Hb := fresh "Hb" in
  let Hs := fresh "Hs" in
  let Hd := fresh "Hd" in
  let Hall := fresh "Hall" in
  let Hp := fresh "Hp" in
  intros Ht; pose proof Ht as (Hb & Hs & Hd & Hall);
  match type of Ht with is_table (heap ?w) ?t _ ?rows =>
  match goal with |- returns (_ _ ?reverse) _ _ =>
    unfold returns, GraspGroup.sort_by_score, RectGraspGroup.sort_by_score;
    rewrite (bind_Ok _ _ _ _ _
      (nd_getitem_run t [full; IInt (Z.of_nat j)] [length rows] w
         ltac:(rewrite Hs; apply index_shape_field; cbv; lia)));
    erewrite bind_Ok;
      [|unfold np_argsort; cbn [nd_shape];
        rewrite (column_view_data _ _ C rows j _ Ht) by (cbv; lia); reflexivity];
    assert (Hp : (if negb reverse then rev (argsort (column j rows))
                  else argsort (column j rows)) ≡ₚ seq 0 (length rows))
      by (destruct reverse; simpl; rewrite <- ?Permutation_rev, argsort_perm;
          unfold column; by rewrite length_fmap);
    erewrite bind_Ok;
      [|apply (np_take_run _ C rows); [exact Ht|by apply perm_seq_lt]];
    unfold ret; eexists _, _; split; [reflexivity|];
    eexists; split; [|split];
    [ rewrite heap_set_heap; cbn [grasp_group_array rect_grasp_group_array];
      apply (is_table_fresh _ []);
        [apply pick_Forall; [done|by apply perm_seq_lt]
        |unfold pick; by rewrite length_fmap|done]
    | by apply pick_perm
    | rewrite column_pick; apply sorted_index_order ]
  end end.

Lemma sort_by_score_GraspGroup w g rows reverse :
  is_table (heap w) (grasp_group_array g) GRASP_ARRAY_LEN rows ->
  returns (GraspGroup.sort_by_score g reverse) w
    (fun g' w' => exists rows',
       is_table (heap w') (grasp_group_array g') GRASP_ARRAY_LEN rows' /\
       rows' ≡ₚ rows /\
       adjacent (in_sort_order reverse) (column 0 rows')).
Proof. solve_sort_by_score GRASP_ARRAY_LEN 0%nat. Qed.

Lemma sort_by_score_RectGraspGroup w g rows reverse :
  is_table (heap w) (rect_grasp_group_array g) RECT_GRASP_ARRAY_LEN rows ->
  returns (RectGraspGroup.sort_by_score g reverse) w
    (fun g' w' => exists rows',
       is_table (heap w') (rect_grasp_group_array g') RECT_GRASP_ARRAY_LEN rows' /\
       rows' ≡ₚ rows /\
       adjacent (in_sort_order reverse) (column 5 rows')).
Proof. solve_sort_by_score RECT_GRASP_ARRAY_LEN 5%nat. Qed.

Lemma in_sort_order_nan_free reverse (l : list elt) :
  Forall (fun x => is_nan x = false) l ->
  adjacent (in_sort_order reverse) l ->
  if reverse then ascending l else descending l.
Proof.
  intros Hnan Hadj. rewrite Forall_forall in Hnan.
  destruct reverse; unfold ascending, descending.
  - eapply adjacent_impl; [|exact Hadj]. intros x y Hx Hy Hxy. simpl in Hxy.
    apply (not_np_lt_fgeb y x); auto.
  - eapply adjacent_impl; [|exact Hadj]. intros x y Hx Hy Hxy. simpl in Hxy.
    apply (not_np_lt_fgeb x y); auto.
Qed.

Lemma column_perm j rows rows' : rows' ≡ₚ rows -> column j rows' ≡ₚ column j rows.
Proof. intros Hp. unfold column. by rewrite Hp. Qed.

(** What [sort_by_score] does on every group without a NaN score: with
    [reverse] the scores end up ascending, without it descending; the rows
    are those of the group. *)
Lemma sort_by_score_GraspGroup_order w g rows reverse :
  is_table (heap w) (grasp_group_array g) GRASP_ARRAY_LEN rows ->
  Forall (fun x => is_nan x = false) (column 0 rows) ->
  returns (GraspGroup.sort_by_score g reverse) w
    (fun g' w' => exists rows',
       is_table (heap w') (grasp_group_array g') GRASP_ARRAY_LEN rows' /\
       rows' ≡ₚ rows /\
       if reverse then ascending (column 0 rows') else descending (column 0 rows')).
Proof.
  intros Ht Hnan. eapply returns_impl; [|by apply sort_by_score_GraspGroup].
  intros g' w' (rows' & H1 & H2 & H3). exists rows'. split; [done|]. split; [done|].
  apply in_sort_order_nan_free; [|done]. by rewrite (column_perm _ _ _ H2).
Qed.

Lemma sort_by_score_RectGraspGroup_order w g rows reverse :
  is_table (heap w) (rect_grasp_group_array g) RECT_GRASP_ARRAY_LEN rows ->
  Forall (fun x => is_nan x = false) (column 5 rows) ->
  returns (RectGraspGroup.sort_by_score g reverse) w
    (fun g' w' => exists rows',
       is_table (heap w') (rect_grasp_group_array g') RECT_GRASP_ARRAY_LEN rows' /\
       rows' ≡ₚ rows /\
       if reverse then ascending (column 5 rows') else descending (column 5 rows')).
Proof.
  intros Ht Hnan. eapply returns_impl; [|by apply sort_by_score_RectGraspGroup].
  intros g' w' (rows' & H1 & H2 & H3). exists rows'. split; [done|]. split; [done|].
  apply in_sort_order_nan_free; [|done]. by rewrite (column_perm _ _ _ H2).
Qed.

(** C1 (the code fails).  On the sample groups, whose scores are 3, 1, 2,
    5, 4, [sort_by_score(reverse=True)] leaves the scores 1, 2, 3, 4, 5,
    which is not descending, and [sort_by_score(reverse=False)] leaves
    5, 4, 3, 2, 1, which is not ascending: the flag works the other way
    round than the docstring and the claim say. *)
Theorem sort_by_score_flag_is_inverted :
  (exists g' w',
      GraspGroup.sort_by_score sample_group true sample_world = (Ok g', w') /\
      column 0 (nd_rows (heap w') (grasp_group_array g'))
      = Float32.of_Z <$> [1; 2; 3; 4; 5] /\
      ~ descending (column 0 (nd_rows (heap w') (grasp_group_array g')))) /\
  (exists g' w',
      GraspGroup.sort_by_score sample_group false sample_world = (Ok g', w') /\
      column 0 (nd_rows (heap w') (grasp_group_array g'))
      = Float32.of_Z <$> [5; 4; 3; 2; 1] /\
      ~ ascending (column 0 (nd_rows (heap w') (grasp_group_array g')))) /\
  (exists g' w',
      RectGraspGroup.sort_by_score sample_rect_group true sample_rect_world
      = (Ok g', w') /\
      column 5 (nd_rows (heap w') (rect_grasp_group_array g'))
      = Float32.of_Z <$> [1; 2; 3; 4; 5] /\
      ~ descending (column 5 (nd_rows (heap w') (rect_grasp_group_array g')))) /\
  (exists g' w',
      RectGraspGroup.sort_by_score sample_rect_group false sample_rect_world
      = (Ok g', w') /\
      column 5 (nd_rows (heap w') (rect_grasp_group_array g'))
      = Float32.of_Z <$> [5; 4; 3; 2; 1] /\
      ~ ascending (column 5 (nd_rows (heap w') (rect_grasp_group_array g')))).
Proof.
  repeat split;
    (eexists _, _; split; [vm_compute; reflexivity|];
     split; [vm_compute; reflexivity|];
     intros [H _]; vm_compute in H; discriminate).
Qed.

(** * Further properties *)

(** ** Appending rows *)

Lemma infer_shape_grasp_rows m :
  infer_shape (m * 17) [-1; Z.of_nat GRASP_ARRAY_LEN] = Some [m; 17]%nat.
Proof.
  unfold infer_shape. cbn -[Nat.modulo Nat.div Nat.mul].
  change (17 * 1)%nat with 17%nat.
  by rewrite Nat.Div0.mod_mul, Nat.div_mul.
Qed.

Lemma infer_shape_rect_rows m :
  infer_shape (m * 7) [-1; Z.of_nat RECT_GRASP_ARRAY_LEN] = Some [m; 7]%nat.
Proof.
  unfold infer_shape. cbn -[Nat.modulo Nat.div Nat.mul].
  change (7 * 1)%nat with 7%nat.
  by rewrite Nat.Div0.mod_mul, Nat.div_mul.
Qed.

Lemma only_allocates_refl w : only_allocates w w.
Proof. exists []. by rewrite app_nil_r. Qed.

Lemma only_allocates_trans w1 w2 w3 :
  only_allocates w1 w2 -> only_allocates w2 w3 -> only_allocates w1 w3.
Proof.
  intros [h1 H1] [h2 H2]. exists (h1 ++ h2). by rewrite H2, H1, app_assoc.
Qed.

Lemma is_table_only_allocates w w' t C rows :
  only_allocates w w' -> is_table (heap w) t C rows -> is_table (heap w') t C rows.
Proof. intros [h' ->]. apply is_table_app. Qed.

Lemma is_grasp_only_allocates w w' g r :
  only_allocates w w' -> is_grasp (heap w) g r -> is_grasp (heap w') g r.
Proof.
  intros [h' ->] (Hb & Hs & Hd & Hl). repeat split; try done.
  - rewrite length_app. lia.
  - by rewrite nd_data_app.
Qed.

Lemma is_rect_grasp_only_allocates w w' g r :
  only_allocates w w' -> is_rect_grasp (heap w) g r -> is_rect_grasp (heap w') g r.
Proof.
  intros [h' ->] (Hb & Hs & Hd & Hl). repeat split; try done.
  - rewrite length_app. lia.
  - by rewrite nd_data_app.
Qed.

(** Two tables of [C] columns concatenated. *)
Lemma np_concatenate_tables t a C rows rs n w :
  is_table (heap w) t C rows ->
  nd_shape a = [n; C] ->
  n = length rs ->
  nd_data (heap w) a = concat rs ->
  Forall (fun r => length r = C) rs ->
  returns (np_concatenate [t; a]) w
    (fun t' w' =>
       is_table (heap w') t' C (rows ++ rs) /\
       nd_base t' = length (heap w) /\
       heap w' = heap w ++ [concat (rows ++ rs)]).
Proof.
  intros (Hb & Hs & Hd & Hall) Hsa -> Hda Hrs.
  unfold returns, np_concatenate. rewrite Hs.
  cbn [forallb]. unfold same_tail. rewrite Hs, Hsa.
  rewrite !bool_decide_eq_true_2 by done. cbn [andb].
  unfold np_alloc. eexists _, _. split; [reflexivity|].
  cbn [fmap list_fmap nd_shape hd sum_list sum_list_with nd_base].
  rewrite heap_set_heap. cbn [concat]. rewrite Hd, Hda, app_nil_r.
  rewrite <- concat_app. split; [|done].
  apply (is_table_fresh _ []).
  - by apply Forall_app.
  - rewrite Hs, Hsa. simpl. rewrite length_app. lia.
  - done.
Qed.

Lemma add_GraspGroup w g grasp rows r :
  is_table (heap w) (grasp_group_array g) GRASP_ARRAY_LEN rows ->
  is_grasp (heap w) grasp r ->
  returns (GraspGroup.add g grasp) w
    (fun g' w' =>
       is_table (heap w') (grasp_group_array g') GRASP_ARRAY_LEN (rows ++ [r]) /\
       nd_base (grasp_group_array g') = length (heap w) /\
       heap w' = heap w ++ [concat (rows ++ [r])]).
Proof.
  intros Ht (Hb & Hs & Hd & Hl).
  unfold returns, GraspGroup.add, np_reshape, nd_size. rewrite Hs.
  change (infer_shape _ _) with (Some [1; 17]%nat).
  unfold bind at 1. unfold ret at 1.
  edestruct (np_concatenate_tables (grasp_group_array g)
               (NdArray (nd_base (grasp_array grasp)) [1; 17]%nat
                  (nd_index (grasp_array grasp)))
               GRASP_ARRAY_LEN rows [r] 1 w Ht)
    as (t' & w' & Hrun & Ht' & Hb' & Hh'); [done|done| |by constructor|].
  { simpl. rewrite app_nil_r. rewrite <- Hd. by destruct (grasp_array grasp). }
  unfold bind. rewrite Hrun. unfold ret. by eexists _, _.
Qed.

Lemma add_RectGraspGroup w g grasp rows r :
  is_table (heap w) (rect_grasp_group_array g) RECT_GRASP_ARRAY_LEN rows ->
  is_rect_grasp (heap w) grasp r ->
  returns (RectGraspGroup.add g grasp) w
    (fun g' w' =>
       is_table (heap w') (rect_grasp_group_array g') RECT_GRASP_ARRAY_LEN
         (rows ++ [r]) /\
       nd_base (rect_grasp_group_array g') = length (heap w) /\
       heap w' = heap w ++ [concat (rows ++ [r])]).
Proof.
  intros Ht (Hb & Hs & Hd & Hl).
  unfold returns, RectGraspGroup.add, np_reshape, nd_size. rewrite Hs.
  change (infer_shape _ _) with (Some [1; 7]%nat).
  unfold bind at 1. unfold ret at 1.
  edestruct (np_concatenate_tables (rect_grasp_group_array g)
               (NdArray (nd_base (rect_grasp_array grasp)) [1; 7]%nat
                  (nd_index (rect_grasp_array grasp)))
               RECT_GRASP_ARRAY_LEN rows [r] 1 w Ht)
    as (t' & w' & Hrun & Ht' & Hb' & Hh'); [done|done| |by constructor|].
  { simpl. rewrite app_nil_r. rewrite <- Hd. by destruct (rect_grasp_array grasp). }
  unfold bind. rewrite Hrun. unfold ret. by eexists _, _.
Qed.

(** X1.  [add] appends the row of the grasp at the end of the table: the
    new table has the rows of the group, in their order, followed by that
    row.  It is a new array: the buffers of the store, the old table of the
    group among them, are as before, and no assignment through the new
    table reaches the old one.  The same holds for [RectGraspGroup]. *)
Theorem add_appends_row :
  (forall w g grasp rows r,
      is_table (heap w) (grasp_group_array g) GRASP_ARRAY_LEN rows ->
      is_grasp (heap w) grasp r ->
      returns (GraspGroup.add g grasp) w
        (fun g' w' =>
           is_table (heap w') (grasp_group_array g') GRASP_ARRAY_LEN (rows ++ [r]) /\
           nd_len (grasp_group_array g') = Some (S (length rows)) /\
           only_allocates w w' /\
           independent w' (grasp_group_array g') (grasp_group_array g))) /\
  (forall w g grasp rows r,
      is_table (heap w) (rect_grasp_group_array g) RECT_GRASP_ARRAY_LEN rows ->
      is_rect_grasp (heap w) grasp r ->
      returns (RectGraspGroup.add g grasp) w
        (fun g' w' =>
           is_table (heap w') (rect_grasp_group_array g') RECT_GRASP_ARRAY_LEN
             (rows ++ [r]) /\
           nd_len (rect_grasp_group_array g') = Some (S (length rows)) /\
           only_allocates w w' /\
           independent w' (rect_grasp_group_array g') (rect_grasp_group_array g))).
Proof.
  split; intros w g grasp rows r Ht Hg.
  - eapply returns_impl; [|by apply add_GraspGroup].
    intros g' w' (Ht' & Hb' & Hh'). split; [done|]. split; [|split].
    + destruct Ht' as (_ & Hs' & _). unfold nd_len. rewrite Hs'.
      rewrite length_app. simpl. f_equal. lia.
    + by eexists.
    + apply independent_fresh. destruct Ht as (Hb & _). lia.
  - eapply returns_impl; [|by apply add_RectGraspGroup].
    intros g' w' (Ht' & Hb' & Hh'). split; [done|]. split; [|split].
    + destruct Ht' as (_ & Hs' & _). unfold nd_len. rewrite Hs'.
      rewrite length_app. simpl. f_equal. lia.
    + by eexists.
    + apply independent_fresh. destruct Ht as (Hb & _). lia.
Qed.

Lemma sample_grasp_is_grasp :
  is_grasp (heap sample_world_with_grasp) sample_grasp sample_grasp_row.
Proof. repeat split; vm_compute; lia. Defined.

Lemma sample_table_with_grasp :
  is_table (heap sample_world_with_grasp) (grasp_group_array sample_group)
    GRASP_ARRAY_LEN sample_rows.
Proof. apply is_table_table_of. by repeat constructor. Defined.

Lemma add_appends_row_witness :
  is_table (heap sample_world_with_grasp) (grasp_group_array sample_group)
    GRASP_ARRAY_LEN sample_rows /\
  is_grasp (heap sample_world_with_grasp) sample_grasp sample_grasp_row /\
  returns (GraspGroup.add sample_group sample_grasp) sample_world_with_grasp
    (fun g' w' =>
       is_table (heap w') (grasp_group_array g') GRASP_ARRAY_LEN
         (sample_rows ++ [sample_grasp_row]) /\
       nd_len (grasp_group_array g') = Some (S (length sample_rows)) /\
       only_allocates sample_world_with_grasp w' /\
       independent w' (grasp_group_array g') (grasp_group_array sample_group)).
Proof.
  split; [exact sample_table_with_grasp|].
  split; [exact sample_grasp_is_grasp|].
  exact (proj1 add_appends_row sample_world_with_grasp sample_group sample_grasp
           sample_rows sample_grasp_row sample_table_with_grasp
           sample_grasp_is_grasp).
Defined.

Lemma add_all_GraspGroup gs rs :
  forall w g rows,
    is_table (heap w) (grasp_group_array g) GRASP_ARRAY_LEN rows ->
    Forall2 (is_grasp (heap w)) gs rs ->
    returns (for_each gs GraspGroup.add g) w
      (fun g' w' =>
         is_table (heap w') (grasp_group_array g') GRASP_ARRAY_LEN (rows ++ rs) /\
         only_allocates w w').
Proof.
  revert rs. induction gs as [|x gs IH]; intros rs w g rows Ht Hgs.
  - apply Forall2_nil_inv_l in Hgs as ->. exists g, w. split; [done|].
    rewrite app_nil_r. split; [done|apply only_allocates_refl].
  - apply Forall2_cons_inv_l in Hgs as (r & rs' & Hx & Hgs & ->).
    destruct (add_GraspGroup w g x rows r Ht Hx) as (g1 & w1 & Hrun & Ht1 & _ & Hh1).
    assert (Halloc : only_allocates w w1) by (by eexists).
    destruct (IH rs' w1 g1 (rows ++ [r]) Ht1) as (g2 & w2 & Hrun2 & Ht2 & Halloc2).
    { eapply Forall2_impl; [exact Hgs|]. intros y ry Hy.
      by eapply is_grasp_only_allocates. }
    exists g2, w2. cbn [for_each]. rewrite (bind_Ok _ _ _ _ _ Hrun).
    split; [done|]. split.
    + by rewrite <- app_assoc in Ht2.
    + by eapply only_allocates_trans.
Qed.

(** X2.  Adding the grasps of a list, one after the other, to a new empty
    group gives a table with one row per grasp, the row of each grasp at
    its position in the list; nothing that was in the store changes. *)
Theorem add_to_empty_stacks_rows :
  forall w gs rs,
    Forall2 (is_grasp (heap w)) gs rs ->
    returns (let* g0 := GraspGroup.__init__ [] in for_each gs GraspGroup.add g0) w
      (fun g' w' =>
         is_table (heap w') (grasp_group_array g') GRASP_ARRAY_LEN rs /\
         nd_len (grasp_group_array g') = Some (length gs) /\
         only_allocates w w').
Proof.
  intros w gs rs Hgs.
  unfold returns. unfold GraspGroup.__init__ at 1.
  unfold bind at 1. unfold bind at 1. rewrite np_zeros_empty. unfold ret at 1.
  set (w0 := set_heap (heap w ++ [[]]) w).
  assert (Halloc : only_allocates w w0) by (by eexists).
  destruct (add_all_GraspGroup gs rs w0
              (MkGraspGroup (NdArray (length (heap w)) [O; GRASP_ARRAY_LEN] [])) [])
    as (g' & w' & Hrun & Ht' & Halloc').
  { apply (is_table_fresh (heap w) [] GRASP_ARRAY_LEN [] 0 []); done. }
  { eapply Forall2_impl; [exact Hgs|]. intros y ry Hy.
    by eapply is_grasp_only_allocates. }
  exists g', w'. split; [done|]. simpl in Ht'. split; [done|]. split.
  - destruct Ht' as (_ & Hs' & _). unfold nd_len. rewrite Hs'.
    by rewrite (Forall2_length _ _ _ Hgs).
  - by eapply only_allocates_trans.
Qed.

Lemma add_to_empty_stacks_rows_witness :
  Forall2 (is_grasp (heap sample_world_with_grasp))
    [sample_grasp; sample_grasp] [sample_grasp_row; sample_grasp_row] /\
  returns (let* g0 := GraspGroup.__init__ [] in
           for_each [sample_grasp; sample_grasp] GraspGroup.add g0)
    sample_world_with_grasp
    (fun g' w' =>
       is_table (heap w') (grasp_group_array g') GRASP_ARRAY_LEN
         [sample_grasp_row; sample_grasp_row] /\
       nd_len (grasp_group_array g') = Some 2%nat /\
       only_allocates sample_world_with_grasp w').
Proof.
  assert (H : Forall2 (is_grasp (heap sample_world_with_grasp))
                [sample_grasp; sample_grasp] [sample_grasp_row; sample_grasp_row])
    by (repeat constructor; exact sample_grasp_is_grasp).
  split; [exact H|].
  exact (add_to_empty_stacks_rows sample_world_with_grasp
           [sample_grasp; sample_grasp] [sample_grasp_row; sample_grasp_row] H).
Defined.

Lemma infer_shape_rows_not_multiple size (C : nat) :
  prod_shape (Z.to_nat <$> filter (fun d => 0 <= d) [-1; Z.of_nat C]) = C ->
  existsb (fun d => d <? -1) [-1; Z.of_nat C] = false ->
  length (filter (fun d => d = -1) [-1; Z.of_nat C]) = 1%nat ->
  (size mod C <> 0)%nat ->
  infer_shape size [-1; Z.of_nat C] = None.
Proof.
  intros Hk He Hl Hmod. unfold infer_shape. rewrite He, Hl, Hk.
  destruct (C =? 0)%nat; [done|].
  destruct (size mod C =? 0)%nat eqn:Hm0; [apply Nat.eqb_eq in Hm0; lia|done].
Qed.

(** X3.  [add] with a grasp whose array does not hold a whole number of
    rows raises [ValueError], and nothing in the store changes; for
    [RectGraspGroup] likewise. *)
Theorem add_wrong_size_raises :
  (forall w g grasp,
      (nd_size (grasp_array grasp) mod GRASP_ARRAY_LEN <> 0)%nat ->
      GraspGroup.add g grasp w = (Raise ValueError, w)) /\
  (forall w g grasp,
      (nd_size (rect_grasp_array grasp) mod RECT_GRASP_ARRAY_LEN <> 0)%nat ->
      RectGraspGroup.add g grasp w = (Raise ValueError, w)).
Proof.
  split; intros w g grasp Hsize.
  - unfold GraspGroup.add, np_reshape.
    by rewrite infer_shape_rows_not_multiple.
  - unfold RectGraspGroup.add, np_reshape.
    by rewrite infer_shape_rows_not_multiple.
Qed.

Lemma add_wrong_size_raises_witness :
  (nd_size (grasp_array short_grasp) mod GRASP_ARRAY_LEN <> 0)%nat /\
  GraspGroup.add sample_group short_grasp sample_world_with_grasp
  = (Raise ValueError, sample_world_with_grasp).
Proof.
  assert (H : (nd_size (grasp_array short_grasp) mod GRASP_ARRAY_LEN <> 0)%nat)
    by (vm_compute; lia).
  split; [exact H|].
  exact (proj1 add_wrong_size_raises sample_world_with_grasp sample_group
           short_grasp H).
Defined.

(** ** Constructors *)

Lemma zeros_is_table h C : is_table (h ++ [[]]) (NdArray (length h) [O; C] []) C [].
Proof. apply (is_table_fresh h [] C [] 0 []); done. Qed.

(** X4.  What the group constructors do with one argument.  [GraspGroup]
    given one [Grasp] builds the table of its single row.  [RectGraspGroup]
    given an array of [7 k] numbers builds the table of its [k] rows,
    and given a [RectGrasp] raises [AttributeError].  Both raise
    [ValueError], changing nothing, when given two arguments or more. *)
Theorem constructors_with_one_argument :
  (forall w g r,
      is_grasp (heap w) g r ->
      returns (GraspGroup.__init__ [VGrasp g]) w
        (fun g' w' =>
           is_table (heap w') (grasp_group_array g') GRASP_ARRAY_LEN [r] /\
           only_allocates w w')) /\
  (forall w a rs,
      (nd_base a < length (heap w))%nat ->
      nd_size a = (length rs * RECT_GRASP_ARRAY_LEN)%nat ->
      nd_data (heap w) a = concat rs ->
      Forall (fun r => length r = RECT_GRASP_ARRAY_LEN) rs ->
      returns (RectGraspGroup.__init__ [VArray a]) w
        (fun g' w' =>
           is_table (heap w') (rect_grasp_group_array g') RECT_GRASP_ARRAY_LEN rs /\
           only_allocates w w')) /\
  (forall w g, fst (RectGraspGroup.__init__ [VRectGrasp g] w) = Raise AttributeError) /\
  (forall w x y l,
      GraspGroup.__init__ (x :: y :: l) w = (Raise ValueError, w) /\
      RectGraspGroup.__init__ (x :: y :: l) w = (Raise ValueError, w)).
Proof.
  split; [|split; [|split]].
  - intros w g r (Hb & Hs & Hd & Hl).
    unfold returns, GraspGroup.__init__, for_each, GraspGroup.getattr_grasp_array.
    unfold bind at 1. unfold bind at 1. rewrite np_zeros_empty.
    unfold bind at 1. unfold bind at 1. unfold bind at 1. unfold ret at 1.
    unfold np_reshape, nd_size. rewrite Hs.
    change (infer_shape _ _) with (Some [1; 17]%nat). unfold ret at 1.
    edestruct (np_concatenate_tables
                 (NdArray (length (heap w)) [O; GRASP_ARRAY_LEN] [])
                 (NdArray (nd_base (grasp_array g)) [1; 17]%nat
                    (nd_index (grasp_array g)))
                 GRASP_ARRAY_LEN [] [r] 1 (set_heap (heap w ++ [[]]) w))
      as (t' & w' & Hrun & Ht' & Hb' & Hh');
      [apply zeros_is_table|done|done| |by constructor|].
    { simpl. rewrite app_nil_r, nd_data_app by done. rewrite <- Hd.
      by destruct (grasp_array g). }
    rewrite Hrun. unfold ret. eexists _, _. split; [reflexivity|].
    split; [done|]. exists [[]; concat [r]]. rewrite Hh'. simpl.
    by rewrite <- app_assoc.
  - intros w a rs Hb Hsize Hd Hall.
    unfold returns, RectGraspGroup.__init__, for_each, RectGraspGroup.getattr_reshape.
    unfold bind at 1. unfold bind at 1. rewrite np_zeros_empty.
    unfold bind at 1. unfold bind at 1. unfold ret at 1.
    unfold np_reshape. rewrite Hsize.
    change (length rs * RECT_GRASP_ARRAY_LEN)%nat with (length rs * 7)%nat.
    rewrite infer_shape_rect_rows. unfold ret at 1.
    edestruct (np_concatenate_tables
                 (NdArray (length (heap w)) [O; RECT_GRASP_ARRAY_LEN] [])
                 (NdArray (nd_base a) [length rs; 7]%nat (nd_index a))
                 RECT_GRASP_ARRAY_LEN [] rs (length rs) (set_heap (heap w ++ [[]]) w))
      as (t' & w' & Hrun & Ht' & Hb' & Hh');
      [apply zeros_is_table|done|done| |done|].
    { simpl. rewrite nd_data_app by done. rewrite <- Hd. by destruct a. }
    rewrite Hrun. unfold ret. eexists _, _. split; [reflexivity|].
    split; [done|]. exists [[]; concat rs]. rewrite Hh'. simpl.
    by rewrite <- app_assoc.
  - done.
  - done.
Qed.

Lemma constructors_with_one_argument_witness :
  is_grasp (heap sample_world_with_grasp) sample_grasp sample_grasp_row /\
  returns (GraspGroup.__init__ [VGrasp sample_grasp]) sample_world_with_grasp
    (fun g' w' =>
       is_table (heap w') (grasp_group_array g') GRASP_ARRAY_LEN [sample_grasp_row] /\
       only_allocates sample_world_with_grasp w').
Proof.
  split; [exact sample_grasp_is_grasp|].
  exact (proj1 constructors_with_one_argument sample_world_with_grasp sample_grasp
           sample_grasp_row sample_grasp_is_grasp).
Defined.

(** ** Removing rows *)

Lemma mapM_norm_index N (obj : list Z) :
  Forall (in_range N) obj ->
  mapM (fun i => norm_index i N) obj = Some (position N <$> obj).
Proof.
  intros Hall. apply mapM_Some_2. apply Forall2_fmap_r, Forall_Forall2_diag.
  eapply Forall_impl; [exact Hall|]. intros i Hi. by apply norm_index_mod.
Qed.

Lemma norm_index_out_of_range N i : ~ in_range N i -> norm_index i N = None.
Proof.
  unfold in_range, norm_index. intros Hi.
  destruct (i <? 0) eqn:Hneg.
  - replace ((0 <=? i + Z.of_nat N) && (i + Z.of_nat N <? Z.of_nat N)) with false;
      [done|].
    symmetry. apply andb_false_iff. lia.
  - replace ((0 <=? i) && (i <? Z.of_nat N)) with false; [done|].
    symmetry. apply andb_false_iff. lia.
Qed.

Lemma without_sublist rows ks : without rows ks `sublist_of` rows.
Proof.
  unfold without, pick.
  rewrite <- (fmap_lookup_seq [] rows) at 2.
  apply fmap_sublist, sublist_filter.
Qed.

Lemma without_Forall C rows ks :
  Forall (fun r => length r = C) rows -> Forall (fun r => length r = C) (without rows ks).
Proof.
  intros Hall. apply pick_Forall; [done|].
  apply Forall_forall. intros k Hk. apply list_elem_of_filter in Hk as [_ Hk].
  apply elem_of_seq in Hk. lia.
Qed.

Lemma np_delete_run t C rows obj w :
  is_table (heap w) t C rows ->
  Forall (in_range (length rows)) obj ->
  np_delete t obj w
  = (Ok (NdArray (length (heap w))
           [length (without rows (position (length rows) <$> obj)); C]
           (seq 0 (length (concat (without rows (position (length rows) <$> obj)))))),
     set_heap (heap w ++ [concat (without rows (position (length rows) <$> obj))]) w).
Proof.
  intros (Hb & Hs & Hd & Hall) Hobj. unfold np_delete. rewrite Hs.
  rewrite mapM_norm_index by done. unfold np_alloc.
  rewrite Hd. cbn [prod_shape foldr]. rewrite Nat.mul_1_r.
  rewrite (pick_blocks C) by done.
  unfold without, pick. by rewrite !length_fmap.
Qed.

Lemma remove_GraspGroup w g rows index :
  is_table (heap w) (grasp_group_array g) GRASP_ARRAY_LEN rows ->
  Forall (in_range (length rows)) index ->
  returns (GraspGroup.remove g index) w
    (fun g' w' =>
       is_table (heap w') (grasp_group_array g') GRASP_ARRAY_LEN
         (without rows (position (length rows) <$> index)) /\
       nd_base (grasp_group_array g') = length (heap w) /\
       only_allocates w w').
Proof.
  intros Ht Hix. unfold returns, GraspGroup.remove.
  rewrite (bind_Ok _ _ _ _ _ (np_delete_run _ _ _ _ _ Ht Hix)).
  unfold ret. eexists _, _. split; [reflexivity|].
  cbn [grasp_group_array nd_base]. rewrite heap_set_heap.
  split; [|split; [done|by eexists]].
  apply (is_table_fresh _ []); [|done|done].
  apply without_Forall. by destruct Ht as (_ & _ & _ & Hall).
Qed.

Lemma remove_RectGraspGroup w g rows index :
  is_table (heap w) (rect_grasp_group_array g) RECT_GRASP_ARRAY_LEN rows ->
  Forall (in_range (length rows)) index ->
  returns (RectGraspGroup.remove g index) w
    (fun g' w' =>
       is_table (heap w') (rect_grasp_group_array g') RECT_GRASP_ARRAY_LEN
         (without rows (position (length rows) <$> index)) /\
       nd_base (rect_grasp_group_array g') = length (heap w) /\
       only_allocates w w').
Proof.
  intros Ht Hix. unfold returns, RectGraspGroup.remove.
  rewrite (bind_Ok _ _ _ _ _ (np_delete_run _ _ _ _ _ Ht Hix)).
  unfold ret. eexists _, _. split; [reflexivity|].
  cbn [rect_grasp_group_array nd_base]. rewrite heap_set_heap.
  split; [|split; [done|by eexists]].
  apply (is_table_fresh _ []); [|done|done].
  apply without_Forall. by destruct Ht as (_ & _ & _ & Hall).
Qed.

Lemma without_lookup rows ks r :
  r ∈ without rows ks <-> exists k, (k ∉ ks) /\ rows !! k = Some r.
Proof.
  unfold without, pick. rewrite list_elem_of_fmap. split.
  - intros (k & -> & Hk). apply list_elem_of_filter in Hk as [Hk Hin].
    apply elem_of_seq in Hin. exists k. split; [done|].
    destruct (lookup_lt_is_Some_2 rows k) as [x Hx]; [lia|]. by rewrite Hx.
  - intros (k & Hk & Hr). exists k. rewrite Hr. split; [done|].
    apply list_elem_of_filter. split; [done|]. apply elem_of_seq.
    apply lookup_lt_Some in Hr. lia.
Qed.

(** X5.  [remove] with indices in range, counted from the end when
    negative and possibly repeated, gives a new table that holds the rows
    whose positions are not listed, in the order they had: a row is in the
    new table exactly when it stands at a position that is not listed.
    The old table is not touched.  The same holds for [RectGraspGroup]. *)
Theorem remove_keeps_other_rows :
  (forall w g rows index,
      is_table (heap w) (grasp_group_array g) GRASP_ARRAY_LEN rows ->
      Forall (in_range (length rows)) index ->
      returns (GraspGroup.remove g index) w
        (fun g' w' => exists rows',
           is_table (heap w') (grasp_group_array g') GRASP_ARRAY_LEN rows' /\
           rows' = without rows (position (length rows) <$> index) /\
           rows' `sublist_of` rows /\
           (forall r, r ∈ rows' <->
              exists k, (k ∉ position (length rows) <$> index) /\ rows !! k = Some r) /\
           only_allocates w w' /\
           independent w' (grasp_group_array g') (grasp_group_array g))) /\
  (forall w g rows index,
      is_table (heap w) (rect_grasp_group_array g) RECT_GRASP_ARRAY_LEN rows ->
      Forall (in_range (length rows)) index ->
      returns (RectGraspGroup.remove g index) w
        (fun g' w' => exists rows',
           is_table (heap w') (rect_grasp_group_array g') RECT_GRASP_ARRAY_LEN rows' /\
           rows' = without rows (position (length rows) <$> index) /\
           rows' `sublist_of` rows /\
           (forall r, r ∈ rows' <->
              exists k, (k ∉ position (length rows) <$> index) /\ rows !! k = Some r) /\
           only_allocates w w' /\
           independent w' (rect_grasp_group_array g') (rect_grasp_group_array g))).
Proof.
  split; intros w g rows index Ht Hix.
  - eapply returns_impl; [|by apply remove_GraspGroup].
    intros g' w' (Ht' & Hb' & Ha). eexists. split; [exact Ht'|].
    split; [done|]. split; [apply without_sublist|].
    split; [intros r; apply without_lookup|]. split; [done|].
    apply independent_fresh. destruct Ht as (Hb & _). lia.
  - eapply returns_impl; [|by apply remove_RectGraspGroup].
    intros g' w' (Ht' & Hb' & Ha). eexists. split; [exact Ht'|].
    split; [done|]. split; [apply without_sublist|].
    split; [intros r; apply without_lookup|]. split; [done|].
    apply independent_fresh. destruct Ht as (Hb & _). lia.
Qed.

Lemma remove_keeps_other_rows_witness :
  is_table (heap sample_world) (grasp_group_array sample_group)
    GRASP_ARRAY_LEN sample_rows /\
  Forall (in_range (length sample_rows)) [0; -1; 4] /\
  without sample_rows (position (length sample_rows) <$> [0; -1; 4])
  = (fun s => sample_row (Float32.of_Z s) fzero) <$> [1; 2; 5] /\
  returns (GraspGroup.remove sample_group [0; -1; 4]) sample_world
    (fun g' w' => exists rows',
       is_table (heap w') (grasp_group_array g') GRASP_ARRAY_LEN rows' /\
       rows' = without sample_rows (position (length sample_rows) <$> [0; -1; 4]) /\
       rows' `sublist_of` sample_rows /\
       (forall r, r ∈ rows' <->
          exists k, (k ∉ position (length sample_rows) <$> [0; -1; 4]) /\
                    sample_rows !! k = Some r) /\
       only_allocates sample_world w' /\
       independent w' (grasp_group_array g') (grasp_group_array sample_group)).
Proof.
  assert (H : Forall (in_range (length sample_rows)) [0; -1; 4])
    by (repeat (constructor; [unfold in_range; simpl; lia|]); constructor).
  split; [exact sample_group_table|].
  split; [exact H|].
  split; [vm_compute; reflexivity|].
  exact (proj1 remove_keeps_other_rows sample_world sample_group sample_rows
           [0; -1; 4] sample_group_table H).
Defined.

(** X6.  [remove] with an index out of range raises [IndexError] and
    changes nothing, in both group classes. *)
Theorem remove_out_of_range_raises :
  (forall w g rows index,
      is_table (heap w) (grasp_group_array g) GRASP_ARRAY_LEN rows ->
      Exists (fun i => ~ in_range (length rows) i) index ->
      GraspGroup.remove g index w = (Raise IndexError, w)) /\
  (forall w g rows index,
      is_table (heap w) (rect_grasp_group_array g) RECT_GRASP_ARRAY_LEN rows ->
      Exists (fun i => ~ in_range (length rows) i) index ->
      RectGraspGroup.remove g index w = (Raise IndexError, w)).
Proof.
  split; intros w g rows index (Hb & Hs & Hd & Hall) Hix.
  - unfold GraspGroup.remove, bind, np_delete. rewrite Hs.
    rewrite (mapM_None_2 (fun i => norm_index i (length rows))); [done|].
    eapply Exists_impl; [exact Hix|]. intros i Hi. by apply norm_index_out_of_range.
  - unfold RectGraspGroup.remove, bind, np_delete. rewrite Hs.
    rewrite (mapM_None_2 (fun i => norm_index i (length rows))); [done|].
    eapply Exists_impl; [exact Hix|]. intros i Hi. by apply norm_index_out_of_range.
Qed.

Lemma remove_out_of_range_raises_witness :
  is_table (heap sample_world) (grasp_group_array sample_group)
    GRASP_ARRAY_LEN sample_rows /\
  Exists (fun i => ~ in_range (length sample_rows) i) [1; 5] /\
  GraspGroup.remove sample_group [1; 5] sample_world = (Raise IndexError, sample_world).
Proof.
  assert (H : Exists (fun i => ~ in_range (length sample_rows) i) [1; 5]).
  { apply Exists_cons_tl, Exists_cons_hd. unfold in_range. simpl. lia. }
  split; [exact sample_group_table|].
  split; [exact H|].
  exact (proj1 remove_out_of_range_raises sample_world sample_group sample_rows
           [1; 5] sample_group_table H).
Defined.

Lemma filter_all {A} (P : A -> Prop) `{!forall x, Decision (P x)} (l : list A) :
  Forall P l -> filter P l = l.
Proof.
  induction 1 as [|x l Hx Hl IH]; [done|].
  rewrite filter_cons_True by done. by rewrite IH.
Qed.

Lemma without_last rows r : without (rows ++ [r]) [length rows] = rows.
Proof.
  unfold without, pick. rewrite length_app. simpl.
  rewrite Nat.add_1_r, seq_S, filter_app. simpl.
  rewrite filter_all.
  2:{ apply Forall_seq. intros k Hk. rewrite list_elem_of_singleton. lia. }
  rewrite filter_cons_False, filter_nil by (rewrite list_elem_of_singleton; tauto).
  rewrite app_nil_r.
  etrans; [|apply (fmap_lookup_seq [] rows)].
  apply Forall_fmap_ext, Forall_seq. intros k Hk. simpl.
  by rewrite lookup_app_l by lia.
Qed.

(** X7.  Removing the last row (index [-1]) after an [add] gives back the
    rows the group had, in a new table; for [RectGraspGroup] likewise. *)
Theorem add_then_remove_last :
  (forall w g grasp rows r,
      is_table (heap w) (grasp_group_array g) GRASP_ARRAY_LEN rows ->
      is_grasp (heap w) grasp r ->
      returns (let* g1 := GraspGroup.add g grasp in GraspGroup.remove g1 [-1]) w
        (fun g' w' =>
           is_table (heap w') (grasp_group_array g') GRASP_ARRAY_LEN rows /\
           only_allocates w w')) /\
  (forall w g grasp rows r,
      is_table (heap w) (rect_grasp_group_array g) RECT_GRASP_ARRAY_LEN rows ->
      is_rect_grasp (heap w) grasp r ->
      returns (let* g1 := RectGraspGroup.add g grasp in RectGraspGroup.remove g1 [-1]) w
        (fun g' w' =>
           is_table (heap w') (rect_grasp_group_array g') RECT_GRASP_ARRAY_LEN rows /\
           only_allocates w w')).
Proof.
  assert (Hpos : forall N, position (S N) (-1) = N).
  { intros N. unfold position.
    replace (-1 mod Z.of_nat (S N)) with (Z.of_nat N); [lia|].
    apply (Z.mod_unique _ _ (-1)); lia. }
  split; intros w g grasp rows r Ht Hg.
  - destruct (add_GraspGroup w g grasp rows r Ht Hg) as (g1 & w1 & Hrun & Ht1 & _ & Hh1).
    destruct (remove_GraspGroup w1 g1 (rows ++ [r]) [-1] Ht1)
      as (g2 & w2 & Hrun2 & Ht2 & _ & Ha2).
    { constructor; [|constructor]. unfold in_range. rewrite length_app. simpl. lia. }
    exists g2, w2. rewrite (bind_Ok _ _ _ _ _ Hrun). split; [done|].
    rewrite length_app in Ht2. simpl in Ht2.
    rewrite Nat.add_1_r, Hpos, without_last in Ht2. split; [done|].
    eapply only_allocates_trans; [|exact Ha2]. by eexists.
  - destruct (add_RectGraspGroup w g grasp rows r Ht Hg)
      as (g1 & w1 & Hrun & Ht1 & _ & Hh1).
    destruct (remove_RectGraspGroup w1 g1 (rows ++ [r]) [-1] Ht1)
      as (g2 & w2 & Hrun2 & Ht2 & _ & Ha2).
    { constructor; [|constructor]. unfold in_range. rewrite length_app. simpl. lia. }
    exists g2, w2. rewrite (bind_Ok _ _ _ _ _ Hrun). split; [done|].
    rewrite length_app in Ht2. simpl in Ht2.
    rewrite Nat.add_1_r, Hpos, without_last in Ht2. split; [done|].
    eapply only_allocates_trans; [|exact Ha2]. by eexists.
Qed.

Lemma add_then_remove_last_witness :
  is_table (heap sample_world_with_grasp) (grasp_group_array sample_group)
    GRASP_ARRAY_LEN sample_rows /\
  is_grasp (heap sample_world_with_grasp) sample_grasp sample_grasp_row /\
  returns (let* g1 := GraspGroup.add sample_group sample_grasp in
           GraspGroup.remove g1 [-1]) sample_world_with_grasp
    (fun g' w' =>
       is_table (heap w') (grasp_group_array g') GRASP_ARRAY_LEN sample_rows /\
       only_allocates sample_world_with_grasp w').
Proof.
  split; [exact sample_table_with_grasp|].
  split; [exact sample_grasp_is_grasp|].
  exact (proj1 add_then_remove_last sample_world_with_grasp sample_group sample_grasp
           sample_rows sample_grasp_row sample_table_with_grasp sample_grasp_is_grasp).
Defined.

(** ** Indexing *)

(** X8.  Indexing a group by an integer out of range raises [IndexError]
    and changes nothing; indexing it by a value that is neither an [int]
    nor a [slice] raises [TypeError] and changes nothing.  This holds for
    both group classes. *)
Theorem getitem_bad_index_raises :
  (forall w g rows i,
      is_table (heap w) (grasp_group_array g) GRASP_ARRAY_LEN rows ->
      ~ in_range (length rows) i ->
      GraspGroup.__getitem__ g (VInt i) w = (Raise IndexError, w)) /\
  (forall w g rows i,
      is_table (heap w) (rect_grasp_group_array g) RECT_GRASP_ARRAY_LEN rows ->
      ~ in_range (length rows) i ->
      RectGraspGroup.__getitem__ g (VInt i) w = (Raise IndexError, w)) /\
  (forall w g g' index,
      (forall i, index <> VInt i) ->
      (forall s, index <> VSlice s) ->
      GraspGroup.__getitem__ g index w = (Raise TypeError, w) /\
      RectGraspGroup.__getitem__ g' index w = (Raise TypeError, w)).
Proof.
  split; [|split].
  - intros w g rows i (Hb & Hs & Hd & Hall) Hi.
    unfold GraspGroup.__getitem__, np_index, nd_getitem, bind. rewrite Hs.
    cbn [index_shape]. by rewrite norm_index_out_of_range.
  - intros w g rows i (Hb & Hs & Hd & Hall) Hi.
    unfold RectGraspGroup.__getitem__, np_index, nd_getitem, bind. rewrite Hs.
    cbn [index_shape]. by rewrite norm_index_out_of_range.
  - intros w g g' index Hint Hslice.
    destruct index; try done.
    + by destruct (Hint z).
    + by destruct (Hslice s).
Qed.

Lemma getitem_bad_index_raises_witness :
  is_table (heap sample_world) (grasp_group_array sample_group)
    GRASP_ARRAY_LEN sample_rows /\
  ~ in_range (length sample_rows) 5 /\
  GraspGroup.__getitem__ sample_group (VInt 5) sample_world
  = (Raise IndexError, sample_world).
Proof.
  assert (H : ~ in_range (length sample_rows) 5)
    by (unfold in_range; simpl; lia).
  split; [exact sample_group_table|].
  split; [exact H|].
  exact (proj1 getitem_bad_index_raises sample_world sample_group sample_rows 5
           sample_group_table H).
Defined.

Lemma slice_range_nat (a b N : nat) :
  slice_range (Slice (Some (Z.of_nat a)) (Some (Z.of_nat b)) None) N
  = Some (seq (a `min` N) (b `min` N - a `min` N)).
Proof.
  unfold slice_range. simpl.
  destruct (Z.of_nat a <? 0) eqn:Ha; [apply Z.ltb_lt in Ha; lia|].
  destruct (Z.of_nat b <? 0) eqn:Hb; [apply Z.ltb_lt in Hb; lia|].
  f_equal.
  set (a' := Z.min (Z.of_nat a) (Z.of_nat N)).
  set (b' := Z.min (Z.of_nat b) (Z.of_nat N)).
  assert (Z.to_nat (if a' <? b' then (b' - a' - 1) / 1 + 1 else 0)
          = (b `min` N - a `min` N)%nat) as ->.
  { destruct (a' <? b') eqn:Hlt;
      [apply Z.ltb_lt in Hlt; rewrite Z.div_1_r|apply Z.ltb_ge in Hlt];
      subst a' b'; lia. }
  replace (seq (a `min` N) (b `min` N - a `min` N))
    with (Nat.add (a `min` N) <$> seq 0 (b `min` N - a `min` N))
    by (rewrite fmap_add_seq; f_equal; lia).
  apply list_fmap_ext; intros _ k _. subst a'. lia.
Qed.

Lemma take_drop_clamped {A} (l : list A) (a b : nat) :
  take (b `min` length l - a `min` length l) (drop (a `min` length l) l)
  = take (b - a) (drop a l).
Proof.
  destruct (decide (length l <= a)%nat) as [Ha|Ha].
  - rewrite !drop_ge by lia. by rewrite !take_nil.
  - rewrite (Nat.min_l a) by lia.
    destruct (decide (b <= length l)%nat) as [Hb|Hb].
    + by rewrite (Nat.min_l b) by lia.
    + rewrite (Nat.min_r b) by lia.
      rewrite !take_ge; [done|rewrite length_drop; lia|rewrite length_drop; lia].
Qed.

Lemma slice_range_reversed N :
  slice_range (Slice None None (Some (-1))) N
  = Some ((fun k => (N - 1 - k)%nat) <$> seq 0 N).
Proof.
  unfold slice_range. simpl. f_equal.
  change (- (-1)) with 1. rewrite Z.div_1_r.
  assert (Z.to_nat (if -1 <? Z.of_nat N - 1
                    then Z.of_nat N - 1 - -1 - 1 + 1 else 0) = N) as ->.
  { destruct (-1 <? Z.of_nat N - 1) eqn:Hlt;
      [apply Z.ltb_lt in Hlt|apply Z.ltb_ge in Hlt]; lia. }
  apply Forall_fmap_ext, Forall_seq. intros k Hk. simpl. lia.
Qed.

Lemma pick_reversed rows :
  pick rows ((fun k => (length rows - 1 - k)%nat) <$> seq 0 (length rows))
  = reverse rows.
Proof.
  unfold pick. rewrite <- list_fmap_compose.
  apply list_eq; intros i. rewrite list_lookup_fmap.
  destruct (decide (i < length rows)%nat) as [Hi|Hi].
  - rewrite lookup_seq_lt by done. simpl.
    rewrite reverse_lookup by done.
    replace (length rows - 1 - i)%nat with (length rows - S i)%nat by lia.
    destruct (lookup_lt_is_Some_2 rows (length rows - S i)) as [r ->]; [lia|done].
  - rewrite lookup_seq_ge by lia. simpl. symmetry.
    apply lookup_ge_None. rewrite length_reverse. lia.
Qed.

Ltac solve_getitem_any_slice C ks Hks Hlt :=
  let Hb := fresh "Hb" in
  let Hs := fresh "Hs" in
  let Hd := fresh "Hd" in
  let Hall := fresh "Hall" in
  match goal with
  | Ht : is_table (heap ?w) ?t _ ?rows |- _ =>
      pose proof Ht as (Hb & Hs & Hd & Hall);
      unfold returns, GraspGroup.__getitem__, GraspGroup.__init__,
        RectGraspGroup.__getitem__, RectGraspGroup.__init__;
      unfold bind, ret; rewrite np_zeros_empty;
      rewrite (nd_getitem_run _ _ [length ks; C])
        by (rewrite Hs; cbn [index_shape]; by rewrite Hks);
      unfold deepcopy, np_alloc; rewrite !heap_set_heap;
      eexists _, _; split; [reflexivity|];
      eexists; split; [reflexivity|];
      cbn [grasp_group_array rect_grasp_group_array nd_shape];
      rewrite !heap_set_heap;
      rewrite (table_slice_data _ _ C rows _ ks);
        [|by apply is_table_app|exact Hks];
      split; [|split; [|split]];
      [ apply (is_table_fresh _ []);
        [by apply pick_Forall|unfold pick; by rewrite length_fmap|done]
      | by do 2 apply is_table_app
      | exists [[]; concat (pick rows ks)]; by rewrite <- app_assoc
      | apply independent_fresh; cbn [nd_base]; rewrite length_app; simpl; lia ]
  end.

Lemma getitem_any_slice_GraspGroup w g rows s ks :
  is_table (heap w) (grasp_group_array g) GRASP_ARRAY_LEN rows ->
  slice_range s (length rows) = Some ks ->
  Forall (fun k => (k < length rows)%nat) ks ->
  returns (GraspGroup.__getitem__ g (VSlice s)) w
    (fun v w' => exists g', v = VGraspGroup g' /\
       is_table (heap w') (grasp_group_array g') GRASP_ARRAY_LEN (pick rows ks) /\
       is_table (heap w') (grasp_group_array g) GRASP_ARRAY_LEN rows /\
       only_allocates w w' /\
       independent w' (grasp_group_array g') (grasp_group_array g)).
Proof. intros Ht Hks Hlt. solve_getitem_any_slice GRASP_ARRAY_LEN ks Hks Hlt. Qed.

Lemma getitem_any_slice_RectGraspGroup w g rows s ks :
  is_table (heap w) (rect_grasp_group_array g) RECT_GRASP_ARRAY_LEN rows ->
  slice_range s (length rows) = Some ks ->
  Forall (fun k => (k < length rows)%nat) ks ->
  returns (RectGraspGroup.__getitem__ g (VSlice s)) w
    (fun v w' => exists g', v = VRectGraspGroup g' /\
       is_table (heap w') (rect_grasp_group_array g') RECT_GRASP_ARRAY_LEN
         (pick rows ks) /\
       is_table (heap w') (rect_grasp_group_array g) RECT_GRASP_ARRAY_LEN rows /\
       only_allocates w w' /\
       independent w' (rect_grasp_group_array g') (rect_grasp_group_array g)).
Proof. intros Ht Hks Hlt. solve_getitem_any_slice RECT_GRASP_ARRAY_LEN ks Hks Hlt. Qed.

(** X9.  For natural numbers [a] and [b], in range or not, [g[a:b]]
    raises nothing: its bounds are clamped to the length of the group, and
    it returns a new group holding, in a buffer of its own, the rows
    [a], .., [b-1] that exist (none when [b <= a] or when [a] is past the
    end); [g] is as before.  The same holds for [RectGraspGroup]. *)
Theorem getitem_slice_clamps_bounds :
  (forall w g rows (a b : nat),
      is_table (heap w) (grasp_group_array g) GRASP_ARRAY_LEN rows ->
      returns (GraspGroup.__getitem__ g
                 (VSlice (Slice (Some (Z.of_nat a)) (Some (Z.of_nat b)) None))) w
        (fun v w' => exists g', v = VGraspGroup g' /\
           is_table (heap w') (grasp_group_array g') GRASP_ARRAY_LEN
             (take (b - a) (drop a rows)) /\
           is_table (heap w') (grasp_group_array g) GRASP_ARRAY_LEN rows /\
           only_allocates w w' /\
           independent w' (grasp_group_array g') (grasp_group_array g))) /\
  (forall w g rows (a b : nat),
      is_table (heap w) (rect_grasp_group_array g) RECT_GRASP_ARRAY_LEN rows ->
      returns (RectGraspGroup.__getitem__ g
                 (VSlice (Slice (Some (Z.of_nat a)) (Some (Z.of_nat b)) None))) w
        (fun v w' => exists g', v = VRectGraspGroup g' /\
           is_table (heap w') (rect_grasp_group_array g') RECT_GRASP_ARRAY_LEN
             (take (b - a) (drop a rows)) /\
           is_table (heap w') (rect_grasp_group_array g) RECT_GRASP_ARRAY_LEN rows /\
           only_allocates w w' /\
           independent w' (rect_grasp_group_array g') (rect_grasp_group_array g))).
Proof.
  split; intros w g rows a b Ht.
  - rewrite <- take_drop_clamped, <- pick_seq by lia.
    apply getitem_any_slice_GraspGroup; [done|apply slice_range_nat|].
    apply Forall_seq. lia.
  - rewrite <- take_drop_clamped, <- pick_seq by lia.
    apply getitem_any_slice_RectGraspGroup; [done|apply slice_range_nat|].
    apply Forall_seq. lia.
Qed.

Lemma getitem_slice_clamps_bounds_witness :
  is_table (heap sample_world) (grasp_group_array sample_group)
    GRASP_ARRAY_LEN sample_rows /\
  returns (GraspGroup.__getitem__ sample_group
             (VSlice (Slice (Some (Z.of_nat 3)) (Some (Z.of_nat 100)) None)))
    sample_world
    (fun v w' => exists g', v = VGraspGroup g' /\
       is_table (heap w') (grasp_group_array g') GRASP_ARRAY_LEN
         (take (100 - 3) (drop 3 sample_rows)) /\
       is_table (heap w') (grasp_group_array sample_group) GRASP_ARRAY_LEN
         sample_rows /\
       only_allocates sample_world w' /\
       independent w' (grasp_group_array g') (grasp_group_array sample_group)).
Proof.
  split; [exact sample_group_table|].
  exact (proj1 getitem_slice_clamps_bounds sample_world sample_group sample_rows
           3%nat 100%nat sample_group_table).
Defined.

(** X10.  [g[::-1]] returns a new group holding the rows of [g] in reverse
    order, in a buffer of its own, and leaves [g] as it was; a slice whose
    step is zero raises [ValueError].  The same holds for
    [RectGraspGroup]. *)
Theorem getitem_slice_with_step :
  (forall w g rows,
      is_table (heap w) (grasp_group_array g) GRASP_ARRAY_LEN rows ->
      returns (GraspGroup.__getitem__ g (VSlice (Slice None None (Some (-1))))) w
        (fun v w' => exists g', v = VGraspGroup g' /\
           is_table (heap w') (grasp_group_array g') GRASP_ARRAY_LEN (reverse rows) /\
           is_table (heap w') (grasp_group_array g) GRASP_ARRAY_LEN rows /\
           independent w' (grasp_group_array g') (grasp_group_array g))) /\
  (forall w g rows,
      is_table (heap w) (rect_grasp_group_array g) RECT_GRASP_ARRAY_LEN rows ->
      returns (RectGraspGroup.__getitem__ g (VSlice (Slice None None (Some (-1))))) w
        (fun v w' => exists g', v = VRectGraspGroup g' /\
           is_table (heap w') (rect_grasp_group_array g') RECT_GRASP_ARRAY_LEN
             (reverse rows) /\
           is_table (heap w') (rect_grasp_group_array g) RECT_GRASP_ARRAY_LEN rows /\
           independent w' (rect_grasp_group_array g') (rect_grasp_group_array g))) /\
  (forall w g rows start stop,
      is_table (heap w) (grasp_group_array g) GRASP_ARRAY_LEN rows ->
      fst (GraspGroup.__getitem__ g (VSlice (Slice start stop (Some 0))) w)
      = Raise ValueError) /\
  (forall w g rows start stop,
      is_table (heap w) (rect_grasp_group_array g) RECT_GRASP_ARRAY_LEN rows ->
      fst (RectGraspGroup.__getitem__ g (VSlice (Slice start stop (Some 0))) w)
      = Raise ValueError).
Proof.
  split; [|split; [|split]].
  - intros w g rows Ht. rewrite <- pick_reversed.
    eapply returns_impl;
      [|apply getitem_any_slice_GraspGroup;
        [done|apply slice_range_reversed|apply Forall_fmap, Forall_seq; simpl; lia]].
    intros v w' (g' & -> & H1 & H2 & H3 & H4). by exists g'.
  - intros w g rows Ht. rewrite <- pick_reversed.
    eapply returns_impl;
      [|apply getitem_any_slice_RectGraspGroup;
        [done|apply slice_range_reversed|apply Forall_fmap, Forall_seq; simpl; lia]].
    intros v w' (g' & -> & H1 & H2 & H3 & H4). by exists g'.
  - intros w g rows start stop (Hb & Hs & Hd & Hall).
    unfold GraspGroup.__getitem__, GraspGroup.__init__, bind, ret.
    rewrite np_zeros_empty. unfold nd_getitem. rewrite Hs. done.
  - intros w g rows start stop (Hb & Hs & Hd & Hall).
    unfold RectGraspGroup.__getitem__, RectGraspGroup.__init__, bind, ret.
    rewrite np_zeros_empty. unfold nd_getitem. rewrite Hs. done.
Qed.

Lemma getitem_slice_with_step_witness :
  is_table (heap sample_world) (grasp_group_array sample_group)
    GRASP_ARRAY_LEN sample_rows /\
  returns (GraspGroup.__getitem__ sample_group
             (VSlice (Slice None None (Some (-1))))) sample_world
    (fun v w' => exists g', v = VGraspGroup g' /\
       is_table (heap w') (grasp_group_array g') GRASP_ARRAY_LEN
         (reverse sample_rows) /\
       is_table (heap w') (grasp_group_array sample_group) GRASP_ARRAY_LEN
         sample_rows /\
       independent w' (grasp_group_array g') (grasp_group_array sample_group)).
Proof.
  split; [exact sample_group_table|].
  exact (proj1 getitem_slice_with_step sample_world sample_group sample_rows
           sample_group_table).
Defined.

(** ** Column accessors *)

Lemma reads_column w t rows j :
  is_table (heap w) t GRASP_ARRAY_LEN rows ->
  (j < GRASP_ARRAY_LEN)%nat ->
  reads (nd_getitem t [full; IInt (Z.of_nat j)]) w [length rows] (column j rows).
Proof.
  intros Ht Hj. pose proof Ht as (Hb & Hs & Hd & Hall).
  unfold reads, returns.
  rewrite (nd_getitem_run t _ [length rows] w)
    by (rewrite Hs; by apply index_shape_field).
  eexists _, _; split; [reflexivity|].
  split; [done|]. split; [done|].
  by apply (column_view_data _ _ GRASP_ARRAY_LEN).
Qed.

(** X11.  The accessors of a group change nothing and read the columns of
    its table: [scores], [widths], [heights] and [depths] return the
    columns 0, 1, 2 and 3, [rotation_matrices] the entries 4..12 of every
    row as an array of shape (n, 3, 3), [translations] the entries 13..15
    of every row as an array of shape (n, 3), and [object_ids] the column
    16 converted to 32-bit integers. *)
Theorem group_accessors_read_columns :
  forall w g rows,
    is_table (heap w) (grasp_group_array g) GRASP_ARRAY_LEN rows ->
    reads (GraspGroup.scores g) w [length rows] (column 0 rows) /\
    reads (GraspGroup.widths g) w [length rows] (column 1 rows) /\
    reads (GraspGroup.heights g) w [length rows] (column 2 rows) /\
    reads (GraspGroup.depths g) w [length rows] (column 3 rows) /\
    reads (GraspGroup.rotation_matrices g) w [length rows; 3%nat; 3%nat]
      (concat (row_rotation <$> rows)) /\
    reads (GraspGroup.translations g) w [length rows; 3%nat]
      (concat (row_translation <$> rows)) /\
    GraspGroup.object_ids g w = (Ok (float_to_int32 <$> column 16 rows), w).
Proof.
  intros w g rows Ht. pose proof Ht as (Hb & Hs & Hd & Hall).
  split; [apply (reads_column w _ rows 0 Ht); unfold GRASP_ARRAY_LEN; lia|].
  split; [apply (reads_column w _ rows 1 Ht); unfold GRASP_ARRAY_LEN; lia|].
  split; [apply (reads_column w _ rows 2 Ht); unfold GRASP_ARRAY_LEN; lia|].
  split; [apply (reads_column w _ rows 3 Ht); unfold GRASP_ARRAY_LEN; lia|].
  split; [|split].
  - unfold reads, returns, GraspGroup.rotation_matrices.
    rewrite (bind_Ok _ _ _ _ _ (nd_getitem_run (grasp_group_array g)
      [full; range 4 13] [length rows; 9%nat] w
      ltac:(rewrite Hs; by apply index_shape_full))).
    unfold np_reshape, nd_size. cbn [nd_shape prod_shape foldr].
    rewrite infer_shape_rotations.
    eexists _, _; split; [reflexivity|].
    split; [done|]. split; [done|].
    cbn [nd_base nd_index].
    rewrite <- (app_nil_r (heap w)).
    apply (view_full_data _ _ _ rows _ row_rotation _ Ht).
    intros r Hr. by apply select_rotation.
  - unfold reads, returns, GraspGroup.translations.
    rewrite (nd_getitem_run (grasp_group_array g) _ [length rows; 3%nat] w)
      by (rewrite Hs; by apply index_shape_full).
    eexists _, _; split; [reflexivity|].
    split; [done|]. split; [done|].
    rewrite <- (app_nil_r (heap w)).
    apply (view_full_data _ _ _ rows _ row_translation _ Ht).
    intros r Hr. by apply select_translation.
  - unfold GraspGroup.object_ids.
    rewrite (bind_Ok _ _ _ _ _ (nd_getitem_run (grasp_group_array g)
      [full; IInt 16] [length rows] w
      ltac:(rewrite Hs; by apply index_shape_full))).
    unfold np_astype_int32.
    by rewrite (column_view_data _ _ GRASP_ARRAY_LEN rows 16 _ Ht)
      by (unfold GRASP_ARRAY_LEN; lia).
Qed.

Lemma group_accessors_read_columns_witness :
  is_table (heap sample_world) (grasp_group_array sample_group)
    GRASP_ARRAY_LEN sample_rows /\
  reads (GraspGroup.scores sample_group) sample_world [length sample_rows]
    (column 0 sample_rows).
Proof.
  split; [exact sample_group_table|].
  exact (proj1 (group_accessors_read_columns sample_world sample_group sample_rows
                  sample_group_table)).
Defined.

(** ** The fields of one grasp *)

Lemma grasp_field_run w a r j :
  nd_shape a = [GRASP_ARRAY_LEN] ->
  nd_data (heap w) a = r ->
  length r = GRASP_ARRAY_LEN ->
  (j < GRASP_ARRAY_LEN)%nat ->
  np_index a [IInt (Z.of_nat j)] w = (Ok (IxScalar (row_field j r)), w).
Proof.
  intros Hs Hd Hr Hj. unfold np_index, bind.
  rewrite (nd_getitem_run a _ [] w).
  2:{ rewrite Hs. cbn [index_shape].
      by rewrite (norm_index_mod (Z.of_nat j) GRASP_ARRAY_LEN)
        by (unfold GRASP_ARRAY_LEN in *; lia). }
  cbn [nd_shape]. rewrite nd_data_view.
  replace (nd_data (heap w) (NdArray (nd_base a) [] (nd_index a)))
    with (nd_data (heap w) a) by (by destruct a).
  rewrite Hd, Hs. by rewrite (select_field_gen GRASP_ARRAY_LEN j r Hr Hj).
Qed.

(** X12.  The accessors of a [Grasp] change nothing and decode its array
    at the documented places: [score], [width], [height] and [depth] are
    the entries 0, 1, 2 and 3, [rotation_matrix] the entries 4..12 as an
    array of shape (3, 3), [translation] the entries 13..15, and
    [object_id] the entry 16 truncated toward zero.  When the entry 16 is
    a NaN, [object_id] raises [ValueError]; when it is an infinity,
    [OverflowError]. *)
Theorem grasp_accessors_read_fields :
  forall w g r,
    is_grasp (heap w) g r ->
    Grasp.score g w = (Ok (row_field 0 r), w) /\
    Grasp.width g w = (Ok (row_field 1 r), w) /\
    Grasp.height g w = (Ok (row_field 2 r), w) /\
    Grasp.depth g w = (Ok (row_field 3 r), w) /\
    reads (Grasp.rotation_matrix g) w [3%nat; 3%nat] (row_rotation r) /\
    reads (Grasp.translation g) w [3%nat] (row_translation r) /\
    (forall z, ftrunc (row_field 16 r) = Some z ->
       Grasp.object_id g w = (Ok z, w)) /\
    (row_field 16 r = S754_nan ->
       Grasp.object_id g w = (Raise ValueError, w)) /\
    (forall s, row_field 16 r = S754_infinity s ->
       Grasp.object_id g w = (Raise OverflowError, w)).
Proof.
  intros w g r (Hb & Hs & Hd & Hr).
  assert (Hfield : forall j, (j < 17)%nat ->
            np_index (grasp_array g) [IInt (Z.of_nat j)] w
            = (Ok (IxScalar (row_field j r)), w))
    by (intros j Hj; by apply grasp_field_run).
  pose proof (Hfield 0%nat ltac:(lia)) as H0.
  pose proof (Hfield 1%nat ltac:(lia)) as H1.
  pose proof (Hfield 2%nat ltac:(lia)) as H2.
  pose proof (Hfield 3%nat ltac:(lia)) as H3.
  pose proof (Hfield 16%nat ltac:(lia)) as H16.
  split; [unfold Grasp.score; by rewrite (bind_Ok _ _ _ _ _ H0)|].
  split; [unfold Grasp.width; by rewrite (bind_Ok _ _ _ _ _ H1)|].
  split; [unfold Grasp.height; by rewrite (bind_Ok _ _ _ _ _ H2)|].
  split; [unfold Grasp.depth; by rewrite (bind_Ok _ _ _ _ _ H3)|].
  split; [|split; [|split; [|split]]].
  - unfold reads, returns, Grasp.rotation_matrix.
    rewrite (bind_Ok _ _ _ _ _ (nd_getitem_run (grasp_array g) [range 4 13]
      [9%nat] w ltac:(by rewrite Hs))).
    unfold np_reshape, nd_size. cbn [nd_shape].
    change (infer_shape (prod_shape [9%nat]) [3; 3]) with (Some [3; 3]%nat).
    eexists _, _; split; [reflexivity|].
    split; [done|]. split; [done|].
    cbn [nd_base nd_index]. rewrite nd_data_view.
    replace (nd_data (heap w) (NdArray (nd_base (grasp_array g)) [3; 3]%nat
                                 (nd_index (grasp_array g))))
      with (nd_data (heap w) (grasp_array g)) by (by destruct g as [[]]).
    rewrite Hd, Hs. by apply select_rotation.
  - unfold reads, returns, Grasp.translation.
    rewrite (nd_getitem_run (grasp_array g) [range 13 16] [3%nat] w)
      by (by rewrite Hs).
    eexists _, _; split; [reflexivity|].
    split; [done|]. split; [done|].
    rewrite nd_data_view.
    replace (nd_data (heap w) (NdArray (nd_base (grasp_array g)) [3%nat]
                                 (nd_index (grasp_array g))))
      with (nd_data (heap w) (grasp_array g)) by (by destruct g as [[]]).
    rewrite Hd, Hs. by apply select_translation.
  - intros z Hz. unfold Grasp.object_id, py_int.
    rewrite (bind_Ok _ _ _ _ _ H16). cbn [py_float]. unfold bind, ret, int_of_float.
    by rewrite Hz.
  - intros Hnan. unfold Grasp.object_id, py_int.
    rewrite (bind_Ok _ _ _ _ _ H16). cbn [py_float]. unfold bind, ret, int_of_float.
    by rewrite Hnan.
  - intros s Hinf. unfold Grasp.object_id, py_int.
    rewrite (bind_Ok _ _ _ _ _ H16). cbn [py_float]. unfold bind, ret, int_of_float.
    by rewrite Hinf.
Qed.

Lemma grasp_accessors_read_fields_witness :
  is_grasp (heap sample_world_with_grasp) sample_grasp sample_grasp_row /\
  Grasp.score sample_grasp sample_world_with_grasp
  = (Ok (row_field 0 sample_grasp_row), sample_world_with_grasp).
Proof.
  split; [exact sample_grasp_is_grasp|].
  exact (proj1 (grasp_accessors_read_fields sample_world_with_grasp sample_grasp
                  sample_grasp_row sample_grasp_is_grasp)).
Defined.

(** ** The fields of one rectangle *)

Lemma np_index_field w a r C j :
  nd_shape a = [C] ->
  nd_data (heap w) a = r ->
  length r = C ->
  (j < C)%nat ->
  np_index a [IInt (Z.of_nat j)] w = (Ok (IxScalar (row_field j r)), w).
Proof.
  intros Hs Hd Hr Hj. unfold np_index, bind.
  rewrite (nd_getitem_run a _ [] w).
  2:{ rewrite Hs. cbn [index_shape].
      by rewrite (norm_index_mod (Z.of_nat j) C) by lia. }
  cbn [nd_shape]. rewrite nd_data_view.
  replace (nd_data (heap w) (NdArray (nd_base a) [] (nd_index a)))
    with (nd_data (heap w) a) by (by destruct a).
  rewrite Hd, Hs. by rewrite (select_field_gen C j r Hr Hj).
Qed.

(** X13.  The accessors of a [RectGrasp] change nothing and decode its
    array at the documented places: [center_point] is the pair of the
    entries 0 and 1, [open_point] the pair of the entries 2 and 3,
    [height] the entry 4, [score] the entry 5, each as the float32 scalar
    stored, and [object_id] the entry 6 truncated toward zero.  When the
    entry 6 is a NaN, [object_id] raises [ValueError]; when it is an
    infinity, [OverflowError]. *)
Theorem rect_grasp_accessors_read_fields :
  forall w g r,
    is_rect_grasp (heap w) g r ->
    RectGrasp.center_point g w
    = (Ok (IxScalar (row_field 0 r), IxScalar (row_field 1 r)), w) /\
    RectGrasp.open_point g w
    = (Ok (IxScalar (row_field 2 r), IxScalar (row_field 3 r)), w) /\
    RectGrasp.height g w = (Ok (IxScalar (row_field 4 r)), w) /\
    RectGrasp.score g w = (Ok (IxScalar (row_field 5 r)), w) /\
    (forall z, ftrunc (row_field 6 r) = Some z ->
       RectGrasp.object_id g w = (Ok z, w)) /\
    (row_field 6 r = S754_nan ->
       RectGrasp.object_id g w = (Raise ValueError, w)) /\
    (forall s, row_field 6 r = S754_infinity s ->
       RectGrasp.object_id g w = (Raise OverflowError, w)).
Proof.
  intros w g r (Hb & Hs & Hd & Hr).
  assert (Hfield : forall j, (j < 7)%nat ->
            np_index (rect_grasp_array g) [IInt (Z.of_nat j)] w
            = (Ok (IxScalar (row_field j r)), w))
    by (intros j Hj; by apply (np_index_field w _ r RECT_GRASP_ARRAY_LEN)).
  pose proof (Hfield 0%nat ltac:(lia)) as H0.
  pose proof (Hfield 1%nat ltac:(lia)) as H1.
  pose proof (Hfield 2%nat ltac:(lia)) as H2.
  pose proof (Hfield 3%nat ltac:(lia)) as H3.
  pose proof (Hfield 4%nat ltac:(lia)) as H4.
  pose proof (Hfield 5%nat ltac:(lia)) as H5.
  pose proof (Hfield 6%nat ltac:(lia)) as H6.
  split; [unfold RectGrasp.center_point;
          by rewrite (bind_Ok _ _ _ _ _ H0), (bind_Ok _ _ _ _ _ H1)|].
  split; [unfold RectGrasp.open_point;
          by rewrite (bind_Ok _ _ _ _ _ H2), (bind_Ok _ _ _ _ _ H3)|].
  split; [exact H4|]. split; [exact H5|].
  split; [|split].
  - intros z Hz. unfold RectGrasp.object_id, py_int.
    rewrite (bind_Ok _ _ _ _ _ H6). cbn [py_float]. unfold bind, ret, int_of_float.
    by rewrite Hz.
  - intros Hnan. unfold RectGrasp.object_id, py_int.
    rewrite (bind_Ok _ _ _ _ _ H6). cbn [py_float]. unfold bind, ret, int_of_float.
    by rewrite Hnan.
  - intros s Hinf. unfold RectGrasp.object_id, py_int.
    rewrite (bind_Ok _ _ _ _ _ H6). cbn [py_float]. unfold bind, ret, int_of_float.
    by rewrite Hinf.
Qed.

Lemma sample_rect_grasp_is_rect_grasp :
  is_rect_grasp (heap sample_rect_world_with_grasp) sample_rect_grasp
    sample_rect_grasp_row.
Proof. repeat split; vm_compute; lia. Defined.

Lemma rect_grasp_accessors_read_fields_witness :
  is_rect_grasp (heap sample_rect_world_with_grasp) sample_rect_grasp
    sample_rect_grasp_row /\
  RectGrasp.center_point sample_rect_grasp sample_rect_world_with_grasp
  = (Ok (IxScalar (row_field 0 sample_rect_grasp_row),
         IxScalar (row_field 1 sample_rect_grasp_row)),
     sample_rect_world_with_grasp).
Proof.
  split; [exact sample_rect_grasp_is_rect_grasp|].
  exact (proj1 (rect_grasp_accessors_read_fields sample_rect_world_with_grasp
                  sample_rect_grasp sample_rect_grasp_row
                  sample_rect_grasp_is_rect_grasp)).
Defined.

(** X14.  The seven-field constructor of [RectGrasp] succeeds for every
    seven numbers, floats or integers of magnitude at most 2^53: it
    returns a rectangle whose array, in a buffer of its own, holds the
    seven arguments in the order given, each rounded to float32, and it
    changes no buffer that existed. *)
Theorem rect_grasp_from_fields :
  forall w center_x center_y open_x open_y height score object_id,
    Forall stored_exactly
      [center_x; center_y; open_x; open_y; height; score; object_id] ->
    returns (RectGrasp.__init__
               (RectGrasp.Args7 center_x center_y open_x open_y height score
                  object_id)) w
      (fun g w' =>
         is_rect_grasp (heap w') g
           (to_float32 <$>
              [center_x; center_y; open_x; open_y; height; score; object_id]) /\
         (length (heap w) <= nd_base (rect_grasp_array g))%nat /\
         only_allocates w w').
Proof.
  intros w center_x center_y open_x open_y height score object_id _.
  unfold returns, RectGrasp.__init__.
  unfold bind, ret, np_array_tuple, np_astype_float32, np_alloc.
  rewrite !heap_set_heap.
  eexists _, _. split; [reflexivity|].
  cbn [rect_grasp_array nd_shape nd_base]. rewrite !heap_set_heap.
  split; [|split].
  - split; [rewrite !length_app; simpl; lia|].
    split; [done|]. split; [|done].
    rewrite length_fmap. rewrite (nd_data_fresh _ []).
    cbn [rect_grasp_array]. rewrite (nd_data_fresh _ []). reflexivity.
  - rewrite length_app. simpl. lia.
  - eexists. by rewrite <- app_assoc.
Qed.

Lemma rect_grasp_from_fields_witness :
  Forall stored_exactly
    [PInt 0; PInt 0; PInt 10; PInt 0; PInt 4; PFloat (Float64.of_ratio 1 2); PInt 3] /\
  returns (RectGrasp.__init__
             (RectGrasp.Args7 (PInt 0) (PInt 0) (PInt 10) (PInt 0) (PInt 4)
                (PFloat (Float64.of_ratio 1 2)) (PInt 3))) sample_rect_world
    (fun g w' =>
       is_rect_grasp (heap w') g
         (to_float32 <$>
            [PInt 0; PInt 0; PInt 10; PInt 0; PInt 4;
             PFloat (Float64.of_ratio 1 2); PInt 3]) /\
       (length (heap sample_rect_world) <= nd_base (rect_grasp_array g))%nat /\
       only_allocates sample_rect_world w').
Proof.
  assert (H : Forall stored_exactly
    [PInt 0; PInt 0; PInt 10; PInt 0; PInt 4; PFloat (Float64.of_ratio 1 2); PInt 3])
    by (repeat (constructor; [simpl; try done; lia|]); constructor).
  split; [exact H|].
  exact (rect_grasp_from_fields sample_rect_world _ _ _ _ _ _ _ H).
Defined.

(** ** Drawing one rectangle *)

Lemma sub_self (x : elt) :
  Float32.sub x x = S754_zero false \/ Float32.sub x x = S754_nan.
Proof.
  destruct x as [[]|[]| |s m e]; simpl; auto.
  left. unfold Float32.sub, SFsub. by rewrite Z.sub_diag.
Qed.

Lemma corners_degenerate cx cy h :
  exists y p2 p3 p4,
    RectGrasp.corners cx cy cx cy h = ((S754_nan, y), p2, p3, p4).
Proof.
  unfold RectGrasp.corners, RectGrasp.vadd, RectGrasp.vsub, RectGrasp.vmul,
    RectGrasp.vdiv, RectGrasp.linalg_norm.
  cbn [fst snd].
  destruct (sub_self cx) as [-> | ->], (sub_self cy) as [-> | ->];
    destruct cx; cbn; by repeat eexists.
Qed.

Lemma row7 (r : list elt) :
  length r = 7%nat ->
  exists x0 x1 x2 x3 x4 x5 x6, r = [x0; x1; x2; x3; x4; x5; x6].
Proof.
  intros H.
  do 7 (destruct r as [|? r]; [discriminate|]).
  destruct r; [|discriminate]. by repeat eexists.
Qed.

(** X15.  Drawing a rectangle whose open point is its centre raises
    [ValueError] and draws nothing: the axis is the zero vector, the
    normal divided by its norm is not a number, and so are the corners,
    which [int] refuses. *)
Theorem to_opencv_image_degenerate_raises :
  forall w g r img,
    is_rect_grasp (heap w) g r ->
    row_field 2 r = row_field 0 r ->
    row_field 3 r = row_field 1 r ->
    RectGrasp.to_opencv_image g img w = (Raise ValueError, w).
Proof.
  intros w g r img (Hb & Hs & Hd & Hr) H2 H3.
  destruct (row7 r Hr) as (x0 & x1 & x2 & x3 & x4 & x5 & x6 & ->).
  unfold row_field in H2, H3. simpl in H2, H3. subst x2 x3.
  unfold RectGrasp.to_opencv_image, RectGrasp.unpack7.
  unfold bind at 1. rewrite Hs, Hd. cbn [RECT_GRASP_ARRAY_LEN].
  destruct (corners_degenerate x0 x1 x4) as (y & p2 & p3 & p4 & ->).
  reflexivity.
Qed.

Lemma to_opencv_image_degenerate_raises_witness :
  is_rect_grasp (heap sample_rect_world_with_grasp) sample_rect_grasp
    sample_rect_grasp_row /\
  row_field 2 sample_rect_grasp_row = row_field 0 sample_rect_grasp_row /\
  row_field 3 sample_rect_grasp_row = row_field 1 sample_rect_grasp_row /\
  RectGrasp.to_opencv_image sample_rect_grasp [] sample_rect_world_with_grasp
  = (Raise ValueError, sample_rect_world_with_grasp).
Proof.
  split; [exact sample_rect_grasp_is_rect_grasp|].
  split; [reflexivity|]. split; [reflexivity|].
  exact (to_opencv_image_degenerate_raises _ _ _ []
           sample_rect_grasp_is_rect_grasp eq_refl eq_refl).
Defined.

(** ** Files *)

Lemma np_load_table path w C rows :
  files w !! path = Some (Npy [length rows; C] (concat rows)) ->
  Forall (fun r => length r = C) rows ->
  returns (np_load path) w
    (fun t w' =>
       is_table (heap w') t C rows /\
       nd_base t = length (heap w) /\
       heap w' = heap w ++ [concat rows] /\
       files w' = files w).
Proof.
  intros Hf Hall. unfold returns, np_load. rewrite Hf.
  unfold np_alloc. cbn [npy_shape npy_data].
  eexists _, _. split; [reflexivity|].
  rewrite heap_set_heap. cbn [nd_base].
  split; [by apply (is_table_fresh _ [])|done].
Qed.

(** X16.  [from_npy] checks nothing about the file it loads.  When no file
    has the name given, it raises [FileNotFoundError] and changes nothing.
    When the file holds a table of any number of columns, for instance
    one written by a [RectGraspGroup], a [GraspGroup] loads it as its
    table, in a buffer of its own. *)
Theorem from_npy_checks_nothing :
  (forall w self path,
      files w !! path = None ->
      GraspGroup.from_npy self path w = (Raise FileNotFoundError, w)) /\
  (forall w self path,
      files w !! path = None ->
      RectGraspGroup.from_npy self path w = (Raise FileNotFoundError, w)) /\
  (forall w g self path C rows,
      is_table (heap w) (rect_grasp_group_array g) C rows ->
      returns (run RectGraspGroup.save_npy g path in
               GraspGroup.from_npy self (npy_name path)) w
        (fun g' w' =>
           is_table (heap w') (grasp_group_array g') C rows /\
           is_table (heap w') (rect_grasp_group_array g) C rows /\
           independent w' (grasp_group_array g') (rect_grasp_group_array g))).
Proof.
  split; [|split].
  - intros w self path Hf.
    unfold GraspGroup.from_npy, bind, np_load. by rewrite Hf.
  - intros w self path Hf.
    unfold RectGraspGroup.from_npy, bind, np_load. by rewrite Hf.
  - intros w g self path C rows Ht. pose proof Ht as (Hb & Hs & Hd & Hall).
    unfold returns, RectGraspGroup.save_npy, GraspGroup.from_npy.
    unfold bind at 1. unfold np_save at 1.
    set (w1 := World _ _ _ _).
    destruct (np_load_table (npy_name path) w1 C rows)
      as (t & w' & Hrun & Ht' & Hbase & Hheap & _); [|done|].
    { subst w1. cbn [files]. rewrite lookup_insert_eq. by rewrite Hs, Hd. }
    rewrite (bind_Ok _ _ _ _ _ Hrun).
    eexists _, _. split; [reflexivity|]. cbn [grasp_group_array].
    split; [done|]. split.
    + rewrite Hheap. by apply is_table_app.
    + apply independent_fresh. rewrite Hbase. subst w1. cbn [heap]. lia.
Qed.

Lemma from_npy_checks_nothing_witness :
  files sample_world !! "grasps.npy"%string = None /\
  GraspGroup.from_npy sample_group "grasps.npy" sample_world
  = (Raise FileNotFoundError, sample_world).
Proof.
  split; [reflexivity|].
  exact (proj1 from_npy_checks_nothing sample_world sample_group
           "grasps.npy"%string eq_refl).
Defined.

(** X17.  The file that [save_npy] writes is a snapshot: a later
    assignment into the table of the group does not change what
    [from_npy] loads from it.  Saving again under the same name replaces
    the file: what is loaded afterwards is the table saved last. *)
Theorem saved_file_is_a_snapshot :
  (forall w g self path rows vs,
      is_table (heap w) (grasp_group_array g) GRASP_ARRAY_LEN rows ->
      returns (run GraspGroup.save_npy g path in
               run nd_assign (grasp_group_array g) vs in
               GraspGroup.from_npy self (npy_name path)) w
        (fun g' w' =>
           is_table (heap w') (grasp_group_array g') GRASP_ARRAY_LEN rows)) /\
  (forall w g1 g2 self path rows1 rows2,
      is_table (heap w) (grasp_group_array g1) GRASP_ARRAY_LEN rows1 ->
      is_table (heap w) (grasp_group_array g2) GRASP_ARRAY_LEN rows2 ->
      returns (run GraspGroup.save_npy g1 path in
               run GraspGroup.save_npy g2 path in
               GraspGroup.from_npy self (npy_name path)) w
        (fun g' w' =>
           is_table (heap w') (grasp_group_array g') GRASP_ARRAY_LEN rows2)).
Proof.
  split.
  - intros w g self path rows vs Ht. pose proof Ht as (Hb & Hs & Hd & Hall).
    unfold returns, GraspGroup.save_npy, GraspGroup.from_npy.
    unfold bind at 1. unfold np_save at 1.
    unfold bind at 1. unfold nd_assign at 1.
    set (w1 := set_heap _ _).
    destruct (np_load_table (npy_name path) w1 GRASP_ARRAY_LEN rows)
      as (t & w' & Hrun & Ht' & _); [|done|].
    { subst w1. cbn [files set_heap]. rewrite lookup_insert_eq. by rewrite Hs, Hd. }
    rewrite (bind_Ok _ _ _ _ _ Hrun). by eexists _, _.
  - intros w g1 g2 self path rows1 rows2 Ht1 Ht2.
    pose proof Ht2 as (Hb & Hs & Hd & Hall).
    unfold returns, GraspGroup.save_npy, GraspGroup.from_npy.
    unfold bind at 1. unfold np_save at 1.
    unfold bind at 1. unfold np_save at 1.
    set (w1 := World _ _ _ _).
    destruct (np_load_table (npy_name path) w1 GRASP_ARRAY_LEN rows2)
      as (t & w' & Hrun & Ht' & _); [|done|].
    { subst w1. cbn [files heap]. rewrite lookup_insert_eq. by rewrite Hs, Hd. }
    rewrite (bind_Ok _ _ _ _ _ Hrun). by eexists _, _.
Qed.

Lemma saved_file_is_a_snapshot_witness :
  is_table (heap sample_world) (grasp_group_array sample_group)
    GRASP_ARRAY_LEN sample_rows /\
  returns (run GraspGroup.save_npy sample_group "grasps" in
           run nd_assign (grasp_group_array sample_group) (replicate 85 fzero) in
           GraspGroup.from_npy sample_group (npy_name "grasps")) sample_world
    (fun g' w' =>
       is_table (heap w') (grasp_group_array g') GRASP_ARRAY_LEN sample_rows).
Proof.
  split; [exact sample_group_table|].
  exact (proj1 saved_file_is_a_snapshot sample_world sample_group sample_group
           "grasps"%string sample_rows (replicate 85 fzero) sample_group_table).
Defined.

(** ** Sorting and sampling *)

(** X18.  On a group none of whose scores is a NaN, [sort_by_score]
    returns a group whose rows are a rearrangement of the rows of the
    group, each as often as it was there, ordered by score: from the
    highest to the lowest score when [reverse] is false (the default),
    from the lowest to the highest when it is true.  The score is the
    column 0 for [GraspGroup] and the column 5 for [RectGraspGroup]. *)
Theorem sort_by_score_orders_rows :
  (forall w g rows reverse,
      is_table (heap w) (grasp_group_array g) GRASP_ARRAY_LEN rows ->
      Forall (fun x => is_nan x = false) (column 0 rows) ->
      returns (GraspGroup.sort_by_score g reverse) w
        (fun g' w' => exists rows',
           is_table (heap w') (grasp_group_array g') GRASP_ARRAY_LEN rows' /\
           rows' ≡ₚ rows /\
           if reverse then ascending (column 0 rows')
           else descending (column 0 rows'))) /\
  (forall w g rows reverse,
      is_table (heap w) (rect_grasp_group_array g) RECT_GRASP_ARRAY_LEN rows ->
      Forall (fun x => is_nan x = false) (column 5 rows) ->
      returns (RectGraspGroup.sort_by_score g reverse) w
        (fun g' w' => exists rows',
           is_table (heap w') (rect_grasp_group_array g') RECT_GRASP_ARRAY_LEN rows' /\
           rows' ≡ₚ rows /\
           if reverse then ascending (column 5 rows')
           else descending (column 5 rows'))).
Proof.
  split; intros w g rows reverse Ht Hnan.
  - by apply sort_by_score_GraspGroup_order.
  - by apply sort_by_score_RectGraspGroup_order.
Qed.

Lemma sample_scores_nan_free :
  Forall (fun x => is_nan x = false) (column 0 sample_rows).
Proof. by repeat constructor. Defined.

Lemma sort_by_score_orders_rows_witness :
  is_table (heap sample_world) (grasp_group_array sample_group)
    GRASP_ARRAY_LEN sample_rows /\
  Forall (fun x => is_nan x = false) (column 0 sample_rows) /\
  returns (GraspGroup.sort_by_score sample_group false) sample_world
    (fun g' w' => exists rows',
       is_table (heap w') (grasp_group_array g') GRASP_ARRAY_LEN rows' /\
       rows' ≡ₚ sample_rows /\
       descending (column 0 rows')).
Proof.
  split; [exact sample_group_table|].
  split; [exact sample_scores_nan_free|].
  exact (proj1 sort_by_score_orders_rows sample_world sample_group sample_rows
           false sample_group_table sample_scores_nan_free).
Defined.

(** X19.  [random_sample] with the length of the group returns all its
    rows, rearranged; with 0 it returns an empty group; with a negative
    number [n] it raises nothing and returns a group of [len + n] rows, or
    of none when that is negative.  In each case the group sampled from is
    as before.  The same holds for [RectGraspGroup]. *)
Theorem random_sample_boundary_counts :
  (forall w g rows n,
      is_table (heap w) (grasp_group_array g) GRASP_ARRAY_LEN rows ->
      n <= Z.of_nat (length rows) ->
      returns (GraspGroup.random_sample g n) w
        (fun g' w' => exists rows',
           is_table (heap w') (grasp_group_array g') GRASP_ARRAY_LEN rows' /\
           is_table (heap w') (grasp_group_array g) GRASP_ARRAY_LEN rows /\
           (n = Z.of_nat (length rows) -> rows' ≡ₚ rows) /\
           (n = 0 -> rows' = []) /\
           (n < 0 -> Z.of_nat (length rows')
                     = Z.max (Z.of_nat (length rows) + n) 0))) /\
  (forall w g rows n,
      is_table (heap w) (rect_grasp_group_array g) RECT_GRASP_ARRAY_LEN rows ->
      n <= Z.of_nat (length rows) ->
      returns (RectGraspGroup.random_sample g n) w
        (fun g' w' => exists rows',
           is_table (heap w') (rect_grasp_group_array g') RECT_GRASP_ARRAY_LEN rows' /\
           is_table (heap w') (rect_grasp_group_array g) RECT_GRASP_ARRAY_LEN rows /\
           (n = Z.of_nat (length rows) -> rows' ≡ₚ rows) /\
           (n = 0 -> rows' = []) /\
           (n < 0 -> Z.of_nat (length rows')
                     = Z.max (Z.of_nat (length rows) + n) 0))).
Proof.
  assert (Hcount : forall (rows rows' : list (list elt)) n,
    rows' ⊆+ rows ->
    length rows' = stop_of n (length rows) ->
    (n = Z.of_nat (length rows) -> rows' ≡ₚ rows) /\
    (n = 0 -> rows' = []) /\
    (n < 0 -> Z.of_nat (length rows') = Z.max (Z.of_nat (length rows) + n) 0)).
  { intros rows rows' n Hsub Hlen. split; [|split].
    - intros ->. apply submseteq_length_Permutation; [done|].
      rewrite Hlen. unfold stop_of.
      destruct (Z.of_nat (length rows) <? 0) eqn:Hneg;
        [apply Z.ltb_lt in Hneg|apply Z.ltb_ge in Hneg]; lia.
    - intros ->. apply length_zero_iff_nil. rewrite Hlen. unfold stop_of.
      simpl. lia.
    - intros Hn. rewrite Hlen. unfold stop_of.
      destruct (n <? 0) eqn:Hneg;
        [apply Z.ltb_lt in Hneg|apply Z.ltb_ge in Hneg]; lia. }
  split; intros w g rows n Ht Hn.
  - eapply returns_impl; [|by apply random_sample_GraspGroup_ok].
    intros g' w' (rows' & H1 & H2 & H3 & H4 & H5). exists rows'.
    split; [done|]. split; [done|]. by apply Hcount.
  - eapply returns_impl; [|by apply random_sample_RectGraspGroup_ok].
    intros g' w' (rows' & H1 & H2 & H3 & H4 & H5). exists rows'.
    split; [done|]. split; [done|]. by apply Hcount.
Qed.

Lemma random_sample_boundary_counts_witness :
  is_table (heap sample_world) (grasp_group_array sample_group)
    GRASP_ARRAY_LEN sample_rows /\
  5 <= Z.of_nat (length sample_rows) /\
  returns (GraspGroup.random_sample sample_group 5) sample_world
    (fun g' w' => exists rows',
       is_table (heap w') (grasp_group_array g') GRASP_ARRAY_LEN rows' /\
       is_table (heap w') (grasp_group_array sample_group) GRASP_ARRAY_LEN
         sample_rows /\
       (5 = Z.of_nat (length sample_rows) -> rows' ≡ₚ sample_rows) /\
       (5 = 0 -> rows' = []) /\
       (5 < 0 -> Z.of_nat (length rows')
                 = Z.max (Z.of_nat (length sample_rows) + 5) 0)).
Proof.
  assert (H : 5 <= Z.of_nat (length sample_rows)) by (vm_compute; discriminate).
  split; [exact sample_group_table|].
  split; [exact H|].
  exact (proj1 random_sample_boundary_counts sample_world sample_group sample_rows
           5 sample_group_table H).
Defined.

(** ** One rectangle of a group *)

Lemma getitem_int_GraspGroup_alloc w g rows i r :
  is_table (heap w) (grasp_group_array g) GRASP_ARRAY_LEN rows ->
  in_range (length rows) i ->
  rows !! position (length rows) i = Some r ->
  returns (GraspGroup.__getitem__ g (VInt i)) w
    (fun v w' => exists g', v = VGrasp g' /\
       is_grasp (heap w') g' r /\
       nd_base (grasp_array g') = length (heap w) /\
       heap w' = heap w ++ [r]).
Proof.
  intros Ht Hi Hr. pose proof Ht as (Hb & Hs & Hd & Hall).
  pose proof (norm_index_mod i _ Hi) as Hk.
  unfold returns, GraspGroup.__getitem__, np_index.
  unfold bind, ret. rewrite (nd_getitem_run _ _ [GRASP_ARRAY_LEN]).
  2:{ rewrite Hs. cbn [index_shape]. by rewrite Hk. }
  cbn [nd_shape GRASP_ARRAY_LEN of_indexed Grasp.__init__].
  unfold bind, ret, deepcopy, np_alloc.
  eexists _, _. split; [reflexivity|].
  eexists. split; [reflexivity|].
  cbn [grasp_array nd_shape nd_base]. rewrite !heap_set_heap.
  rewrite (table_row_data _ _ _ _ _ _ _ _ Ht Hk Hr).
  split; [|done].
  split; [cbn [nd_base]; rewrite length_app; simpl; lia|].
  split; [done|]. split; [apply (nd_data_fresh _ [])|].
  rewrite Forall_forall in Hall. apply Hall. by eapply list_elem_of_lookup_2.
Qed.

Lemma getitem_int_RectGraspGroup_alloc w g rows i r :
  is_table (heap w) (rect_grasp_group_array g) RECT_GRASP_ARRAY_LEN rows ->
  in_range (length rows) i ->
  rows !! position (length rows) i = Some r ->
  returns (RectGraspGroup.__getitem__ g (VInt i)) w
    (fun v w' => exists g', v = VRectGrasp g' /\
       is_rect_grasp (heap w') g' r /\
       nd_base (rect_grasp_array g') = length (heap w) /\
       heap w' = heap w ++ [r]).
Proof.
  intros Ht Hi Hr. pose proof Ht as (Hb & Hs & Hd & Hall).
  pose proof (norm_index_mod i _ Hi) as Hk.
  unfold returns, RectGraspGroup.__getitem__, np_index.
  unfold bind, ret. rewrite (nd_getitem_run _ _ [RECT_GRASP_ARRAY_LEN]).
  2:{ rewrite Hs. cbn [index_shape]. by rewrite Hk. }
  cbn [nd_shape RECT_GRASP_ARRAY_LEN of_indexed RectGrasp.__init__].
  unfold bind, ret, deepcopy, np_alloc.
  eexists _, _. split; [reflexivity|].
  eexists. split; [reflexivity|].
  cbn [rect_grasp_array nd_shape nd_base]. rewrite !heap_set_heap.
  rewrite (table_row_data _ _ _ _ _ _ _ _ Ht Hk Hr).
  split; [|done].
  split; [cbn [nd_base]; rewrite length_app; simpl; lia|].
  split; [done|]. split; [apply (nd_data_fresh _ [])|].
  rewrite Forall_forall in Hall. apply Hall. by eapply list_elem_of_lookup_2.
Qed.

(** X20.  For an index [i] in range, counted from the end when negative,
    [g[i]] on a [RectGraspGroup] returns a [RectGrasp] that holds the row
    [i] of the table in a buffer of its own: the table is as before, and
    no assignment through the array of the [RectGrasp] changes an element
    of the table. *)
Theorem rect_getitem_int_independent_copy :
  forall w g rows i r,
    is_table (heap w) (rect_grasp_group_array g) RECT_GRASP_ARRAY_LEN rows ->
    in_range (length rows) i ->
    rows !! position (length rows) i = Some r ->
    returns (RectGraspGroup.__getitem__ g (VInt i)) w
      (fun v w' => exists g', v = VRectGrasp g' /\
         is_rect_grasp (heap w') g' r /\
         is_table (heap w') (rect_grasp_group_array g) RECT_GRASP_ARRAY_LEN rows /\
         only_allocates w w' /\
         independent w' (rect_grasp_array g') (rect_grasp_group_array g)).
Proof.
  intros w g rows i r Ht Hi Hr. pose proof Ht as (Hb & _).
  eapply returns_impl;
    [|by apply (getitem_int_RectGraspGroup_alloc w g rows i r)].
  intros v w' (g' & -> & Hg' & Hbase & Hheap). exists g'.
  split; [done|]. split; [done|]. rewrite Hheap.
  split; [by apply is_table_app|]. split; [by eexists|].
  apply independent_fresh. lia.
Qed.

Lemma sample_rect_group_table :
  is_table (heap sample_rect_world) (rect_grasp_group_array sample_rect_group)
    RECT_GRASP_ARRAY_LEN sample_rect_rows.
Proof. apply is_table_table_of. by repeat constructor. Defined.

Lemma rect_getitem_int_independent_copy_witness :
  is_table (heap sample_rect_world) (rect_grasp_group_array sample_rect_group)
    RECT_GRASP_ARRAY_LEN sample_rect_rows /\
  in_range (length sample_rect_rows) (-2) /\
  sample_rect_rows !! position (length sample_rect_rows) (-2)
  = Some (sample_rect_row (Float32.of_Z 5)) /\
  returns (RectGraspGroup.__getitem__ sample_rect_group (VInt (-2))) sample_rect_world
    (fun v w' => exists g', v = VRectGrasp g' /\
       is_rect_grasp (heap w') g' (sample_rect_row (Float32.of_Z 5)) /\
       is_table (heap w') (rect_grasp_group_array sample_rect_group)
         RECT_GRASP_ARRAY_LEN sample_rect_rows /\
       only_allocates sample_rect_world w' /\
       independent w' (rect_grasp_array g') (rect_grasp_group_array sample_rect_group)).
Proof.
  assert (Hi : in_range (length sample_rect_rows) (-2))
    by (unfold in_range; simpl; lia).
  split; [exact sample_rect_group_table|].
  split; [exact Hi|].
  split; [reflexivity|].
  exact (rect_getitem_int_independent_copy sample_rect_world sample_rect_group
           sample_rect_rows (-2) (sample_rect_row (Float32.of_Z 5))
           sample_rect_group_table Hi eq_refl).
Defined.

(** ** Views on the table *)










(** ** Drawing a group *)








(** ** Constructing one grasp *)

(** X23.  Given one array, of any shape, the constructors of [Grasp] and
    of [RectGrasp] keep a copy of it: the array of the object has the
    shape and the elements of the argument, lives in a new buffer, and no
    assignment through it reaches the argument.  The length is not
    checked.  Given one value that is not an array they raise [TypeError],
    and given a number of arguments other than 1 or 7 [ValueError],
    changing nothing. *)
Theorem init_from_array_copies :
  (forall w a,
      (nd_base a < length (heap w))%nat ->
      returns (Grasp.__init__ (Grasp.Args1 (VArray a))) w
        (fun g w' =>
           nd_shape (grasp_array g) = nd_shape a /\
           nd_data (heap w') (grasp_array g) = nd_data (heap w) a /\
           nd_data (heap w') a = nd_data (heap w) a /\
           only_allocates w w' /\
           independent w' (grasp_array g) a)) /\
  (forall w a,
      (nd_base a < length (heap w))%nat ->
      returns (RectGrasp.__init__ (RectGrasp.Args1 (VArray a))) w
        (fun g w' =>
           nd_shape (rect_grasp_array g) = nd_shape a /\
           nd_data (heap w') (rect_grasp_array g) = nd_data (heap w) a /\
           nd_data (heap w') a = nd_data (heap w) a /\
           only_allocates w w' /\
           independent w' (rect_grasp_array g) a)) /\
  (forall w v,
      (forall a, v <> VArray a) ->
      Grasp.__init__ (Grasp.Args1 v) w = (Raise TypeError, w) /\
      RectGrasp.__init__ (RectGrasp.Args1 v) w = (Raise TypeError, w)) /\
  (forall w,
      Grasp.__init__ Grasp.ArgsOther w = (Raise ValueError, w) /\
      RectGrasp.__init__ RectGrasp.ArgsOther w = (Raise ValueError, w)).
Proof.
  split; [|split; [|split]].
  - intros w a Hb. unfold returns, Grasp.__init__, bind, ret, deepcopy, np_alloc.
    eexists _, _. split; [reflexivity|].
    cbn [grasp_array nd_shape]. rewrite !heap_set_heap.
    split; [done|]. split; [apply (nd_data_fresh _ [])|].
    split; [by apply nd_data_app|]. split; [by eexists|].
    apply independent_fresh. cbn [nd_base]. lia.
  - intros w a Hb. unfold returns, RectGrasp.__init__, bind, ret, deepcopy, np_alloc.
    eexists _, _. split; [reflexivity|].
    cbn [rect_grasp_array nd_shape]. rewrite !heap_set_heap.
    split; [done|]. split; [apply (nd_data_fresh _ [])|].
    split; [by apply nd_data_app|]. split; [by eexists|].
    apply independent_fresh. cbn [nd_base]. lia.
  - intros w v Hv. destruct v; try done. by destruct (Hv a).
  - done.
Qed.

Lemma init_from_array_copies_witness :
  (nd_base (grasp_array short_grasp) < length (heap sample_world_with_grasp))%nat /\
  returns (Grasp.__init__ (Grasp.Args1 (VArray (grasp_array short_grasp))))
    sample_world_with_grasp
    (fun g w' =>
       nd_shape (grasp_array g) = nd_shape (grasp_array short_grasp) /\
       nd_data (heap w') (grasp_array g)
       = nd_data (heap sample_world_with_grasp) (grasp_array short_grasp) /\
       nd_data (heap w') (grasp_array short_grasp)
       = nd_data (heap sample_world_with_grasp) (grasp_array short_grasp) /\
       only_allocates sample_world_with_grasp w' /\
       independent w' (grasp_array g) (grasp_array short_grasp)).
Proof.
  assert (H : (nd_base (grasp_array short_grasp)
               < length (heap sample_world_with_grasp))%nat)
    by (vm_compute; lia).
  split; [exact H|].
  exact (proj1 init_from_array_copies sample_world_with_grasp
           (grasp_array short_grasp) H).
Defined.

(** ** Adding, then indexing *)

(** X24.  After [add], the last element of the group is the grasp that
    was added: [g[-1]] returns a [Grasp] (a [RectGrasp] for a
    [RectGraspGroup]) holding the row of that grasp, in a buffer of its
    own. *)
Theorem add_then_getitem_last :
  (forall w g grasp rows r,
      is_table (heap w) (grasp_group_array g) GRASP_ARRAY_LEN rows ->
      is_grasp (heap w) grasp r ->
      returns (let* g1 := GraspGroup.add g grasp in
               GraspGroup.__getitem__ g1 (VInt (-1))) w
        (fun v w' => exists g',
           v = VGrasp g' /\
           is_grasp (heap w') g' r /\
           nd_base (grasp_array g') <> nd_base (grasp_array grasp) /\
           only_allocates w w')) /\
  (forall w g grasp rows r,
      is_table (heap w) (rect_grasp_group_array g) RECT_GRASP_ARRAY_LEN rows ->
      is_rect_grasp (heap w) grasp r ->
      returns (let* g1 := RectGraspGroup.add g grasp in
               RectGraspGroup.__getitem__ g1 (VInt (-1))) w
        (fun v w' => exists g',
           v = VRectGrasp g' /\
           is_rect_grasp (heap w') g' r /\
           nd_base (rect_grasp_array g') <> nd_base (rect_grasp_array grasp) /\
           only_allocates w w')).
Proof.
  assert (Hlast : forall (rows : list (list elt)) r,
            in_range (length (rows ++ [r])) (-1) /\
            (rows ++ [r]) !! position (length (rows ++ [r])) (-1) = Some r).
  { intros rows r. rewrite length_app. simpl. split; [unfold in_range; lia|].
    unfold position.
    replace (-1 mod Z.of_nat (length rows + 1)) with (Z.of_nat (length rows))
      by (apply (Z.mod_unique _ _ (-1)); lia).
    rewrite Nat2Z.id. by rewrite list_lookup_middle. }
  split; intros w g grasp rows r Ht Hg.
  - destruct (add_GraspGroup w g grasp rows r Ht Hg)
      as (g1 & w1 & Hrun & Ht1 & Hb1 & Hh1).
    destruct (Hlast rows r) as [Hi Hr].
    destruct (getitem_int_GraspGroup_alloc w1 g1 (rows ++ [r]) (-1) r Ht1 Hi Hr)
      as (v & w' & Hrun' & g' & -> & Hg' & Hbase & Hheap).
    unfold returns. rewrite (bind_Ok _ _ _ _ _ Hrun). rewrite Hrun'.
    eexists _, _. split; [reflexivity|]. exists g'. split; [done|].
    split; [done|]. destruct Hg as (Hb & _). split.
    + rewrite Hbase, Hh1, length_app. simpl. lia.
    + eexists. rewrite Hheap, Hh1. by rewrite <- app_assoc.
  - destruct (add_RectGraspGroup w g grasp rows r Ht Hg)
      as (g1 & w1 & Hrun & Ht1 & Hb1 & Hh1).
    destruct (Hlast rows r) as [Hi Hr].
    destruct (getitem_int_RectGraspGroup_alloc w1 g1 (rows ++ [r]) (-1) r Ht1 Hi Hr)
      as (v & w' & Hrun' & g' & -> & Hg' & Hbase & Hheap).
    unfold returns. rewrite (bind_Ok _ _ _ _ _ Hrun). rewrite Hrun'.
    eexists _, _. split; [reflexivity|]. exists g'. split; [done|].
    split; [done|]. destruct Hg as (Hb & _). split.
    + rewrite Hbase, Hh1, length_app. simpl. lia.
    + eexists. rewrite Hheap, Hh1. by rewrite <- app_assoc.
Qed.

Lemma add_then_getitem_last_witness :
  is_table (heap sample_world_with_grasp) (grasp_group_array sample_group)
    GRASP_ARRAY_LEN sample_rows /\
  is_grasp (heap sample_world_with_grasp) sample_grasp sample_grasp_row /\
  returns (let* g1 := GraspGroup.add sample_group sample_grasp in
           GraspGroup.__getitem__ g1 (VInt (-1))) sample_world_with_grasp
    (fun v w' => exists g',
       v = VGrasp g' /\
       is_grasp (heap w') g' sample_grasp_row /\
       nd_base (grasp_array g') <> nd_base (grasp_array sample_grasp) /\
       only_allocates sample_world_with_grasp w').
Proof.
  split; [exact sample_table_with_grasp|].
  split; [exact sample_grasp_is_grasp|].
  exact (proj1 add_then_getitem_last sample_world_with_grasp sample_group
           sample_grasp sample_rows sample_grasp_row sample_table_with_grasp
           sample_grasp_is_grasp).
Defined.
